(** * Registry file parser, creator and status checker

    A shallow embedding of [src/registry/reg_parser.py],
    [src/registry/reg_creator.py] and [src/registry/status_checker.py],
    followed by the properties of the specification that concern them.

    Python strings are modelled as [string]: a sequence of code points
    below 256.  Python integers are unbounded and are modelled as [Z].
    Python dictionaries keep insertion order and are modelled as
    association lists that are updated in place. *)

From Stdlib Require Import String Ascii List ZArith NArith Lia Bool Arith.
From Stdlib Require Import DecimalString DecimalNat DecimalFacts HexString.
From Stdlib Require ListSet.
Import ListNotations.

Local Open Scope list_scope.
Local Open Scope string_scope.

(* ===================================================================== *)
(** * Python built-ins used by the three modules                          *)
(* ===================================================================== *)

Module Py.

Definition ord (c : ascii) : N := N_of_ascii c.

(** The characters that need care inside a literal. *)
Definition dquote : ascii := "034"%char.
Definition squote : ascii := "039"%char.
Definition backslash : ascii := "092"%char.
Definition newline : ascii := "010"%char.
Definition u_umlaut : ascii := "252"%char.

Definition str1 (c : ascii) : string := String c EmptyString.

(** [str.isspace] on one code point below 256. *)
Definition isspace (c : ascii) : bool :=
  let n := ord c in
  (((9 <=? n) && (n <=? 13)) || ((28 <=? n) && (n <=? 32))
   || (n =? 133) || (n =? 160))%N.

(** The line boundaries of [str.splitlines] below 256. *)
Definition is_linebreak (c : ascii) : bool :=
  let n := ord c in
  (((10 <=? n) && (n <=? 13)) || ((28 <=? n) && (n <=? 30)) || (n =? 133))%N.

Fixpoint lstrip (s : string) : string :=
  match s with
  | EmptyString => EmptyString
  | String c s' => if isspace c then lstrip s' else s
  end.

Fixpoint rstrip (s : string) : string :=
  match s with
  | EmptyString => EmptyString
  | String c s' =>
      match rstrip s' with
      | EmptyString => if isspace c then EmptyString else str1 c
      | r => String c r
      end
  end.

Definition strip (s : string) : string := rstrip (lstrip s).

Definition startswith (p s : string) : bool := String.prefix p s.

Fixpoint endswith (suf s : string) : bool :=
  if String.eqb s suf then true
  else match s with
       | EmptyString => false
       | String _ s' => endswith suf s'
       end.

(** [s[n:]] *)
Fixpoint drop (n : nat) (s : string) : string :=
  match n, s with
  | O, _ => s
  | S n', String _ s' => drop n' s'
  | S _, EmptyString => EmptyString
  end.

(** [s[:-1]] *)
Fixpoint drop_last (s : string) : string :=
  match s with
  | EmptyString => EmptyString
  | String c EmptyString => EmptyString
  | String c s' => String c (drop_last s')
  end.

(** [s[1:-1]] *)
Definition slice_1_m1 (s : string) : string := drop_last (drop 1 s).

(** [s[:n]] *)
Definition take (n : nat) (s : string) : string := String.substring 0 n s.

(** [str.splitlines()]: a carriage return followed by a line feed is one
    boundary, and a final boundary opens no further line. *)
Fixpoint splitlines (s : string) : list string :=
  match s with
  | EmptyString => []
  | String c s' =>
      if (c =? "013")%char then
        match s' with
        | String c2 s'' =>
            if (c2 =? newline)%char then EmptyString :: splitlines s''
            else EmptyString :: splitlines s'
        | EmptyString => [EmptyString]
        end
      else if is_linebreak c then EmptyString :: splitlines s'
      else match splitlines s' with
           | [] => [str1 c]
           | h :: t => String c h :: t
           end
  end.

(** [s.split(sep)] for a separator of one character. *)
Fixpoint split (sep : ascii) (s : string) : list string :=
  match s with
  | EmptyString => [EmptyString]
  | String c s' =>
      if (c =? sep)%char then EmptyString :: split sep s'
      else match split sep s' with
           | [] => [str1 c]
           | h :: t => String c h :: t
           end
  end.

(** [sep.join(ls)] *)
Definition join (sep : string) (ls : list string) : string :=
  String.concat sep ls.

(** [s.replace(old, new)] for a non-empty [old]: occurrences are found from
    the left and do not overlap; [skip] counts the characters of a matched
    occurrence that are still to be passed over. *)
Fixpoint replace_go (old new : string) (skip : nat) (s : string) : string :=
  match s with
  | EmptyString => EmptyString
  | String c s' =>
      match skip with
      | S k => replace_go old new k s'
      | O =>
          if String.prefix old s
          then new ++ replace_go old new (String.length old - 1) s'
          else String c (replace_go old new 0 s')
      end
  end.

Definition replace (old new s : string) : string := replace_go old new 0 s.

(** [str.lower] on one code point below 256. *)
Definition lower_char (c : ascii) : ascii :=
  let n := ord c in
  if (((65 <=? n) && (n <=? 90))
      || ((192 <=? n) && (n <=? 222) && negb (n =? 215)))%N
  then ascii_of_N (n + 32) else c.

Fixpoint lower (s : string) : string :=
  match s with
  | EmptyString => EmptyString
  | String c s' => String (lower_char c) (lower s')
  end.

Fixpoint contains_char (c : ascii) (s : string) : bool :=
  match s with
  | EmptyString => false
  | String c' s' => (c' =? c)%char || contains_char c s'
  end.

Fixpoint forallb_str (p : ascii -> bool) (s : string) : bool :=
  match s with
  | EmptyString => true
  | String c s' => p c && forallb_str p s'
  end.

(** The longest prefix whose characters satisfy [p], and the rest. *)
Fixpoint span (p : ascii -> bool) (s : string) : string * string :=
  match s with
  | EmptyString => (EmptyString, EmptyString)
  | String c s' =>
      if p c then let (a, b) := span p s' in (String c a, b)
      else (EmptyString, s)
  end.

(** ** Integers and their text *)

(** [str(z)] for an integer. *)
Definition str_of_Z (z : Z) : string := NilZero.string_of_int (Z.to_int z).

Definition str_of_nat (n : nat) : string :=
  NilZero.string_of_uint (Nat.to_uint n).

(** Lower-case hexadecimal digits of a natural number, at least one. *)
Definition hex_of_N (n : N) : string :=
  match n with
  | N0 => "0"
  | Npos p => HexString.Raw.of_pos p EmptyString
  end.

Fixpoint zeros (n : nat) : string :=
  match n with
  | O => EmptyString
  | S n' => String "0" (zeros n')
  end.

(** [format(z, '0<w>x')]: zero padding goes between the sign and the digits
    and the sign counts towards the width. *)
Definition format_x (w : nat) (z : Z) : string :=
  match z with
  | Zneg p =>
      let d := hex_of_N (Npos p) in
      String "-" (zeros (w - 1 - String.length d) ++ d)
  | _ =>
      let d := hex_of_N (Z.to_N z) in
      zeros (w - String.length d) ++ d
  end.

(** The value of a digit character, as in CPython's table of digit values. *)
Definition digit_value (c : ascii) : option N :=
  let n := ord c in
  if ((48 <=? n) && (n <=? 57))%N then Some (n - 48)%N
  else if ((97 <=? n) && (n <=? 122))%N then Some (n - 87)%N
  else if ((65 <=? n) && (n <=? 90))%N then Some (n - 55)%N
  else None.

(** White space that [int()] skips around a literal: the C white space,
    and the two code points between 128 and 255 that count as space. *)
Definition int_space (c : ascii) : bool :=
  let n := ord c in
  (((9 <=? n) && (n <=? 13)) || (n =? 32) || (n =? 133) || (n =? 160))%N.

(** The C white space, the only one skipped around a bytes literal. *)
Definition c_space (c : ascii) : bool :=
  let n := ord c in
  (((9 <=? n) && (n <=? 13)) || (n =? 32))%N.

Fixpoint skip_space (space : ascii -> bool) (s : string) : string :=
  match s with
  | EmptyString => EmptyString
  | String c s' => if space c then skip_space space s' else s
  end.

(** Digits with single underscores between them.  Returns the value,
    whether a digit was read, and the rest; [None] for a doubled or final
    underscore. *)
Fixpoint scan_digits (base : N) (prev_us : bool) (acc : N) (any : bool)
    (s : string) : option (N * bool * string) :=
  let stop := if prev_us then None else Some (acc, any, s) in
  match s with
  | EmptyString => stop
  | String c s' =>
      if (c =? "_")%char then
        if prev_us then None else scan_digits base true acc any s'
      else
        match digit_value c with
        | Some d =>
            if (d <? base)%N
            then scan_digits base false (acc * base + d)%N true s'
            else stop
        | None => stop
        end
  end.

(** The integer literal syntax of [int(s, base)]; [None] stands for
    [ValueError]. *)
Definition int_of_text (space : ascii -> bool) (base : N) (s : string)
  : option Z :=
  let s1 := skip_space space s in
  let '(neg, s2) :=
    match s1 with
    | String "+" r => (false, r)
    | String "-" r => (true, r)
    | _ => (false, s1)
    end in
  let s3 :=
    match s2 with
    | String "0" (String x r) =>
        if (base =? 16)%N && ((x =? "x")%char || (x =? "X")%char) then
          match r with
          | String "_" r' => r'
          | _ => r
          end
        else s2
    | _ => s2
    end in
  match s3 with
  | String "_" _ => None
  | _ =>
      match scan_digits base false 0%N false s3 with
      | None => None
      | Some (n, any, rest) =>
          match any, skip_space space rest with
          | true, EmptyString =>
              Some (if neg then Z.opp (Z.of_N n) else Z.of_N n)
          | _, _ => None
          end
      end
  end.

(** [int(s, base)] for a string. *)
Definition int_of_str (base : N) (s : string) : option Z :=
  int_of_text int_space base s.

(** ** [repr] of a string *)

Definition hex2 (n : N) : string := format_x 2 (Z.of_N n).

Definition printable (c : ascii) : bool :=
  let n := ord c in
  (((32 <=? n) && (n <=? 126)) || ((161 <=? n) && negb (n =? 173)))%N.

Definition repr_char (quote : ascii) (c : ascii) : string :=
  if (c =? quote)%char || (c =? backslash)%char then String backslash (str1 c)
  else if (c =? "009")%char then String backslash "t"
  else if (c =? "010")%char then String backslash "n"
  else if (c =? "013")%char then String backslash "r"
  else if printable c then str1 c
  else String backslash (String "x" (hex2 (ord c))).

Fixpoint repr_body (quote : ascii) (s : string) : string :=
  match s with
  | EmptyString => EmptyString
  | String c s' => repr_char quote c ++ repr_body quote s'
  end.

Definition repr (s : string) : string :=
  let quote :=
    if contains_char squote s && negb (contains_char dquote s)
    then dquote else squote in
  String quote (repr_body quote s ++ str1 quote).

(** The text of the [ValueError] that [int(s, base)] raises: the literal
    is shown by [repr], cut at 200 characters. *)
Definition int_error (base : N) (s : string) : string :=
  "invalid literal for int() with base " ++ str_of_Z (Z.of_N base)
    ++ ": " ++ take 200 (repr s).

(** ** Dictionaries *)

Definition dict (V : Type) : Type := list (string * V).

Fixpoint dict_get {V} (d : dict V) (k : string) : option V :=
  match d with
  | [] => None
  | (k', v) :: d' => if (k' =? k)%string then Some v else dict_get d' k
  end.

Definition dict_mem {V} (d : dict V) (k : string) : bool :=
  match dict_get d k with Some _ => true | None => false end.

(** [d[k] = v]: an existing key keeps its place. *)
Fixpoint dict_set {V} (d : dict V) (k : string) (v : V) : dict V :=
  match d with
  | [] => [(k, v)]
  | (k', v') :: d' =>
      if (k' =? k)%string then (k', v) :: d'
      else (k', v') :: dict_set d' k v
  end.

Definition dict_keys {V} (d : dict V) : list string := map fst d.
Definition dict_values {V} (d : dict V) : list V := map snd d.

End Py.

Import Py.

Definition nl : string := str1 newline.
Definition q : string := str1 dquote.
Definition bs : string := str1 backslash.

(* ===================================================================== *)
(** * Data model                                                          *)
(* ===================================================================== *)

#[local] Set Warnings "-register-all".

(** The payloads that occur under the ['data'] key of a value, and in the
    answers of the live registry. *)
Inductive py_data : Type :=
| PNone
| PStr (s : string)
| PInt (z : Z)
| PBytes (b : list Byte.byte)
| PList (l : list py_data).

(** A value dictionary with the keys ['type'], ['data'], ['error'] and
    ['action']; [None] is an absent key. *)
Record reg_value : Type := mk_value {
  v_type : option string;
  v_data : option py_data;
  v_error : option string;
  v_action : option string
}.

(** [value.get('data')] *)
Definition get_data (v : reg_value) : py_data :=
  match v_data v with Some d => d | None => PNone end.

(** A key dictionary: [{'values': {...}, 'default_value': ...}]. *)
Record key_data : Type := mk_key {
  values : dict reg_value;
  default_value : option reg_value
}.

(** The result dictionary of the parser. *)
Record parsed : Type := mk_parsed {
  version : option string;
  keys : dict key_data;
  deleted_keys : list string;
  errors : list string
}.

(* ===================================================================== *)
(** * reg_parser.py                                                       *)
(* ===================================================================== *)

Module RegFileParser.

(** [$] matches at the end and before a final line feed. *)
Definition at_end (s : string) : bool :=
  (s =? EmptyString) || (s =? str1 newline).

(** [key_pattern = ^\[([^\]]+)\]$] *)
Definition key_pattern (line : string) : option string :=
  match line with
  | String "[" r =>
      let (body, tl) := span (fun c => negb (c =? "]")%char) r in
      match body, tl with
      | String _ _, String "]" e => if at_end e then Some body else None
      | _, _ => None
      end
  | _ => None
  end.

(** [delete_key_pattern = ^\[-([^\]]+)\]$] *)
Definition delete_key_pattern (line : string) : option string :=
  match line with
  | String "[" (String "-" r) =>
      let (body, tl) := span (fun c => negb (c =? "]")%char) r in
      match body, tl with
      | String _ _, String "]" e => if at_end e then Some body else None
      | _, _ => None
      end
  | _ => None
  end.

(** [(.+)$]: one or more characters other than a line feed, up to the end
    or to a final line feed. *)
Definition dot_plus_end (s : string) : option string :=
  let (body, tl) := span (fun c => negb (c =? newline)%char) s in
  match body with
  | String _ _ => if at_end tl then Some body else None
  | EmptyString => None
  end.

(** [value_pattern]: a double quote, the name ([[^dq]*], no double
    quote inside), a double quote, [=], then [(.+)$]. *)
Definition value_pattern (line : string) : option (string * string) :=
  match line with
  | String c r =>
      if (c =? dquote)%char then
        let (name, tl) := span (fun c => negb (c =? dquote)%char) r in
        match tl with
        | String _ (String "=" rhs) =>
            match dot_plus_end rhs with
            | Some v => Some (name, v)
            | None => None
            end
        | _ => None
        end
      else None
  | EmptyString => None
  end.

(** [default_value_pattern = ^@=(.+)$] *)
Definition default_value_pattern (line : string) : option string :=
  match line with
  | String "@" (String "=" rhs) => dot_plus_end rhs
  | _ => None
  end.

(** [re.match(r'hex\(([^)]+)\):', value_str)]: the type code and the
    length of the whole match. *)
Definition hex_type_match (value_str : string) : option (string * nat) :=
  if startswith "hex(" value_str then
    let (code, tl) := span (fun c => negb (c =? ")")%char) (drop 4 value_str) in
    match code, tl with
    | String _ _, String ")" (String ":" _) =>
        Some (code, 4 + String.length code + 2)
    | _, _ => None
    end
  else None.

Definition type_mapping : dict string :=
  [ ("0", "REG_NONE"); ("1", "REG_SZ"); ("2", "REG_EXPAND_SZ");
    ("3", "REG_BINARY"); ("4", "REG_DWORD"); ("5", "REG_DWORD_BIG_ENDIAN");
    ("6", "REG_LINK"); ("7", "REG_MULTI_SZ"); ("8", "REG_RESOURCE_LIST");
    ("9", "REG_FULL_RESOURCE_DESCRIPTOR");
    ("a", "REG_RESOURCE_REQUIREMENTS_LIST"); ("b", "REG_QWORD") ].

Definition _get_reg_type_from_code (type_code : string) : string :=
  match dict_get type_mapping (lower type_code) with
  | Some t => t
  | None => "REG_BINARY"
  end.

(** The loop over [hex_data.split(',')]: [inl] carries the text of the
    [ValueError] of the first pair that is no hexadecimal number. *)
Fixpoint parse_hex_pairs (pairs : list string) : string + list Z :=
  match pairs with
  | [] => inr []
  | hex_pair0 :: rest =>
      let hex_pair := strip hex_pair0 in
      if negb (hex_pair =? EmptyString) && negb (hex_pair =? str1 backslash)
      then
        match int_of_str 16 hex_pair with
        | None => inl (int_error 16 hex_pair)
        | Some z =>
            match parse_hex_pairs rest with
            | inl e => inl e
            | inr zs => inr (z :: zs)
            end
        end
      else parse_hex_pairs rest
  end.

Definition ungueltig : string := "Ung" ++ String u_umlaut "ltig".

Definition _parse_value (value_str0 : string) : reg_value :=
  let value_str := strip value_str0 in
  if startswith (str1 dquote) value_str && endswith (str1 dquote) value_str
  then
    mk_value (Some "REG_SZ")
      (Some (PStr (replace (String backslash (str1 dquote)) (str1 dquote)
                     (slice_1_m1 value_str))))
      None None
  else if startswith "dword:" value_str then
    let hex_value := drop 6 value_str in
    match int_of_str 16 hex_value with
    | Some z => mk_value (Some "REG_DWORD") (Some (PInt z)) None None
    | None =>
        mk_value (Some "REG_DWORD") (Some (PInt 0))
          (Some (ungueltig ++ "er DWORD-Wert: " ++ value_str)) None
    end
  else if startswith "qword:" value_str then
    let hex_value := drop 6 value_str in
    match int_of_str 16 hex_value with
    | Some z => mk_value (Some "REG_QWORD") (Some (PInt z)) None None
    | None =>
        mk_value (Some "REG_QWORD") (Some (PInt 0))
          (Some (ungueltig ++ "er QWORD-Wert: " ++ value_str)) None
    end
  else if startswith "hex" value_str then
    let '(reg_type, hex_data) :=
      if startswith "hex:" value_str then ("REG_BINARY", drop 4 value_str)
      else if startswith "hex(" value_str then
        match hex_type_match value_str with
        | Some (type_code, len0) =>
            (_get_reg_type_from_code type_code, drop len0 value_str)
        | None => ("REG_BINARY", value_str)
        end
      else ("REG_BINARY", value_str) in
    match parse_hex_pairs (split "," hex_data) with
    | inr hex_bytes =>
        mk_value (Some reg_type) (Some (PList (map PInt hex_bytes))) None None
    | inl e =>
        mk_value (Some reg_type) (Some (PList []))
          (Some (ungueltig ++ "e Hex-Daten: " ++ e)) None
    end
  else
    mk_value (Some "UNKNOWN") (Some (PStr value_str))
      (Some ("Unbekannter Wert-Typ: " ++ value_str)) None.

(** ** The loop of [parse_content] *)

(** The variables of the loop. *)
Record pstate : Type := mk_pstate {
  result : parsed;
  current_key : option string;
  line_number : nat
}.

Definition set_version (r : parsed) (v : string) : parsed :=
  mk_parsed (Some v) (keys r) (deleted_keys r) (errors r).
Definition set_keys (r : parsed) (ks : dict key_data) : parsed :=
  mk_parsed (version r) ks (deleted_keys r) (errors r).
Definition add_deleted (r : parsed) (k : string) : parsed :=
  mk_parsed (version r) (keys r) (deleted_keys r ++ [k]) (errors r).
Definition add_error (r : parsed) (e : string) : parsed :=
  mk_parsed (version r) (keys r) (deleted_keys r) (errors r ++ [e]).

(** One pass through the loop body either goes on with new variables or
    raises; the only statement of the body that can raise is the
    subscript [result['keys'][current_key]], with a [KeyError]. *)
Inductive outcome : Type :=
| Next (st : pstate)
| Raise (st : pstate) (e : string).

Definition key_error (k : string) : string := repr k.

Definition unknown_line (r : parsed) (n : nat) (line : string) : parsed :=
  add_error r ("Zeile " ++ str_of_nat n ++ ": Unbekanntes Format: " ++ line).

(** The body of the loop.  The test [line.endswith] for a final backslash
    has an empty body and is left out; a line that no pattern matches is
    reported whether a key is open or not. *)
Definition parse_line (st : pstate) (raw : string) : outcome :=
  let n := S (line_number st) in
  let r := result st in
  let ck := current_key st in
  let line := strip raw in
  if (line =? EmptyString) || startswith ";" line then
    Next (mk_pstate r ck n)
  else if startswith "Windows Registry Editor" line then
    Next (mk_pstate (set_version r line) ck n)
  else
    match key_pattern line with
    | Some k =>
        if dict_mem (keys r) k then Next (mk_pstate r (Some k) n)
        else
          Next (mk_pstate (set_keys r (dict_set (keys r) k (mk_key [] None)))
                  (Some k) n)
    | None =>
        match delete_key_pattern line with
        | Some d => Next (mk_pstate (add_deleted r d) ck n)
        | None =>
            let unknown := Next (mk_pstate (unknown_line r n line) ck n) in
            match ck with
            | None => unknown
            | Some k =>
                if (k =? EmptyString) then unknown
                else
                  match default_value_pattern line with
                  | Some rhs =>
                      let value_data := _parse_value rhs in
                      match dict_get (keys r) k with
                      | None => Raise (mk_pstate r ck n) (key_error k)
                      | Some kd =>
                          Next (mk_pstate
                                  (set_keys r
                                     (dict_set (keys r) k
                                        (mk_key (values kd) (Some value_data))))
                                  ck n)
                      end
                  | None =>
                      match value_pattern line with
                      | Some (value_name, value_raw) =>
                          let value_data :=
                            if (value_raw =? "-")
                            then mk_value (Some "DELETE") (Some PNone) None None
                            else _parse_value value_raw in
                          match dict_get (keys r) k with
                          | None => Raise (mk_pstate r ck n) (key_error k)
                          | Some kd =>
                              Next (mk_pstate
                                      (set_keys r
                                         (dict_set (keys r) k
                                            (mk_key
                                               (dict_set (values kd) value_name
                                                  value_data)
                                               (default_value kd))))
                                      ck n)
                          end
                      | None => unknown
                      end
                  end
            end
        end
    end.

(** [for line in lines: ...]: the loop stops at the first pass that
    raises. *)
Fixpoint steps (st : pstate) (lines : list string) : outcome :=
  match lines with
  | [] => Next st
  | raw :: rest =>
      match parse_line st raw with
      | Next st' => steps st' rest
      | Raise st' e => Raise st' e
      end
  end.

(** [try: for ... except Exception as e: result['errors'].append(...)] *)
Definition parse_lines (st : pstate) (lines : list string) : parsed :=
  match steps st lines with
  | Next st' => result st'
  | Raise st' e =>
      add_error (result st')
        ("Zeile " ++ str_of_nat (line_number st') ++ ": Parsing-Fehler: " ++ e)
  end.

Definition initial : pstate := mk_pstate (mk_parsed None [] [] []) None 0.

Definition parse_content (content : string) : parsed :=
  parse_lines initial (splitlines content).

End RegFileParser.

Import RegFileParser.


(* ===================================================================== *)
(** * reg_creator.py                                                      *)
(* ===================================================================== *)

Module RegFileCreator.

(** [repr] of a bytes object. *)
Definition repr_byte (quote : ascii) (c : ascii) : string :=
  let n := ord c in
  if (c =? quote)%char || (c =? backslash)%char then String backslash (str1 c)
  else if (c =? "009")%char then String backslash "t"
  else if (c =? "010")%char then String backslash "n"
  else if (c =? "013")%char then String backslash "r"
  else if ((32 <=? n) && (n <=? 126))%N then str1 c
  else String backslash (String "x" (hex2 n)).

Definition repr_bytes (b : list Byte.byte) : string :=
  let s := string_of_list_byte b in
  let quote :=
    if contains_char squote s && negb (contains_char dquote s)
    then dquote else squote in
  let fix body (s : string) : string :=
    match s with
    | EmptyString => EmptyString
    | String c s' => repr_byte quote c ++ body s'
    end in
  String "b" (String quote (body s ++ str1 quote)).

Fixpoint py_repr (d : py_data) : string :=
  match d with
  | PNone => "None"
  | PStr s => repr s
  | PInt z => str_of_Z z
  | PBytes b => repr_bytes b
  | PList l => "[" ++ join ", " (map py_repr l) ++ "]"
  end.

(** [str(data)] *)
Definition py_str (d : py_data) : string :=
  match d with
  | PStr s => s
  | _ => py_repr d
  end.

(** [[f"{b:02x}" for b in data]]; [None] when an element is no integer and
    the format raises. *)
Fixpoint hex_values_of (data : list py_data) : option (list string) :=
  match data with
  | [] => Some []
  | PInt b :: rest =>
      match hex_values_of rest with
      | Some hv => Some (format_x 2 b :: hv)
      | None => None
      end
  | _ :: _ => None
  end.

(** The loop [for i in range(0, len(hex_values), 16)]: every chunk of 16
    that is followed by more ends in a comma and a backslash. *)
Fixpoint chunk_lines (fuel : nat) (hex_values : list string) : list string :=
  match fuel, hex_values with
  | O, _ => []
  | _, [] => []
  | S fuel', _ =>
      let chunk := firstn 16 hex_values in
      match skipn 16 hex_values with
      | [] => [join "," chunk]
      | rest => (join "," chunk ++ "," ++ str1 backslash)
                  :: chunk_lines fuel' rest
      end
  end.

(** [[ord(char) & 0xFF, (ord(char) >> 8) & 0xFF]] for every character. *)
Fixpoint utf16_units (s : string) : list Z :=
  match s with
  | EmptyString => []
  | String char s' =>
      Z.of_N (N.land (ord char) 255)
        :: Z.of_N (N.land (N.shiftr (ord char) 8) 255)
        :: utf16_units s'
  end.

Fixpoint multi_sz_bytes (data : list py_data) : list Z :=
  match data with
  | [] => [0; 0]%Z
  | string :: rest =>
      (utf16_units (py_str string) ++ [0; 0]%Z ++ multi_sz_bytes rest)%list
  end.

Definition type_or_default (v : reg_value) : string :=
  match v_type v with Some t => t | None => "REG_SZ" end.

(** [_format_value] on a value dictionary; [None] when it raises.  The
    two shortcuts for a bare string or integer in place of the dictionary
    lie outside the document model: [_generate_content] calls [.get] on
    every named value. *)
Definition _format_value (value_data : reg_value) : option string :=
  let value_type := type_or_default value_data in
  let data := get_data value_data in
  if value_type =? "REG_SZ" then
    match data with
    | PNone => Some (str1 dquote ++ str1 dquote)
    | _ =>
        let escaped :=
          replace (str1 dquote) (String backslash (str1 dquote)) (py_str data) in
        Some (str1 dquote ++ escaped ++ str1 dquote)
    end
  else if value_type =? "REG_DWORD" then
    match data with
    | PInt z => Some ("dword:" ++ format_x 8 z)
    | _ => Some "dword:00000000"
    end
  else if value_type =? "REG_QWORD" then
    match data with
    | PInt z => Some ("qword:" ++ format_x 16 z)
    | _ => Some "qword:0000000000000000"
    end
  else if value_type =? "REG_BINARY" then
    match data with
    | PList l =>
        match hex_values_of l with
        | None => None
        | Some hex_values =>
            if (List.length hex_values <=? 8)%nat
            then Some ("hex:" ++ join "," hex_values)
            else
              let lines := chunk_lines (List.length hex_values) hex_values in
              Some ("hex:" ++ hd EmptyString lines ++ str1 newline ++ "  "
                    ++ join (str1 newline ++ "  ") (tl lines))
        end
    | _ => Some "hex:"
    end
  else if value_type =? "REG_MULTI_SZ" then
    match data with
    | PList l =>
        Some ("hex(7):" ++ join "," (map (format_x 2) (multi_sz_bytes l)))
    | _ => Some "hex(7):00,00"
    end
  else if value_type =? "REG_EXPAND_SZ" then
    let unicode_bytes :=
      match data with
      | PNone => [0; 0]%Z
      | _ => (utf16_units (py_str data) ++ [0; 0]%Z)%list
      end in
    Some ("hex(2):" ++ join "," (map (format_x 2) unicode_bytes))
  else
    Some (str1 dquote ++ py_str data ++ str1 dquote).

Definition truthy (o : option string) : bool :=
  match o with
  | Some s => negb (s =? EmptyString)
  | None => false
  end.

(** The comment block; [now] is the text of
    [datetime.now().strftime('%d.%m.%Y %H:%M:%S')]. *)
Definition header_lines (title description : option string) (now : string)
  : list string :=
  let rule := "; ==========================================" in
  let title_lines :=
    match title with
    | Some t => if t =? EmptyString then [] else ["; " ++ t]
    | None => []
    end in
  let description_lines :=
    match description with
    | Some d =>
        if d =? EmptyString then []
        else "; " :: map (fun desc_line => "; " ++ desc_line) (split newline d)
    | None => []
    end in
  if truthy title || truthy description then
    List.app [rule]
      (List.app title_lines
         (List.app description_lines
            ["; "; "; Erstellt am: " ++ now; rule; EmptyString]))
  else [].

(** The lines of the named values of one key. *)
Fixpoint value_lines (vs : dict reg_value) : option (list string) :=
  match vs with
  | [] => Some []
  | (value_name, value_data) :: rest =>
      let line :=
        match v_action value_data with
        | Some "delete" =>
            Some (str1 dquote ++ value_name ++ str1 dquote ++ "=-")
        | _ =>
            match _format_value value_data with
            | Some value_str =>
                Some (str1 dquote ++ value_name ++ str1 dquote ++ "="
                      ++ value_str)
            | None => None
            end
        end in
      match line, value_lines rest with
      | Some l, Some ls => Some (l :: ls)
      | _, _ => None
      end
  end.

Fixpoint key_lines (ks : dict key_data) : option (list string) :=
  match ks with
  | [] => Some []
  | (key_path, kd) :: rest =>
      let default_line :=
        match default_value kd with
        | Some dv =>
            match _format_value dv with
            | Some value_str => Some ["@=" ++ value_str]
            | None => None
            end
        | None => Some []
        end in
      match default_line, value_lines (values kd), key_lines rest with
      | Some dl, Some vl, Some kl =>
          Some (("[" ++ key_path ++ "]")
                  :: List.app dl (List.app vl (EmptyString :: kl)))
      | _, _, _ => None
      end
  end.

Fixpoint deleted_lines (ds : list string) : list string :=
  match ds with
  | [] => []
  | deleted_key :: rest =>
      ("[-" ++ deleted_key ++ "]") :: EmptyString :: deleted_lines rest
  end.

(** [_generate_content]; [None] when [_format_value] raises. *)
Definition _generate_content (registry_data : parsed)
    (title description : option string) (now : string) : option string :=
  match key_lines (keys registry_data) with
  | Some kl =>
      Some (join (str1 newline)
              ("Windows Registry Editor Version 5.00" :: EmptyString
               :: List.app (header_lines title description now)
                    (List.app kl (deleted_lines (deleted_keys registry_data)))))
  | None => None
  end.

End RegFileCreator.

Import RegFileCreator.

(* ===================================================================== *)
(** * status_checker.py                                                   *)
(* ===================================================================== *)

Module RegistryStatusChecker.

(** ** The live registry *)

(** What a call of [winreg] does: it returns, raises [FileNotFoundError],
    or raises another exception whose text is [msg]. *)
Inductive access (A : Type) : Type :=
| Found (a : A)
| NotFound
| OtherError (msg : string).
Arguments Found {A} a.
Arguments NotFound {A}.
Arguments OtherError {A} msg.

(** The three calls the checker makes.  A key handle is the pair of root
    handle and sub-key it was opened with. *)
Record live_registry : Type := mk_registry {
  OpenKey : Z -> string -> access unit;
  QueryValue : Z -> string -> access string;
  QueryValueEx : Z -> string -> string -> access (py_data * Z)
}.

Inductive event : Type :=
| EvOpenKey (root : Z) (sub_key : string)
| EvQueryValue (root : Z) (sub_key : string)
| EvQueryValueEx (root : Z) (sub_key : string) (value_name : string).

Definition is_read (e : event) : bool :=
  match e with
  | EvOpenKey _ _ => false
  | _ => true
  end.

(** Computations that record the calls they make, oldest first. *)
Definition M (A : Type) : Type := list event -> A * list event.

Definition ret {A} (a : A) : M A := fun log => (a, log).
Definition bind {A B} (m : M A) (f : A -> M B) : M B :=
  fun log => let (a, log') := m log in f a log'.
Definition call {A} (e : event) (answer : A) : M A :=
  fun log => (answer, List.app log [e]).
Definition run {A} (m : M A) : A * list event := m [].

Notation "x <- m ;; f" := (bind m (fun x => f))
  (at level 61, m at next level, right associativity).

(** The handles of the predefined keys and the numbers of the value types,
    as the Windows API fixes them. *)
Definition HKEY_CLASSES_ROOT : Z := 0x80000000.
Definition HKEY_CURRENT_USER : Z := 0x80000001.
Definition HKEY_LOCAL_MACHINE : Z := 0x80000002.
Definition HKEY_USERS : Z := 0x80000003.
Definition HKEY_CURRENT_CONFIG : Z := 0x80000005.

Definition REG_SZ : Z := 1.

Definition root_keys : dict Z :=
  [ ("HKEY_CLASSES_ROOT", HKEY_CLASSES_ROOT);
    ("HKEY_CURRENT_USER", HKEY_CURRENT_USER);
    ("HKEY_LOCAL_MACHINE", HKEY_LOCAL_MACHINE);
    ("HKEY_USERS", HKEY_USERS);
    ("HKEY_CURRENT_CONFIG", HKEY_CURRENT_CONFIG) ].

Definition reg_types : list (Z * string) :=
  [ (1, "REG_SZ"); (2, "REG_EXPAND_SZ"); (3, "REG_BINARY"); (4, "REG_DWORD");
    (5, "REG_DWORD_BIG_ENDIAN"); (6, "REG_LINK"); (7, "REG_MULTI_SZ");
    (8, "REG_RESOURCE_LIST"); (9, "REG_FULL_RESOURCE_DESCRIPTOR");
    (10, "REG_RESOURCE_REQUIREMENTS_LIST"); (11, "REG_QWORD") ]%Z.

Fixpoint lookup_type (m : list (Z * string)) (reg_type : Z) : option string :=
  match m with
  | [] => None
  | (n, name) :: m' => if (n =? reg_type)%Z then Some name else lookup_type m' reg_type
  end.

(** [self.reg_types.get(reg_type, f'UNKNOWN({reg_type})')] *)
Definition reg_type_name (reg_type : Z) : string :=
  match lookup_type reg_types reg_type with
  | Some name => name
  | None => "UNKNOWN(" ++ str_of_Z reg_type ++ ")"
  end.

(** ** Results *)

Inductive status : Type :=
| Match | Different | Missing | ShouldNotExist | CorrectlyDeleted.

Record value_status : Type := mk_value_status {
  vs_status : status;
  vs_expected : reg_value;
  vs_actual : option reg_value;
  vs_error : option string
}.

(** A key entry of the report; [None] is an absent key of the dictionary. *)
Record key_status : Type := mk_key_status {
  ks_exists : bool;
  ks_expected_deleted : option bool;
  ks_status : option status;
  ks_values : dict value_status;
  ks_errors : option (list string)
}.

Inductive overall : Type :=
| all_active | all_inactive | partial | unknown.

Record status_result : Type := mk_status_result {
  summary : dict Z;
  sr_keys : dict key_status;
  sr_errors : list string;
  overall_status : overall
}.

(** ** Comparison of values *)

Fixpoint py_eqb (a b : py_data) : bool :=
  match a, b with
  | PNone, PNone => true
  | PStr s, PStr t => (s =? t)%string
  | PInt x, PInt y => (x =? y)%Z
  | PBytes x, PBytes y =>
      (string_of_list_byte x =? string_of_list_byte y)%string
  | PList l, PList m =>
      (fix go (l m : list py_data) : bool :=
         match l, m with
         | [], [] => true
         | x :: l', y :: m' => py_eqb x y && go l' m'
         | _, _ => false
         end) l m
  | _, _ => false
  end.

(** [list(actual_data)] for a bytes object. *)
Definition list_of_bytes (b : list Byte.byte) : py_data :=
  PList (map (fun x => PInt (Z.of_N (Byte.to_N x))) b).

(** [int(data)]; [None] when it raises.  (The limit that newer
    interpreters put on the number of decimal digits is not modelled.) *)
Definition py_int (d : py_data) : option Z :=
  match d with
  | PInt z => Some z
  | PStr s => int_of_str 10 s
  | PBytes b => int_of_text c_space 10 (string_of_list_byte b)
  | PNone => None
  | PList _ => None
  end.

Definition option_string_eqb (a b : option string) : bool :=
  match a, b with
  | Some x, Some y => (x =? y)%string
  | None, None => true
  | _, _ => false
  end.

Definition _compare_values (expected actual : reg_value) : bool :=
  if negb (option_string_eqb (v_type expected) (v_type actual)) then false
  else
    let expected_data := get_data expected in
    let actual_data := get_data actual in
    let by_str := (py_str expected_data =? py_str actual_data)%string in
    match v_type expected with
    | None => by_str
    | Some value_type =>
        if (value_type =? "REG_SZ") || (value_type =? "REG_EXPAND_SZ")
        then by_str
        else if (value_type =? "REG_DWORD") || (value_type =? "REG_QWORD") then
          match py_int expected_data, py_int actual_data with
          | Some x, Some y => (x =? y)%Z
          | _, _ => false
          end
        else if value_type =? "REG_BINARY" then
          match expected_data, actual_data with
          | PList _, PBytes b => py_eqb expected_data (list_of_bytes b)
          | _, _ => py_eqb expected_data actual_data
          end
        else if value_type =? "REG_MULTI_SZ" then
          match expected_data, actual_data with
          | PList _, PList _ => py_eqb expected_data actual_data
          | _, _ => by_str
          end
        else by_str
    end.

(** ** Checking *)

Fixpoint lstrip_char (c : ascii) (s : string) : string :=
  match s with
  | EmptyString => EmptyString
  | String c' s' => if (c' =? c)%char then lstrip_char c s' else s
  end.

Fixpoint find_root (roots : dict Z) (key_path : string) : option Z * string :=
  match roots with
  | [] => (None, key_path)
  | (root_name, root_handle) :: rest =>
      if startswith root_name key_path
      then (Some root_handle,
            lstrip_char backslash (drop (String.length root_name) key_path))
      else find_root rest key_path
  end.

Definition _parse_key_path (key_path : string) : option Z * string :=
  find_root root_keys key_path.

(** [not root_key] *)
Definition no_root (root_key : option Z) : bool :=
  match root_key with
  | None => true
  | Some h => (h =? 0)%Z
  end.

Definition is_delete (v : reg_value) : bool :=
  match v_action v with
  | Some a => (a =? "delete")%string
  | None => false
  end.

(** [_check_value_status] on the key opened as [(root, sub_key)]; a
    [value_name] of [None] is the default value. *)
Definition _check_value_status (reg : live_registry) (root : Z)
    (sub_key : string) (value_name : option string) (expected_value : reg_value)
  : M value_status :=
  read <- match value_name with
          | None =>
              call (EvQueryValue root sub_key)
                match QueryValue reg root sub_key with
                | Found s => Found (PStr s, REG_SZ)
                | NotFound => NotFound
                | OtherError e => OtherError e
                end
          | Some name =>
              call (EvQueryValueEx root sub_key name)
                (QueryValueEx reg root sub_key name)
          end ;;
  match read with
  | Found (actual_value, reg_type) =>
      let actual_dict :=
        mk_value (Some (reg_type_name reg_type)) (Some actual_value) None None in
      if is_delete expected_value then
        ret (mk_value_status ShouldNotExist expected_value (Some actual_dict) None)
      else if _compare_values expected_value actual_dict then
        ret (mk_value_status Match expected_value (Some actual_dict) None)
      else
        ret (mk_value_status Different expected_value (Some actual_dict) None)
  | NotFound =>
      if is_delete expected_value then
        ret (mk_value_status CorrectlyDeleted expected_value None None)
      else
        ret (mk_value_status Missing expected_value None None)
  | OtherError e =>
      ret (mk_value_status Missing expected_value None (Some e))
  end.

(** [if key_data.get('default_value'):] holds for a dictionary with at
    least one key. *)
Definition nonempty_value (v : reg_value) : bool :=
  match v_type v, v_data v, v_error v, v_action v with
  | None, None, None, None => false
  | _, _, _, _ => true
  end.

Definition declared_default (key_data : key_data) : option reg_value :=
  match default_value key_data with
  | Some dv => if nonempty_value dv then Some dv else None
  | None => None
  end.

Fixpoint check_named (reg : live_registry) (root : Z) (sub_key : string)
    (vs : dict reg_value) (acc : dict value_status) : M (dict value_status) :=
  match vs with
  | [] => ret acc
  | (value_name, expected_value) :: rest =>
      value_status <-
        _check_value_status reg root sub_key (Some value_name) expected_value ;;
      check_named reg root sub_key rest (dict_set acc value_name value_status)
  end.

Fixpoint missing_named (vs : dict reg_value) (acc : dict value_status)
  : dict value_status :=
  match vs with
  | [] => acc
  | (value_name, expected_value) :: rest =>
      missing_named rest
        (dict_set acc value_name
           (mk_value_status Missing expected_value None None))
  end.

Definition _check_key_status (reg : live_registry) (key_path : string)
    (key_data : key_data) : M key_status :=
  let '(root_key, sub_key) := _parse_key_path key_path in
  if no_root root_key then
    ret (mk_key_status false None None []
           (Some [ungueltig ++ "er Key-Pfad: " ++ key_path]))
  else
    let root := match root_key with Some h => h | None => 0%Z end in
    opened <- call (EvOpenKey root sub_key) (OpenKey reg root sub_key) ;;
    match opened with
    | Found _ =>
        with_default <-
          match declared_default key_data with
          | Some dv =>
              default_status <- _check_value_status reg root sub_key None dv ;;
              ret (dict_set [] "@default" default_status)
          | None => ret []
          end ;;
        vals <- check_named reg root sub_key (values key_data) with_default ;;
        ret (mk_key_status true None None vals (Some []))
    | NotFound =>
        let with_default :=
          match declared_default key_data with
          | Some dv =>
              dict_set [] "@default" (mk_value_status Missing dv None None)
          | None => []
          end in
        ret (mk_key_status false None None
               (missing_named (values key_data) with_default) (Some []))
    | OtherError e =>
        ret (mk_key_status false None None []
               (Some ["Fehler beim Pr" ++ String u_umlaut "fen des Keys: " ++ e]))
    end.

Definition _key_exists (reg : live_registry) (key_path : string) : M bool :=
  let '(root_key, sub_key) := _parse_key_path key_path in
  if no_root root_key then ret false
  else
    let root := match root_key with Some h => h | None => 0%Z end in
    opened <- call (EvOpenKey root sub_key) (OpenKey reg root sub_key) ;;
    match opened with
    | Found _ => ret true
    | _ => ret false
    end.

(** [summary[k] += 1]; the seven counters are always present. *)
Definition bump (s : dict Z) (k : string) : dict Z :=
  match dict_get s k with
  | Some n => dict_set s k (n + 1)%Z
  | None => s
  end.

Definition count_value (s : dict Z) (value_status : value_status) : dict Z :=
  let s := bump s "total_values" in
  match vs_status value_status with
  | Match => bump s "matching_values"
  | Different => bump s "different_values"
  | _ => bump s "missing_values"
  end.

Definition count_key (s : dict Z) (key_status : key_status) : dict Z :=
  let s := bump s "total_keys" in
  let s := if ks_exists key_status then bump s "active_keys"
           else bump s "missing_keys" in
  fold_left count_value (dict_values (ks_values key_status)) s.

Definition summary0 : dict Z :=
  [ ("total_keys", 0); ("active_keys", 0); ("missing_keys", 0);
    ("total_values", 0); ("matching_values", 0); ("different_values", 0);
    ("missing_values", 0) ]%Z.

(** [summary.get(k, 0)] *)
Definition get0 (s : dict Z) (k : string) : Z :=
  match dict_get s k with Some n => n | None => 0%Z end.

(** [_calculate_overall_status]; the argument is
    [status_result.get('summary', {})], all that the function reads. *)
Definition _calculate_overall_status (summary : dict Z) : overall :=
  let total_values := get0 summary "total_values" in
  let matching_values := get0 summary "matching_values" in
  if (total_values =? 0)%Z then unknown
  else if (matching_values =? total_values)%Z then all_active
  else if (matching_values =? 0)%Z then all_inactive
  else partial.

(** The first loop of [check_file_status]. *)
Fixpoint check_keys (reg : live_registry) (ks : dict key_data)
    (acc : dict Z * dict key_status) : M (dict Z * dict key_status) :=
  match ks with
  | [] => ret acc
  | (key_path, key_data) :: rest =>
      key_status <- _check_key_status reg key_path key_data ;;
      check_keys reg rest
        (count_key (fst acc) key_status, dict_set (snd acc) key_path key_status)
  end.

(** The second loop of [check_file_status]. *)
Fixpoint check_deleted (reg : live_registry) (ds : list string)
    (acc : dict key_status) : M (dict key_status) :=
  match ds with
  | [] => ret acc
  | deleted_key :: rest =>
      key_exists <- _key_exists reg deleted_key ;;
      check_deleted reg rest
        (dict_set acc deleted_key
           (mk_key_status key_exists (Some true)
              (Some (if key_exists then ShouldNotExist else CorrectlyDeleted))
              [] None))
  end.

(** The body of [check_file_status] from the parsed data on; the file
    name and the time stamp of the report are left out. *)
Definition check_parsed (reg : live_registry) (parsed_data : parsed)
  : M status_result :=
  r <- check_keys reg (keys parsed_data) (summary0, []) ;;
  ks <- check_deleted reg (deleted_keys parsed_data) (snd r) ;;
  ret (mk_status_result (fst r) ks [] (_calculate_overall_status (fst r))).

(** [check_file_status] on a file whose decoded text is [content]. *)
Definition check_file_status (reg : live_registry) (content : string)
  : M status_result :=
  check_parsed reg (parse_content content).

End RegistryStatusChecker.

Import RegistryStatusChecker.

Definition bytes20 : list py_data :=
  map PInt [1;2;3;4;5;6;7;8;9;10;11;12;13;14;15;16;17;18;19;20]%Z.

(* ===================================================================== *)
(** * Notions used in the statements                                      *)
(* ===================================================================== *)

(** The summary dictionary with its seven counters. *)
Definition summary_of (a b c d e f g : Z) : dict Z :=
  [ ("total_keys", a); ("active_keys", b); ("missing_keys", c);
    ("total_values", d); ("matching_values", e); ("different_values", f);
    ("missing_values", g) ].

Definition balanced (s : dict Z) : Prop :=
  exists a b c d e f g,
    s = summary_of a b c d e f g /\ a = (b + c)%Z /\ d = (e + f + g)%Z.

Definition is_match (st : status) : Z :=
  match st with Match => 1 | _ => 0 end.
Definition is_different (st : status) : Z :=
  match st with Different => 1 | _ => 0 end.
Definition is_other (st : status) : Z :=
  match st with Match | Different => 0 | _ => 1 end.

(** A key path that begins with one of the five root names. *)
Definition known_root (key_path : string) : bool :=
  existsb (fun root_name => startswith root_name key_path) (dict_keys root_keys).

(** The report entry of a key whose path has no known root. *)
Definition invalid_path_entry (key_path : string) : key_status :=
  mk_key_status false None None []
    (Some [ungueltig ++ "er Key-Pfad: " ++ key_path]).

(** The entry of a value that is reported missing. *)
Definition missing_entry (expected : reg_value) : value_status :=
  mk_value_status Missing expected None None.

(** Live registries for the scenarios: one in which every key and value
    exists, one in which no key exists, one in which keys exist and values
    do not. *)
Definition reg_all_present : live_registry :=
  mk_registry (fun _ _ => Found tt) (fun _ _ => Found "live")
    (fun _ _ _ => Found (PStr "live", 1%Z)).

Definition reg_no_key : live_registry :=
  mk_registry (fun _ _ => NotFound) (fun _ _ => NotFound)
    (fun _ _ _ => NotFound).

Definition reg_no_value : live_registry :=
  mk_registry (fun _ _ => Found tt) (fun _ _ => NotFound)
    (fun _ _ _ => NotFound).

(** The documents of the scenarios. *)
Definition obsolete_key : string := "HKEY_CURRENT_USER\Software\Obsolete".
Definition test_key : string := "HKEY_CURRENT_USER\Software\Test".

(** A deletion marker for a key, followed by a value line. *)
Definition doc_delete_key : string :=
  "[-" ++ obsolete_key ++ "]" ++ nl ++ q ++ "a" ++ q ++ "=" ++ q ++ "b" ++ q.

(** A key with a deletion marker for the value [Flag]. *)
Definition doc_delete_value : string :=
  "[" ++ test_key ++ "]" ++ nl ++ q ++ "Flag" ++ q ++ "=-".

(** What the parser makes of the marker for a value. *)
Definition delete_value : reg_value :=
  mk_value (Some "DELETE") (Some PNone) None None.

(** A key with one binary value of 20 bytes. *)
Definition doc_binary20 : parsed :=
  mk_parsed None
    [(test_key,
      mk_key [("Blob", mk_value (Some "REG_BINARY") (Some (PList bytes20))
                         None None)] None)] [] [].

(** A key with a default value and a named value called [@default]. *)
Definition doc_default_clash : string :=
  "[" ++ test_key ++ "]" ++ nl ++ "@=" ++ q ++ "d" ++ q ++ nl
  ++ q ++ "@default" ++ q ++ "=" ++ q ++ "n" ++ q.

(** A key with the value [Flag] set to 1, and a registry that has it. *)
Definition doc_flag : string :=
  "[" ++ test_key ++ "]" ++ nl ++ q ++ "Flag" ++ q ++ "=dword:00000001".

Definition reg_flag_1 : live_registry :=
  mk_registry (fun _ _ => Found tt) (fun _ _ => NotFound)
    (fun _ _ value_name =>
       if value_name =? "Flag" then Found (PInt 1, 4%Z) else NotFound).

Definition sz (s : string) : reg_value :=
  mk_value (Some "REG_SZ") (Some (PStr s)) None None.

(** A pass of the loop raises only when the current key is missing from
    the keys, which the loop never lets happen. *)
Definition key_open (st : pstate) : Prop :=
  match current_key st with
  | Some k => dict_mem (keys (result st)) k = true
  | None => True
  end.

(** Strings without a line boundary, without white space, without a
    given character. *)
Definition no_linebreak (s : string) : bool :=
  forallb_str (fun c => negb (is_linebreak c)) s.
Definition no_space (s : string) : bool :=
  forallb_str (fun c => negb (isspace c)) s.
Definition without (c0 : ascii) (s : string) : bool :=
  forallb_str (fun c => negb (c =? c0)%char) s.

(** The escaping of the creator and the unescaping of the parser. *)
Definition escape (s : string) : string :=
  replace (str1 dquote) (String backslash (str1 dquote)) s.
Definition unescape (s : string) : string :=
  replace (String backslash (str1 dquote)) (str1 dquote) s.

(** The characters of a formatted hexadecimal number. *)
Definition is_lower_hex (c : ascii) : bool :=
  let n := ord c in
  (((48 <=? n) && (n <=? 57)) || ((97 <=? n) && (n <=? 102)))%N.
Definition hex_string (s : string) : bool := forallb_str is_lower_hex s.
Definition hexish (c : ascii) : bool := is_lower_hex c || (c =? "-")%char.

(** A value dictionary with a type and a payload, and a list of integers
    as payload. *)
Definition val (ty : string) (d : py_data) : reg_value :=
  mk_value (Some ty) (Some d) None None.
Definition ints (zs : list Z) : py_data := PList (map PInt zs).

(** What the loop does with a value line: the marker for deletion, or the
    parsed right-hand side. *)
Definition value_of (value_raw : string) : reg_value :=
  if value_raw =? "-" then mk_value (Some "DELETE") (Some PNone) None None
  else _parse_value value_raw.

(** The variables of the loop after a value was stored under the open
    key. *)
Definition store_value (st : pstate) (k : string) (kd : key_data)
    (value_name : string) (v : reg_value) : pstate :=
  mk_pstate
    (set_keys (result st)
       (dict_set (keys (result st)) k
          (mk_key (dict_set (values kd) value_name v) (default_value kd))))
    (Some k) (S (line_number st)).

(** Key paths and value names that a line of the file can carry. *)
Definition key_ok (key_path : string) : bool :=
  negb (key_path =? EmptyString) && without "]" key_path
  && no_linebreak key_path.
Definition name_ok (value_name : string) : bool :=
  without dquote value_name && no_linebreak value_name.

(** A document of one key with one named value, and what the parser is
    to make of the text written for it. *)
Definition header : string := "Windows Registry Editor Version 5.00".
Definition single (key_path value_name : string) (v : reg_value) : parsed :=
  mk_parsed None [(key_path, mk_key [(value_name, v)] None)] [] [].
Definition reparsed (key_path value_name : string) (v : reg_value) : parsed :=
  mk_parsed (Some header) [(key_path, mk_key [(value_name, v)] None)] [] [].

(** [parse(serialize(document))], without title and description. *)
Definition roundtrip (doc : parsed) : option parsed :=
  match _generate_content doc None None EmptyString with
  | Some text => Some (parse_content text)
  | None => None
  end.

(** The text written for one key with one value whose right-hand side is
    [rhs]. *)
Definition text_of (key_path value_name rhs : string) : string :=
  header
  ++ String newline
       (String newline
          (("[" ++ key_path ++ "]")
           ++ String newline
                ((q ++ value_name ++ q ++ "=" ++ rhs)
                 ++ String newline EmptyString))).

(** A multi-string of two strings, as a document of one key. *)
Definition doc_multi_sz : parsed :=
  single test_key "Paths" (val "REG_MULTI_SZ" (PList [PStr "a"; PStr "b"])).



(** A line that is neither blank, a comment or the version header, nor
    matched by any of the patterns for keys and values. *)
Definition is_none {A} (o : option A) : bool :=
  match o with Some _ => false | None => true end.


(** The error entry for a line of unknown format. *)
Definition error_at (n : nat) (line : string) : string :=
  "Zeile " ++ str_of_nat n ++ ": Unbekanntes Format: " ++ line.





(** A key with a line of no known form between its name and a value. *)
Definition flag_line : string := q ++ "Flag" ++ q ++ "=dword:00000001".
Definition doc_garbage : string :=
  "[" ++ test_key ++ "]" ++ nl ++ "garbage line" ++ nl ++ flag_line.

(* ===================================================================== *)
(** * Further functions of the three modules                              *)
(* ===================================================================== *)

(** ** reg_creator.py: [validate_key_path] *)

(** The root names of the creator, with their short forms. *)
Definition creator_root_keys : dict string :=
  [ ("HKEY_CLASSES_ROOT", "HKCR"); ("HKEY_CURRENT_USER", "HKCU");
    ("HKEY_LOCAL_MACHINE", "HKLM"); ("HKEY_USERS", "HKU");
    ("HKEY_CURRENT_CONFIG", "HKCC") ].

Definition validate_key_path (key_path : string) : bool :=
  if key_path =? EmptyString then false
  else existsb (fun root_key => startswith root_key key_path)
         (dict_keys creator_root_keys).

(** ** Notions for the further statements *)

(** Whether the checker finds the key: the path has a known root and the
    registry opens it. *)
Definition key_present (reg : live_registry) (key_path : string) : bool :=
  let '(root_key, sub_key) := _parse_key_path key_path in
  if no_root root_key then false
  else
    match OpenKey reg (match root_key with Some h => h | None => 0%Z end)
            sub_key with
    | Found _ => true
    | _ => false
    end.

(** The report entry of a key that the document marks for deletion. *)
Definition deletion_entry (key_exists : bool) : key_status :=
  mk_key_status key_exists (Some true)
    (Some (if key_exists then ShouldNotExist else CorrectlyDeleted)) [] None.

(** The value dictionary that the checker builds from a live read. *)
Definition live (d : py_data) (reg_type : Z) : reg_value :=
  mk_value (Some (reg_type_name reg_type)) (Some d) None None.

(** The integers of a bytes object. *)
Definition byte_values (b : list Byte.byte) : list Z :=
  map (fun x => Z.of_N (Byte.to_N x)) b.

(** The reads that the checker makes under an opened key, in order. *)
Definition reads_of (root : Z) (sub_key : string) (kd : key_data)
  : list event :=
  List.app
    (match declared_default kd with
     | Some _ => [EvQueryValue root sub_key]
     | None => []
     end)
    (map (EvQueryValueEx root sub_key) (dict_keys (values kd))).

(** The classification of one value, without the record of calls. *)
Definition classify (reg : live_registry) (root : Z) (sub_key : string)
    (value_name : option string) (expected : reg_value) : value_status :=
  fst (_check_value_status reg root sub_key value_name expected []).

(** The event of reading one value. *)
Definition read_event (root : Z) (sub_key : string)
    (value_name : option string) : event :=
  match value_name with
  | None => EvQueryValue root sub_key
  | Some name => EvQueryValueEx root sub_key name
  end.

(** A key of the scenarios with a default value and the value [Flag]. *)
Definition kd_flag : key_data :=
  mk_key [("Flag", val "REG_DWORD" (PInt 1))] (Some (sz "d")).

(** The text that the creator writes for a list of bytes. *)
Definition hex_list (zs : list Z) : string := join "," (map (format_x 2) zs).

(** The loop over the named values of an opened key, as a fold. *)
Definition classify_named (reg : live_registry) (root : Z) (sub_key : string)
    (vs : dict reg_value) (acc : dict value_status) : dict value_status :=
  fold_left
    (fun acc e =>
       dict_set acc (fst e) (classify reg root sub_key (Some (fst e)) (snd e)))
    vs acc.

(** ** Notions for the statements about the parser *)

Definition is_some {A} (o : option A) : bool :=
  match o with Some _ => true | None => false end.

(** A value dictionary as the parser builds it: with ['type'] and
    ['data'], without ['action']. *)
Definition parsed_shape (v : reg_value) : bool :=
  is_some (v_type v) && is_some (v_data v) && is_none (v_action v).

Definition key_parsed_shape (kd : key_data) : bool :=
  forallb parsed_shape (dict_values (values kd))
  && match default_value kd with
     | Some dv => parsed_shape dv
     | None => true
     end.

(** A value entry whose status is not one of the two for deletions. *)
Definition plain_status (vs : value_status) : bool :=
  match vs_status vs with
  | ShouldNotExist | CorrectlyDeleted => false
  | _ => true
  end.

Definition plain_entries (ks : key_status) : bool :=
  forallb plain_status (dict_values (ks_values ks)).

(** A line that is passed over: blank or a comment. *)
Definition passed_over (line : string) : bool :=
  (line =? EmptyString) || startswith ";" line.

Definition is_header (line : string) : bool :=
  negb (passed_over line) && startswith "Windows Registry Editor" line.

(** The last header line of a text, stripped. *)
Definition last_header (lines : list string) : option string :=
  fold_left
    (fun acc raw => if is_header (strip raw) then Some (strip raw) else acc)
    lines None.

(** A line that opens a key. *)
Definition opens_key (line : string) : bool :=
  negb (passed_over line)
  && negb (startswith "Windows Registry Editor" line)
  && is_some (key_pattern line).

(** A line that is reported as an error: not passed over, no header, no
    key line, and, when a key is open, no line of a default or named
    value. *)
Definition reported (in_key : bool) (line : string) : bool :=
  negb (passed_over line)
  && negb (startswith "Windows Registry Editor" line)
  && is_none (key_pattern line)
  && (negb in_key
      || (is_none (default_value_pattern line)
          && is_none (value_pattern line))).

(** The error entries for the lines after line [n], when a key is open
    or not. *)
Fixpoint errors_of (n : nat) (in_key : bool) (lines : list string)
  : list string :=
  match lines with
  | [] => []
  | raw :: rest =>
      let line := strip raw in
      if opens_key line then errors_of (S n) true rest
      else if reported in_key line
           then error_at (S n) line :: errors_of (S n) in_key rest
           else errors_of (S n) in_key rest
  end.

(** Whether a key is open, as the loop has it in [current_key]. *)
Definition key_state (st : pstate) (in_key : bool) : Prop :=
  match current_key st with
  | Some k => k <> EmptyString /\ in_key = true
  | None => in_key = false
  end.

(** Hexadecimal digits in either case, and the number that a string of
    them denotes. *)
Definition is_hex_digit (c : ascii) : bool :=
  match digit_value c with
  | Some d => (d <? 16)%N
  | None => false
  end.
Definition hex_digits (s : string) : bool := forallb_str is_hex_digit s.
Definition hex_number (s : string) : Z := Z.of_N (HexString.Raw.to_N s 0).

(** ** [RegFileParser.get_summary] *)

(** The dictionary that [get_summary] returns; [root_keys] is a set that
    is turned into a list at the end, in an order that is not fixed: the
    statements below speak of its members only. *)
Record parser_summary : Type := mk_summary {
  s_total_keys : Z;
  s_deleted_keys : Z;
  s_total_values : Z;
  s_value_types : dict Z;
  s_errors : Z;
  s_root_keys : list string
}.

(** [value_types[t] = value_types.get(t, 0) + 1] *)
Definition count_type (value_types : dict Z) (value_type : string) : dict Z :=
  dict_set value_types value_type
    (match dict_get value_types value_type with
     | Some n => n
     | None => 0
     end + 1)%Z.

(** [for value_data in key_data['values'].values(): ...]; the subscript
    [value_data['type']] raises [KeyError] without that key. *)
Fixpoint count_types (vs : list reg_value) (value_types : dict Z)
  : option (dict Z) :=
  match vs with
  | [] => Some value_types
  | value_data :: rest =>
      match v_type value_data with
      | Some value_type => count_types rest (count_type value_types value_type)
      | None => None
      end
  end.

(** [if key_data['default_value']:] *)
Definition has_default (kd : key_data) : bool :=
  match default_value kd with
  | Some dv => nonempty_value dv
  | None => false
  end.

(** The body of the loop over the keys, once [key_data['values']] and
    [key_data['default_value']] are read; [None] stands for the
    [KeyError] of [value_data['type']] and [default_value['type']]. *)
Definition summary_key (s : parser_summary) (key_path : string)
    (kd : key_data) : option parser_summary :=
  let root_key := hd EmptyString (split backslash key_path) in
  let roots := ListSet.set_add string_dec root_key (s_root_keys s) in
  let total :=
    (s_total_values s + Z.of_nat (List.length (values kd))
     + (if has_default kd then 1 else 0))%Z in
  match count_types (dict_values (values kd)) (s_value_types s) with
  | None => None
  | Some value_types =>
      let done vt :=
        Some (mk_summary (s_total_keys s) (s_deleted_keys s) total vt
                (s_errors s) roots) in
      if has_default kd then
        match default_value kd with
        | Some dv =>
            match v_type dv with
            | Some value_type => done (count_type value_types value_type)
            | None => None
            end
        | None => done value_types
        end
      else done value_types
  end.

(** The dictionaries that [get_summary] subscripts.  A key that is not
    in a dictionary is [None]; the default value of a key dictionary is
    absent, or the [None] of Python, or a value dictionary.  The key
    ['version'] is not read. *)
Record key_dict : Type := mk_key_dict {
  kd_values : option (dict reg_value);
  kd_default_value : option (option reg_value)
}.

Record document_dict : Type := mk_document_dict {
  dd_keys : option (dict key_dict);
  dd_deleted_keys : option (list string);
  dd_errors : option (list string)
}.

(** The body of the loop with its subscripts [key_data['values']] and
    [key_data['default_value']], which raise [KeyError] for a key
    dictionary without them. *)
Definition summary_key_dict (s : parser_summary) (key_path : string)
    (kd : key_dict) : option parser_summary :=
  match kd_values kd, kd_default_value kd with
  | Some vs, Some dv => summary_key s key_path (mk_key vs dv)
  | _, _ => None
  end.

Fixpoint summary_keys (ks : dict key_dict) (s : parser_summary)
  : option parser_summary :=
  match ks with
  | [] => Some s
  | (key_path, kd) :: rest =>
      match summary_key_dict s key_path kd with
      | Some s' => summary_keys rest s'
      | None => None
      end
  end.

(** [get_summary]; [None] stands for [KeyError], also that of
    [parsed_data['keys']], [parsed_data['deleted_keys']] and
    [parsed_data['errors']]. *)
Definition get_summary (parsed_data : document_dict) : option parser_summary :=
  match dd_keys parsed_data, dd_deleted_keys parsed_data,
        dd_errors parsed_data with
  | Some ks, Some ds, Some es =>
      summary_keys ks
        (mk_summary (Z.of_nat (List.length ks)) (Z.of_nat (List.length ds))
           0 [] (Z.of_nat (List.length es)) [])
  | _, _, _ => None
  end.

(** The dictionary that [parse_content] returns: it is built with all of
    its keys, and every key dictionary with ['values'] and
    ['default_value']. *)
Definition key_dict_of (kd : key_data) : key_dict :=
  mk_key_dict (Some (values kd)) (Some (default_value kd)).
Definition document_dict_of (p : parsed) : document_dict :=
  mk_document_dict
    (Some (map (fun e => (fst e, key_dict_of (snd e))) (keys p)))
    (Some (deleted_keys p)) (Some (errors p)).

(** The dictionary that [create_dword_entry] returns: a key dictionary
    with ['values'] alone, under ['keys'] alone. *)
Definition dword_entry_dict (key_path value_name : string) (value_data : Z)
  : document_dict :=
  mk_document_dict
    (Some [(key_path,
            mk_key_dict
              (Some [(value_name,
                      mk_value (Some "REG_DWORD") (Some (PInt value_data))
                        None None)])
              None)])
    None None.

(** A key dictionary without ['values'] or without ['default_value']. *)
Definition lacks_key (kd : key_dict) : bool :=
  is_none (kd_values kd) || is_none (kd_default_value kd).

(** The values of a key, the default value included when it is set; the
    sum of a list of numbers; the root of a key path. *)
Definition values_of_key (kd : key_data) : Z :=
  (Z.of_nat (List.length (values kd)) + (if has_default kd then 1 else 0))%Z.
Definition sum_Z (l : list Z) : Z := fold_right Z.add 0%Z l.
Definition root_of (key_path : string) : string :=
  hd EmptyString (split backslash key_path).

(** ** The entries that the creator builds *)

(** The dictionaries of [create_simple_string_entry],
    [create_dword_entry], [create_delete_key_entry] and
    [create_delete_value_entry]; the keys that they leave out are read
    with a default by the creator. *)
Definition create_simple_string_entry (key_path value_name value_data : string)
  : parsed :=
  mk_parsed None
    [(key_path,
      mk_key [(value_name,
               mk_value (Some "REG_SZ") (Some (PStr value_data)) None None)]
        None)]
    [] [].

Definition create_dword_entry (key_path value_name : string) (value_data : Z)
  : parsed :=
  mk_parsed None
    [(key_path,
      mk_key [(value_name,
               mk_value (Some "REG_DWORD") (Some (PInt value_data)) None None)]
        None)]
    [] [].

Definition create_delete_key_entry (key_path : string) : parsed :=
  mk_parsed None [] [key_path] [].

Definition create_delete_value_entry (key_path value_name : string) : parsed :=
  mk_parsed None
    [(key_path,
      mk_key [(value_name, mk_value None None None (Some "delete"))] None)]
    [] [].

(** ** Documents that the creator writes and the parser reads back *)

Definition is_int (d : py_data) : bool :=
  match d with PInt _ => true | _ => false end.

(** A value that is written on one line, or on one line followed by a
    blank one: a string without line boundary, a DWORD, a QWORD, binary
    data of at most 16 bytes. *)
Definition plain_value (v : reg_value) : bool :=
  match v with
  | mk_value (Some ty) (Some d) None None =>
      if ty =? "REG_SZ" then
        match d with PStr s => no_linebreak s | _ => false end
      else if (ty =? "REG_DWORD") || (ty =? "REG_QWORD") then is_int d
      else if ty =? "REG_BINARY" then
        match d with
        | PList l => forallb is_int l && (List.length l <=? 16)%nat
        | _ => false
        end
      else false
  | _ => false
  end.

(** The keys of a dictionary are distinct. *)
Fixpoint distinct (l : list string) : bool :=
  match l with
  | [] => true
  | x :: r => negb (existsb (String.eqb x) r) && distinct r
  end.

Definition plain_key (kd : key_data) : bool :=
  distinct (dict_keys (values kd))
  && forallb (fun nv => name_ok (fst nv) && plain_value (snd nv)) (values kd)
  && match default_value kd with
     | Some dv => plain_value dv
     | None => true
     end.

(** A document of such values under key paths and value names that a
    line can carry, without deleted keys. *)
Definition plain_document (doc : parsed) : bool :=
  distinct (dict_keys (keys doc))
  && forallb (fun kk => key_ok (fst kk) && plain_key (snd kk)) (keys doc)
  && match deleted_keys doc with [] => true | _ => false end.

(** The lines of a text whose pieces are joined by line feeds. *)
Definition physical (ls : list string) : list string :=
  flat_map (split newline) ls.

(** What follows the first line of a value: nothing, or a line of two
    blanks. *)
Definition tail_of (two : bool) : string :=
  if two then String newline "  " else EmptyString.
Definition tail_lines (two : bool) : list string :=
  if two then ["  "] else [].

(** ** [RegFileCreator.get_template_data] *)

(** The templates carry neither a default value nor deleted keys; the
    creator reads both with a default. *)
Definition templates : dict parsed :=
  [("disable_windows_defender",
    mk_parsed None
      [("HKEY_LOCAL_MACHINE\SOFTWARE\Policies\Microsoft\Windows Defender",
        mk_key [("DisableAntiSpyware", val "REG_DWORD" (PInt 1))] None)]
      [] []);
   ("hide_desktop_icons",
    mk_parsed None
      [("HKEY_CURRENT_USER\Software\Microsoft\Windows\CurrentVersion\Explorer\Advanced",
        mk_key [("HideIcons", val "REG_DWORD" (PInt 1))] None)]
      [] []);
   ("disable_cortana",
    mk_parsed None
      [("HKEY_LOCAL_MACHINE\SOFTWARE\Policies\Microsoft\Windows\Windows Search",
        mk_key [("AllowCortana", val "REG_DWORD" (PInt 0))] None)]
      [] []);
   ("dark_theme",
    mk_parsed None
      [("HKEY_CURRENT_USER\SOFTWARE\Microsoft\Windows\CurrentVersion\Themes\Personalize",
        mk_key [("AppsUseLightTheme", val "REG_DWORD" (PInt 0));
                ("SystemUsesLightTheme", val "REG_DWORD" (PInt 0))] None)]
      [] [])].

Definition get_template_data (template_name : string) : option parsed :=
  dict_get templates template_name.

(** Title, description and date that stay inside the comment block: no
    line boundary in the title and in the date, and none in the
    description but the line feeds at which the creator splits it. *)
Definition comment_ok (title description : option string) (now : string)
  : bool :=
  match title with Some t => no_linebreak t | None => true end
  && match description with
     | Some d => forallb no_linebreak (split newline d)
     | None => true
     end
  && no_linebreak now.

(** A line that the parser passes over as it stands. *)
Definition quiet (l : string) : bool :=
  no_linebreak l && ((l =? EmptyString) || startswith ";" l).

(** ** [RegFileParser.validate_file] *)

(** What reading the file gives: the file does not exist, [parse_file]
    raises with the message [e], or it decodes the file into a text. *)
Inductive file_read : Type :=
| NoFile
| ReadError (e : string)
| Content (content : string).

Record validation : Type := mk_validation {
  val_valid : bool;
  val_errors : list string;
  val_warnings : list string
}.

Definition a_umlaut : ascii := "228"%char.

Definition dangerous_keys : list string :=
  ["HKEY_LOCAL_MACHINE\SYSTEM";
   "HKEY_LOCAL_MACHINE\SOFTWARE\Microsoft\Windows\CurrentVersion\Run"].

(** [for key_path in parsed_data['keys']: for dangerous in ...] *)
Definition danger_warnings (key_paths : list string) : list string :=
  flat_map
    (fun key_path =>
       flat_map
         (fun dangerous =>
            if startswith dangerous key_path
            then ["Potentiell gef" ++ String a_umlaut "hrlicher Key: "
                  ++ key_path]
            else [])
         dangerous_keys)
    key_paths.

Definition version_warning (parsed_data : parsed) : list string :=
  if truthy (version parsed_data) then []
  else ["Keine g" ++ String u_umlaut "ltige Registry-Version gefunden"].

Definition entries_warning (parsed_data : parsed) : list string :=
  match keys parsed_data, deleted_keys parsed_data with
  | [], [] => ["Keine Registry-Eintr" ++ String a_umlaut "ge gefunden"]
  | _, _ => []
  end.

Definition validate_file (file : file_read) : validation :=
  match file with
  | NoFile => mk_validation false ["Datei existiert nicht"] []
  | ReadError e => mk_validation false ["Validierungsfehler: " ++ e] []
  | Content content =>
      let parsed_data := parse_content content in
      mk_validation true []
        (List.app (errors parsed_data)
           (List.app (version_warning parsed_data)
              (List.app (entries_warning parsed_data)
                 (danger_warnings (dict_keys (keys parsed_data))))))
  end.

(** The text written for a document, with any comment block, is read back
    as the keys of the document under the version line of the creator.
    A default value that the document leaves out and the [None] that the
    parser stores for a key without default line are the same [None] of
    [key_data]. *)
Definition reads_back (doc : parsed) : Prop :=
  forall title description now,
    comment_ok title description now = true ->
    exists text,
      _generate_content doc title description now = Some text
      /\ parse_content text = mk_parsed (Some header) (keys doc) [] [].

(** ** What the counters of a report count *)

(** The value entries of the key entries of a report, and the number of
    them whose status falls under [f]. *)
Definition value_entries (es : list key_status) : list value_status :=
  flat_map (fun ks => dict_values (ks_values ks)) es.
Definition tally (f : status -> Z) (vs : list value_status) : Z :=
  sum_Z (map (fun v => f (vs_status v)) vs).

(** The number of key entries that exist, or do not. *)
Definition keys_found (b : bool) (es : list key_status) : Z :=
  sum_Z (map (fun ks => if Bool.eqb (ks_exists ks) b then 1 else 0)%Z es).

(** The summary that counts the entries [es]: every value entry counts
    once in [total_values] and once in the bucket of its status, which is
    [missing_values] for every status but match and different. *)
Definition summary_of_entries (es : list key_status) : dict Z :=
  summary_of (Z.of_nat (List.length es))
    (keys_found true es) (keys_found false es)
    (Z.of_nat (List.length (value_entries es)))
    (tally is_match (value_entries es))
    (tally is_different (value_entries es))
    (tally is_other (value_entries es)).

(** A registry in which no key can be opened, for a reason other than
    its absence. *)
Definition reg_denied : live_registry :=
  mk_registry (fun _ _ => OtherError "denied") (fun _ _ => OtherError "denied")
    (fun _ _ _ => OtherError "denied").

(** ** Value lines with a malformed right-hand side *)




(** ** The literals that [int(text, 16)] reads *)






(* ===================================================================== *)
(** * Properties                                                          *)
(* ===================================================================== *)

(** ** The models on small inputs *)

Example splitlines_ex :
  splitlines ("a" ++ str1 "013"%char ++ str1 newline ++ "b" ++ str1 newline)
  = ["a"; "b"].
Proof. reflexivity. Qed.

Example format_x_ex :
  format_x 8 255 = "000000ff" /\ format_x 8 (-1) = "-0000001"
  /\ format_x 2 10 = "0a" /\ format_x 2 4096 = "1000".
Proof. repeat split; reflexivity. Qed.

Example int_of_str_ex :
  int_of_str 16 "000000ff" = Some 255%Z
  /\ int_of_str 16 " 0x_1F " = Some 31%Z
  /\ int_of_str 16 "-0000001" = Some (-1)%Z
  /\ int_of_str 16 "zz" = None
  /\ int_of_str 16 "" = None
  /\ int_of_str 16 "1__0" = None
  /\ int_of_str 10 "0x10" = None.
Proof. repeat split; reflexivity. Qed.

Example repr_ex :
  repr "zz" = String squote ("zz" ++ str1 squote)
  /\ int_error 16 "zz"
     = "invalid literal for int() with base 16: "
       ++ String squote ("zz" ++ str1 squote).
Proof. split; reflexivity. Qed.

Example parse_ex1 :
  parse_content
    (header ++ nl ++ nl
     ++ "[" ++ test_key ++ "]" ++ nl
     ++ q ++ "Flag" ++ q ++ "=dword:00000001" ++ nl
     ++ "@=" ++ q ++ "x" ++ q ++ nl
     ++ "garbage line" ++ nl
     ++ q ++ "Old" ++ q ++ "=-" ++ nl
     ++ q ++ "B" ++ q ++ "=hex(7):61,00,00,00" ++ nl)
  = mk_parsed (Some header)
      [(test_key,
        mk_key
          [("Flag", val "REG_DWORD" (PInt 1));
           ("Old", delete_value);
           ("B", val "REG_MULTI_SZ" (ints [97; 0; 0; 0]%Z))]
          (Some (sz "x")))]
      []
      ["Zeile 6: Unbekanntes Format: garbage line"].
Proof. vm_compute. reflexivity. Qed.

Example format_binary20 :
  _format_value (val "REG_BINARY" (PList bytes20))
  = Some ("hex:01,02,03,04,05,06,07,08,09,0a,0b,0c,0d,0e,0f,10," ++ bs ++ nl
          ++ "  11,12,13,14").
Proof. vm_compute. reflexivity. Qed.

Example format_multi_sz :
  _format_value (val "REG_MULTI_SZ" (PList [PStr "a"; PStr "b"]))
  = Some "hex(7):61,00,00,00,62,00,00,00,00,00".
Proof. vm_compute. reflexivity. Qed.

(** The key of the document is missing in the registry. *)
Example scenario_key_missing :
  fst (run (check_file_status reg_no_key doc_flag))
  = mk_status_result
      (summary_of 1 0 1 1 0 0 1)
      [(test_key,
        mk_key_status false None None
          [("Flag", missing_entry (val "REG_DWORD" (PInt 1)))] (Some []))]
      [] all_inactive.
Proof. vm_compute. reflexivity. Qed.

(** The registry holds the value of the document. *)
Example scenario_value_matches :
  let r := fst (run (check_file_status reg_flag_1 doc_flag)) in
  summary r = summary_of 1 1 0 1 1 0 0 /\ overall_status r = all_active.
Proof. split; vm_compute; reflexivity. Qed.

(** ** Dictionaries *)

Section DictFacts.
Context {V : Type}.
Implicit Types (d : dict V) (k : string) (v : V).

Lemma dict_get_set_eq d k v : dict_get (dict_set d k v) k = Some v.
Proof.
  induction d as [|[k' v'] d IH]; simpl.
  - now rewrite String.eqb_refl.
  - destruct (String.eqb_spec k' k) as [->|Hne]; simpl.
    + now rewrite String.eqb_refl.
    + apply String.eqb_neq in Hne. now rewrite Hne.
Qed.

Lemma dict_get_set_neq d k k' v :
  k <> k' -> dict_get (dict_set d k v) k' = dict_get d k'.
Proof.
  intros Hne. induction d as [|[k0 v0] d IH]; simpl.
  - apply String.eqb_neq in Hne. now rewrite Hne.
  - destruct (String.eqb_spec k0 k) as [->|Hne0]; simpl.
    + apply String.eqb_neq in Hne. now rewrite Hne.
    + now rewrite IH.
Qed.

Lemma dict_mem_set d k k' v :
  dict_mem d k' = true -> dict_mem (dict_set d k v) k' = true.
Proof.
  unfold dict_mem. destruct (string_dec k k') as [->|Hne].
  - now rewrite dict_get_set_eq.
  - now rewrite dict_get_set_neq.
Qed.

Lemma dict_mem_set_eq d k v : dict_mem (dict_set d k v) k = true.
Proof. unfold dict_mem. now rewrite dict_get_set_eq. Qed.

End DictFacts.

(** ** Overall status *)

(** C5: the overall status is a function of the summary alone: it is
    [unknown] when [total_values] is 0, else [all_active] when
    [matching_values] equals [total_values], else [all_inactive] when
    [matching_values] is 0, else [partial]. *)
Theorem overall_status_derivation (s : dict Z) :
  let total_values := get0 s "total_values" in
  let matching_values := get0 s "matching_values" in
  (total_values = 0%Z -> _calculate_overall_status s = unknown)
  /\ (total_values <> 0%Z -> matching_values = total_values ->
      _calculate_overall_status s = all_active)
  /\ (total_values <> 0%Z -> matching_values <> total_values ->
      matching_values = 0%Z -> _calculate_overall_status s = all_inactive)
  /\ (total_values <> 0%Z -> matching_values <> total_values ->
      matching_values <> 0%Z -> _calculate_overall_status s = partial).
Proof.
  cbv zeta. unfold _calculate_overall_status.
  destruct (Z.eqb_spec (get0 s "total_values") 0) as [Ht|Ht];
    destruct (Z.eqb_spec (get0 s "matching_values") (get0 s "total_values"))
      as [Hm|Hm];
    destruct (Z.eqb_spec (get0 s "matching_values") 0) as [Hz|Hz];
    repeat split; intros; congruence.
Qed.

(** The table of the specification. *)
Lemma overall_status_table :
  _calculate_overall_status [("total_values", 0%Z)] = unknown
  /\ _calculate_overall_status
       [("total_values", 4%Z); ("matching_values", 4%Z)] = all_active
  /\ _calculate_overall_status
       [("total_values", 4%Z); ("matching_values", 0%Z)] = all_inactive
  /\ _calculate_overall_status
       [("total_values", 4%Z); ("matching_values", 2%Z)] = partial.
Proof.
  pose proof (overall_status_derivation [("total_values", 0%Z)]) as H0.
  pose proof (overall_status_derivation
                [("total_values", 4%Z); ("matching_values", 4%Z)]) as H1.
  pose proof (overall_status_derivation
                [("total_values", 4%Z); ("matching_values", 0%Z)]) as H2.
  pose proof (overall_status_derivation
                [("total_values", 4%Z); ("matching_values", 2%Z)]) as H3.
  cbv zeta in H0, H1, H2, H3.
  destruct H0 as [H0 _]. destruct H1 as [_ [H1 _]].
  destruct H2 as [_ [_ [H2 _]]]. destruct H3 as [_ [_ [_ H3]]].
  split; [|split; [|split]].
  - apply H0. reflexivity.
  - apply H1; [discriminate | reflexivity].
  - apply H2; [discriminate | discriminate | reflexivity].
  - apply H3; discriminate.
Defined.

(** ** The counters of the summary *)

Lemma count_value_law a b c d e f g (vs : value_status) :
  count_value (summary_of a b c d e f g) vs
  = summary_of a b c (d + 1)
      (e + is_match (vs_status vs))
      (f + is_different (vs_status vs))
      (g + is_other (vs_status vs)).
Proof.
  unfold count_value.
  destruct (vs_status vs); cbn; unfold summary_of;
    rewrite ?Z.add_0_r; reflexivity.
Qed.

Lemma count_value_balanced s vs : balanced s -> balanced (count_value s vs).
Proof.
  intros (a & b & c & d & e & f & g & -> & Hk & Hv).
  rewrite count_value_law.
  do 7 eexists. split; [reflexivity|]. split; [assumption|].
  destruct (vs_status vs); simpl; lia.
Qed.

Lemma fold_count_value_balanced l s :
  balanced s -> balanced (fold_left count_value l s).
Proof.
  revert s. induction l as [|vs l IH]; simpl; intros s Hs; [assumption|].
  apply IH. now apply count_value_balanced.
Qed.

Lemma count_key_balanced s ks : balanced s -> balanced (count_key s ks).
Proof.
  intros (a & b & c & d & e & f & g & -> & Hk & Hv).
  unfold count_key. apply fold_count_value_balanced.
  destruct (ks_exists ks).
  - exists (a + 1)%Z, (b + 1)%Z, c, d, e, f, g.
    split; [reflexivity|]. split; lia.
  - exists (a + 1)%Z, b, (c + 1)%Z, d, e, f, g.
    split; [reflexivity|]. split; lia.
Qed.

Lemma check_keys_balanced reg ks acc log :
  balanced (fst acc) -> balanced (fst (fst (check_keys reg ks acc log))).
Proof.
  revert acc log. induction ks as [|[key_path kd] ks IH]; simpl;
    intros acc log Hb; [assumption|].
  unfold bind.
  destruct (_check_key_status reg key_path kd log) as [key_status log'].
  apply IH. simpl. now apply count_key_balanced.
Qed.

Lemma summary_check_parsed reg doc log :
  summary (fst (check_parsed reg doc log))
  = fst (fst (check_keys reg (keys doc) (summary0, []) log)).
Proof.
  unfold check_parsed, bind, ret.
  destruct (check_keys reg (keys doc) (summary0, []) log) as [r log1].
  destruct (check_deleted reg (deleted_keys doc) (snd r) log1) as [ks log2].
  reflexivity.
Qed.

(** ** Keys without a known root *)

Lemma find_root_unknown roots key_path :
  existsb (fun root_name => startswith root_name key_path) (dict_keys roots)
  = false ->
  find_root roots key_path = (None, key_path).
Proof.
  induction roots as [|[root_name root_handle] roots IH]; simpl; intros H.
  - reflexivity.
  - apply orb_false_iff in H. destruct H as [H1 H2].
    rewrite H1. now apply IH.
Qed.

Lemma check_key_unknown_root reg key_path kd log :
  known_root key_path = false ->
  _check_key_status reg key_path kd log = (invalid_path_entry key_path, log).
Proof.
  intros H. unfold _check_key_status, _parse_key_path.
  rewrite (find_root_unknown root_keys key_path H). reflexivity.
Qed.

Lemma check_keys_step reg key_path kd ks acc log :
  check_keys reg ((key_path, kd) :: ks) acc log
  = let (key_status, log') := _check_key_status reg key_path kd log in
    check_keys reg ks
      (count_key (fst acc) key_status, dict_set (snd acc) key_path key_status)
      log'.
Proof. reflexivity. Qed.

Lemma check_deleted_step reg deleted_key ds acc log :
  check_deleted reg (deleted_key :: ds) acc log
  = let (key_exists, log') := _key_exists reg deleted_key log in
    check_deleted reg ds
      (dict_set acc deleted_key
         (mk_key_status key_exists (Some true)
            (Some (if key_exists then ShouldNotExist else CorrectlyDeleted))
            [] None))
      log'.
Proof. reflexivity. Qed.

Lemma check_keys_unknown_root reg ks key_path :
  known_root key_path = false ->
  forall acc log,
    (In key_path (dict_keys ks) ->
     dict_get (snd (fst (check_keys reg ks acc log))) key_path
     = Some (invalid_path_entry key_path))
    /\ (~ In key_path (dict_keys ks) ->
        dict_get (snd (fst (check_keys reg ks acc log))) key_path
        = dict_get (snd acc) key_path).
Proof.
  intros Hunk. induction ks as [|[k kd] ks IH]; intros acc log.
  - simpl. split; [tauto | reflexivity].
  - rewrite check_keys_step.
    destruct (_check_key_status reg k kd log) as [key_status log'] eqn:Hk.
    destruct (IH (count_key (fst acc) key_status,
                  dict_set (snd acc) k key_status) log') as [IH1 IH2].
    split.
    + intros Hin. destruct (in_dec string_dec key_path (dict_keys ks)) as [Hi|Hi].
      * now apply IH1.
      * destruct Hin as [Heq|Hin]; [|contradiction]. simpl in Heq. subst k.
        rewrite (IH2 Hi). simpl. rewrite dict_get_set_eq.
        rewrite check_key_unknown_root in Hk by assumption.
        now inversion Hk.
    + intros Hni. simpl in Hni.
      rewrite IH2 by tauto. simpl. apply dict_get_set_neq. tauto.
Qed.

Lemma check_keys_mem reg ks k :
  forall acc log,
    dict_mem (snd acc) k = true \/ In k (dict_keys ks) ->
    dict_mem (snd (fst (check_keys reg ks acc log))) k = true.
Proof.
  induction ks as [|[k' kd] ks IH]; intros acc log H.
  - simpl. destruct H as [H|[]]. exact H.
  - rewrite check_keys_step.
    destruct (_check_key_status reg k' kd log) as [key_status log'].
    apply IH. simpl. destruct H as [H|[H|H]].
    + left. now apply dict_mem_set.
    + left. subst. apply dict_mem_set_eq.
    + now right.
Qed.

Lemma check_deleted_other reg ds k :
  ~ In k ds ->
  forall acc log,
    dict_get (fst (check_deleted reg ds acc log)) k = dict_get acc k.
Proof.
  induction ds as [|d ds IH]; intros Hni acc log; [reflexivity|].
  rewrite check_deleted_step.
  destruct (_key_exists reg d log) as [key_exists log'].
  simpl in Hni. rewrite IH by tauto. apply dict_get_set_neq. tauto.
Qed.

Lemma check_deleted_mem reg ds k :
  forall acc log,
    dict_mem acc k = true ->
    dict_mem (fst (check_deleted reg ds acc log)) k = true.
Proof.
  induction ds as [|d ds IH]; intros acc log H; [exact H|].
  rewrite check_deleted_step.
  destruct (_key_exists reg d log) as [key_exists log'].
  apply IH. now apply dict_mem_set.
Qed.

Lemma sr_keys_check_parsed reg doc log :
  sr_keys (fst (check_parsed reg doc log))
  = let r := check_keys reg (keys doc) (summary0, []) log in
    fst (check_deleted reg (deleted_keys doc) (snd (fst r)) (snd r)).
Proof.
  unfold check_parsed, bind, ret.
  destruct (check_keys reg (keys doc) (summary0, []) log) as [r log1].
  cbv zeta. simpl.
  destruct (check_deleted reg (deleted_keys doc) (snd r) log1) as [ks log2].
  reflexivity.
Qed.

(** C9: a document key whose path begins with none of the known root
    names is reported with [exists = false] and one recorded error, without
    any access to the registry, and every key of the document still gets
    its entry in the report. *)
Theorem unknown_root_reported (reg : live_registry) (doc : parsed)
    (log : list event) (key_path : string) :
  known_root key_path = false ->
  In key_path (dict_keys (keys doc)) ->
  ~ In key_path (deleted_keys doc) ->
  (forall kd log',
      _check_key_status reg key_path kd log'
      = (invalid_path_entry key_path, log'))
  /\ dict_get (sr_keys (fst (check_parsed reg doc log))) key_path
     = Some (invalid_path_entry key_path)
  /\ (forall k, In k (dict_keys (keys doc)) ->
                dict_mem (sr_keys (fst (check_parsed reg doc log))) k = true).
Proof.
  intros Hunk Hin Hnd. split; [|split].
  - intros kd log'. now apply check_key_unknown_root.
  - rewrite sr_keys_check_parsed. cbv zeta.
    rewrite check_deleted_other by assumption.
    now apply (check_keys_unknown_root reg (keys doc) key_path Hunk).
  - intros k Hk. rewrite sr_keys_check_parsed. cbv zeta.
    apply check_deleted_mem. apply check_keys_mem. now right.
Qed.

Lemma unknown_root_reported_witness :
  let doc :=
    mk_parsed None
      [("HKEY_BOGUS\Software\Test", mk_key [] None);
       ("HKEY_CURRENT_USER\Software\Test", mk_key [] None)] [] [] in
  dict_get (sr_keys (fst (check_parsed reg_no_key doc [])))
    "HKEY_BOGUS\Software\Test"
  = Some (invalid_path_entry "HKEY_BOGUS\Software\Test")
  /\ dict_mem (sr_keys (fst (check_parsed reg_no_key doc [])))
       "HKEY_CURRENT_USER\Software\Test" = true.
Proof.
  cbv zeta.
  destruct (unknown_root_reported reg_no_key
              (mk_parsed None
                 [("HKEY_BOGUS\Software\Test", mk_key [] None);
                  ("HKEY_CURRENT_USER\Software\Test", mk_key [] None)] [] [])
              [] "HKEY_BOGUS\Software\Test")
    as [_ [H1 H2]].
  - reflexivity.
  - simpl. left. reflexivity.
  - simpl. intros [].
  - split; [exact H1|]. apply H2. simpl. right. left. reflexivity.
Defined.

(** ** Deletion markers *)

(** Every line that the pattern for deleted keys matches is matched by the
    pattern for ordinary keys, which the loop tries first. *)
Lemma delete_key_pattern_shadowed line d :
  delete_key_pattern line = Some d ->
  key_pattern line = Some (String "-" d).
Proof.
  destruct line as [|c line]; [discriminate|].
  destruct (ascii_dec c "[") as [->|Hc].
  2:{ intros H. exfalso. revert H.
      destruct c as [[] [] [] [] [] [] [] []]; try discriminate.
      now elim Hc. }
  destruct line as [|c line]; [discriminate|].
  destruct (ascii_dec c "-") as [->|Hc].
  2:{ intros H. exfalso. revert H.
      destruct c as [[] [] [] [] [] [] [] []]; try discriminate.
      now elim Hc. }
  cbn [delete_key_pattern key_pattern].
  change (span (fun c => negb (c =? "]")%char) (String "-" line))
    with (let (a, b) := span (fun c => negb (c =? "]")%char) line in
          (String "-" a, b)).
  destruct (span (fun c => negb (c =? "]")%char) line) as [body tl].
  destruct body as [|b body]; [discriminate|].
  destruct tl as [|t tl]; [discriminate|].
  destruct (ascii_dec t "]") as [->|Ht].
  2:{ intros H. exfalso. revert H.
      destruct t as [[] [] [] [] [] [] [] []]; try discriminate.
      now elim Ht. }
  destruct (at_end tl); [|discriminate].
  intros H. injection H as <-. reflexivity.
Qed.

Lemma parse_line_deleted st raw st' :
  parse_line st raw = Next st' ->
  deleted_keys (result st) = [] -> deleted_keys (result st') = [].
Proof.
  unfold parse_line.
  destruct ((strip raw =? EmptyString) || startswith ";" (strip raw)).
  { intros H; injection H as <-. auto. }
  destruct (startswith "Windows Registry Editor" (strip raw)).
  { intros H; injection H as <-. auto. }
  destruct (key_pattern (strip raw)) as [k|] eqn:Hkey.
  { destruct (dict_mem (keys (result st)) k);
      intros H; injection H as <-; auto. }
  destruct (delete_key_pattern (strip raw)) as [d|] eqn:Hdel.
  { apply delete_key_pattern_shadowed in Hdel. congruence. }
  destruct (current_key st) as [k|].
  2:{ intros H; injection H as <-. auto. }
  destruct (k =? EmptyString).
  { intros H; injection H as <-. auto. }
  destruct (default_value_pattern (strip raw)).
  { destruct (dict_get (keys (result st)) k); [|discriminate].
    intros H; injection H as <-. auto. }
  destruct (value_pattern (strip raw)) as [[value_name value_raw]|].
  { destruct (dict_get (keys (result st)) k); [|discriminate].
    intros H; injection H as <-. auto. }
  intros H; injection H as <-. auto.
Qed.

Lemma parse_line_next st raw :
  key_open st -> exists st', parse_line st raw = Next st' /\ key_open st'.
Proof.
  unfold key_open, parse_line. intros Hopen.
  destruct ((strip raw =? EmptyString) || startswith ";" (strip raw)).
  { eexists; split; [reflexivity|]. exact Hopen. }
  destruct (startswith "Windows Registry Editor" (strip raw)).
  { eexists; split; [reflexivity|]. exact Hopen. }
  destruct (key_pattern (strip raw)) as [k|].
  { destruct (dict_mem (keys (result st)) k) eqn:Hm;
      (eexists; split; [reflexivity|]); simpl.
    - exact Hm.
    - apply dict_mem_set_eq. }
  destruct (delete_key_pattern (strip raw)) as [d|].
  { eexists; split; [reflexivity|]. exact Hopen. }
  revert Hopen.
  destruct (current_key st) as [k|]; intros Hopen.
  2:{ eexists; split; [reflexivity|]. exact I. }
  destruct (k =? EmptyString).
  { eexists; split; [reflexivity|]. exact Hopen. }
  pose proof Hopen as Hget. unfold dict_mem in Hget.
  destruct (dict_get (keys (result st)) k) as [kd|]; [|discriminate].
  destruct (default_value_pattern (strip raw)).
  { eexists; split; [reflexivity|]. simpl. apply dict_mem_set_eq. }
  destruct (value_pattern (strip raw)) as [[value_name value_raw]|].
  { eexists; split; [reflexivity|]. simpl. apply dict_mem_set_eq. }
  eexists; split; [reflexivity|]. exact Hopen.
Qed.

Lemma steps_next lines :
  forall st, key_open st ->
  exists st', steps st lines = Next st' /\ key_open st'
              /\ line_number st' = line_number st + List.length lines.
Proof.
  induction lines as [|raw lines IH]; intros st Hopen.
  - exists st. simpl. repeat split; auto.
  - destruct (parse_line_next st raw Hopen) as (st1 & H1 & Hopen1).
    destruct (IH st1 Hopen1) as (st' & H' & Hopen' & Hn).
    exists st'. simpl. rewrite H1. repeat split; auto.
    rewrite Hn. clear - H1. unfold parse_line in H1.
    assert (line_number st1 = S (line_number st)); [|lia].
    repeat match type of H1 with
           | context [if ?b then _ else _] => destruct b
           | context [match ?x with _ => _ end] => destruct x
           end;
      try discriminate; injection H1 as <-; reflexivity.
Qed.

Lemma steps_deleted lines :
  forall st st', steps st lines = Next st' ->
  deleted_keys (result st) = [] -> deleted_keys (result st') = [].
Proof.
  induction lines as [|raw lines IH]; simpl; intros st st' H Hd.
  - injection H as <-. exact Hd.
  - destruct (parse_line st raw) as [st1|st1 e] eqn:H1; [|discriminate].
    apply (IH st1 st' H). now apply (parse_line_deleted st raw).
Qed.

Lemma initial_key_open : key_open initial.
Proof. exact I. Qed.

(** The list of deleted keys of a parsed document is always empty. *)
Lemma deleted_keys_always_empty content :
  deleted_keys (parse_content content) = [].
Proof.
  unfold parse_content, parse_lines.
  destruct (steps_next (splitlines content) initial initial_key_open)
    as (st' & H & _).
  rewrite H. now apply (steps_deleted _ _ _ H).
Qed.

(** A value line before any key line is reported as an error. *)
Example value_line_without_key :
  parse_content (q ++ "a" ++ q ++ "=" ++ q ++ "b" ++ q)
  = mk_parsed None [] []
      [error_at 1 (q ++ "a" ++ q ++ "=" ++ q ++ "b" ++ q)].
Proof. vm_compute. reflexivity. Qed.

(** C1: a line [[-KEY_PATH]] is matched by the pattern for ordinary keys
    before the pattern for deleted keys is tried, so the list of deleted
    keys stays empty for every text.  On
    [[-HKEY_CURRENT_USER\Software\Obsolete]] the parser opens an ordinary
    key whose path begins with the minus sign, the value line that follows
    is attached to that key, and the check against a registry in which
    every key exists reports the path as invalid, with no deletion
    entry. *)
Theorem delete_key_marker_parsed_as_key :
  (forall line d,
      delete_key_pattern line = Some d ->
      key_pattern line = Some (String "-" d))
  /\ (forall content, deleted_keys (parse_content content) = [])
  /\ parse_content doc_delete_key
     = mk_parsed None
         [("-" ++ obsolete_key, mk_key [("a", sz "b")] None)] [] []
  /\ sr_keys (fst (run (check_file_status reg_all_present doc_delete_key)))
     = [("-" ++ obsolete_key, invalid_path_entry ("-" ++ obsolete_key))].
Proof.
  split; [exact delete_key_pattern_shadowed|].
  split; [exact deleted_keys_always_empty|].
  split; vm_compute; reflexivity.
Qed.

(** ** Multi-line binary values *)

(** C3: the creator writes a binary value of 20 bytes on two lines, the
    first ending in a backslash; the parser reads only the 16 bytes of the
    first line and reports the second line as an error. *)
Theorem binary20_not_reparsed :
  _generate_content doc_binary20 None None EmptyString
  = Some ("Windows Registry Editor Version 5.00" ++ nl ++ nl
          ++ "[" ++ test_key ++ "]" ++ nl
          ++ q ++ "Blob" ++ q
          ++ "=hex:01,02,03,04,05,06,07,08,09,0a,0b,0c,0d,0e,0f,10," ++ bs ++ nl
          ++ "  11,12,13,14" ++ nl)
  /\ (forall text,
        _generate_content doc_binary20 None None EmptyString = Some text ->
        parse_content text
        = mk_parsed (Some "Windows Registry Editor Version 5.00")
            [(test_key,
              mk_key [("Blob", mk_value (Some "REG_BINARY")
                                 (Some (PList (firstn 16 bytes20))) None None)]
                None)]
            []
            ["Zeile 5: Unbekanntes Format: 11,12,13,14"]).
Proof.
  split; [vm_compute; reflexivity|].
  intros text H. vm_compute in H. injection H as <-. vm_compute. reflexivity.
Qed.

(** ** Deletion markers for values *)

Lemma reg_type_name_not_delete reg_type :
  option_string_eqb (Some "DELETE") (Some (reg_type_name reg_type)) = false.
Proof.
  unfold reg_type_name, reg_types, lookup_type.
  repeat match goal with
         | |- context [(?n =? reg_type)%Z] =>
             destruct (n =? reg_type)%Z; [reflexivity|]
         end.
  reflexivity.
Qed.

(** C4: the parser turns the marker for a value into a value of type
    [DELETE] without an ['action'] key, and the checker looks for the
    action only: such a value is reported [missing] when the live read
    finds nothing and [different] when it finds a value. *)
Theorem delete_value_classification (reg : live_registry) (root : Z)
    (sub_key value_name : string) (log : list event) :
  keys (parse_content doc_delete_value)
  = [(test_key, mk_key [("Flag", delete_value)] None)]
  /\ vs_status
       (fst (_check_value_status reg root sub_key (Some value_name)
               delete_value log))
     = match QueryValueEx reg root sub_key value_name with
       | Found _ => Different
       | NotFound => Missing
       | OtherError _ => Missing
       end.
Proof.
  split; [vm_compute; reflexivity|].
  unfold _check_value_status, bind, call, ret.
  destruct (QueryValueEx reg root sub_key value_name) as [[d t]| |e];
    try reflexivity.
  unfold is_delete, delete_value, _compare_values. cbn [v_action v_type].
  rewrite reg_type_name_not_delete. reflexivity.
Qed.

(** The two scenarios on the level of the report. *)
Example delete_value_report :
  map (fun e => vs_status (snd e))
    (match sr_keys (fst (run (check_file_status reg_no_value doc_delete_value)))
     with
     | [(_, ks)] => ks_values ks
     | _ => []
     end) = [Missing]
  /\ map (fun e => vs_status (snd e))
       (match sr_keys (fst (run (check_file_status reg_all_present
                                   doc_delete_value)))
        with
        | [(_, ks)] => ks_values ks
        | _ => []
        end) = [Different].
Proof. split; vm_compute; reflexivity. Qed.

(** ** Keys that are not found *)

Lemma missing_named_get vs :
  forall acc name,
    (forall v, NoDup (dict_keys vs) -> In (name, v) vs ->
               dict_get (missing_named vs acc) name = Some (missing_entry v))
    /\ (~ In name (dict_keys vs) ->
        dict_get (missing_named vs acc) name = dict_get acc name).
Proof.
  induction vs as [|[n0 v0] vs IH]; intros acc name; simpl.
  - split; [tauto | reflexivity].
  - destruct (IH (dict_set acc n0 (mk_value_status Missing v0 None None)) name)
      as [IH1 IH2].
    split.
    + intros v Hnd [Heq|Hin]; inversion Hnd as [|? ? Hni Hnd']; subst.
      * injection Heq as -> ->. rewrite IH2 by assumption.
        apply dict_get_set_eq.
      * now apply IH1.
    + intros Hni. rewrite IH2 by tauto. apply dict_get_set_neq. tauto.
Qed.

(** When the key cannot be opened, the key is reported as not existing,
    the only call made is the attempt to open it, every named value is
    reported missing, and so is the default value unless a named value
    is called [@default]. *)
Lemma key_not_found_values (reg : live_registry) (key_path : string)
    (kd : key_data) (log : list event) (root : Z) (sub_key : string) :
  _parse_key_path key_path = (Some root, sub_key) ->
  root <> 0%Z ->
  OpenKey reg root sub_key = NotFound ->
  NoDup (dict_keys (values kd)) ->
  let r := _check_key_status reg key_path kd log in
  ks_exists (fst r) = false
  /\ snd r = List.app log [EvOpenKey root sub_key]
  /\ (forall name v, In (name, v) (values kd) ->
        dict_get (ks_values (fst r)) name = Some (missing_entry v))
  /\ (forall dv, declared_default kd = Some dv ->
        ~ In "@default" (dict_keys (values kd)) ->
        dict_get (ks_values (fst r)) "@default" = Some (missing_entry dv)).
Proof.
  intros Hpath Hroot Hopen Hnd. cbv zeta.
  unfold _check_key_status. rewrite Hpath.
  unfold no_root. apply Z.eqb_neq in Hroot. rewrite Hroot.
  unfold bind, call, ret. rewrite Hopen. cbn [fst snd ks_exists ks_values].
  split; [reflexivity|]. split; [reflexivity|]. split.
  - intros name v Hin. now apply missing_named_get.
  - intros dv Hdv Hni. rewrite Hdv.
    destruct (missing_named_get (values kd)
                (dict_set [] "@default" (mk_value_status Missing dv None None))
                "@default") as [_ H2].
    rewrite (H2 Hni). reflexivity.
Qed.

(** C6: for a key that declares a default value and a named value called
    [@default], and that the registry does not have, the report holds one
    entry, that of the named value; the default value is not classified. *)
Theorem default_value_entry_overwritten :
  keys (parse_content doc_default_clash)
  = [(test_key, mk_key [("@default", sz "n")] (Some (sz "d")))]
  /\ sr_keys (fst (run (check_file_status reg_no_key doc_default_clash)))
     = [(test_key,
         mk_key_status false None None
           [("@default", missing_entry (sz "n"))] (Some []))].
Proof. split; vm_compute; reflexivity. Qed.

(** ** Strings *)

Lemma str_app_assoc (a b c : string) : (a ++ b) ++ c = a ++ (b ++ c).
Proof. induction a as [|x a IH]; simpl; [reflexivity | now rewrite IH]. Qed.

Lemma str_app_nil_r (s : string) : s ++ EmptyString = s.
Proof. induction s as [|x s IH]; simpl; [reflexivity | now rewrite IH]. Qed.

Lemma forallb_str_app p (a b : string) :
  forallb_str p (a ++ b) = forallb_str p a && forallb_str p b.
Proof.
  induction a as [|x a IH]; simpl; [reflexivity|].
  rewrite IH. now rewrite andb_assoc.
Qed.

Lemma forallb_str_impl (p p' : ascii -> bool) s :
  (forall c, p c = true -> p' c = true) ->
  forallb_str p s = true -> forallb_str p' s = true.
Proof.
  intros Hpp. induction s as [|x s IH]; simpl; [reflexivity|].
  intros H. apply andb_true_iff in H. destruct H as [H1 H2].
  rewrite (Hpp x H1). now apply IH.
Qed.

Lemma linebreak_is_space c : is_linebreak c = true -> isspace c = true.
Proof.
  destruct c as [[] [] [] [] [] [] [] []]; intros H;
    try reflexivity; discriminate H.
Qed.

Lemma no_space_no_linebreak s : no_space s = true -> no_linebreak s = true.
Proof.
  apply forallb_str_impl. intros c H.
  destruct (is_linebreak c) eqn:E; [|reflexivity].
  apply linebreak_is_space in E. now rewrite E in H.
Qed.

Lemma no_linebreak_without_newline s :
  no_linebreak s = true -> without newline s = true.
Proof.
  apply forallb_str_impl. intros c H.
  destruct (Ascii.eqb_spec c newline) as [->|]; [discriminate | reflexivity].
Qed.

(** *** [strip] *)

Lemma rstrip_app (s t : string) :
  rstrip t <> EmptyString -> rstrip (s ++ t) = s ++ rstrip t.
Proof.
  intros Ht. induction s as [|x s IH]; simpl; [reflexivity|].
  rewrite IH. destruct (s ++ rstrip t) eqn:E; [|reflexivity].
  destruct s; simpl in E; [contradiction | discriminate].
Qed.

Lemma rstrip_no_space s : no_space s = true -> rstrip s = s.
Proof.
  induction s as [|x s IH]; simpl; [reflexivity|].
  intros H. apply andb_true_iff in H. destruct H as [H1 H2].
  rewrite (IH H2). destruct s; [|reflexivity].
  apply negb_true_iff in H1. now rewrite H1.
Qed.

Lemma rstrip_fix_app (s t : string) :
  rstrip t = t -> t <> EmptyString -> rstrip (s ++ t) = s ++ t.
Proof. intros H Hne. rewrite rstrip_app; rewrite H; auto. Qed.

Lemma rstrip_end c (s : string) :
  isspace c = false -> rstrip (s ++ str1 c) = s ++ str1 c.
Proof.
  intros H. apply rstrip_fix_app; [|discriminate]. simpl. now rewrite H.
Qed.

Lemma span_stop p (a : string) c (rest : string) :
  forallb_str p a = true -> p c = false ->
  span p (a ++ String c rest) = (a, String c rest).
Proof.
  intros Ha Hc. induction a as [|x a IH]; simpl.
  - now rewrite Hc.
  - simpl in Ha. apply andb_true_iff in Ha. destruct Ha as [Hx Ha].
    rewrite Hx, (IH Ha). reflexivity.
Qed.

Lemma span_all p (a : string) :
  forallb_str p a = true -> span p a = (a, EmptyString).
Proof.
  intros Ha. induction a as [|x a IH]; simpl; [reflexivity|].
  simpl in Ha. apply andb_true_iff in Ha. destruct Ha as [Hx Ha].
  rewrite Hx, (IH Ha). reflexivity.
Qed.

Lemma not_linebreak_not_cr c :
  is_linebreak c = false -> (c =? "013")%char = false.
Proof.
  intros H. destruct (Ascii.eqb_spec c "013") as [->|]; [discriminate | reflexivity].
Qed.

Lemma splitlines_line (l rest : string) :
  no_linebreak l = true ->
  splitlines (l ++ String newline rest) = l :: splitlines rest.
Proof.
  intros Hl. induction l as [|x l IH].
  - reflexivity.
  - simpl in Hl. apply andb_true_iff in Hl. destruct Hl as [Hx Hl].
    apply negb_true_iff in Hx.
    change ((String x l) ++ String newline rest)
      with (String x (l ++ String newline rest)).
    cbn [splitlines]. rewrite (not_linebreak_not_cr x Hx), Hx, (IH Hl).
    reflexivity.
Qed.

Lemma split_piece sep (a rest : string) :
  without sep a = true ->
  split sep (a ++ String sep rest) = a :: split sep rest.
Proof.
  intros Ha. induction a as [|x a IH].
  - simpl. now rewrite Ascii.eqb_refl.
  - simpl in Ha. apply andb_true_iff in Ha. destruct Ha as [Hx Ha].
    apply negb_true_iff in Hx. simpl. rewrite Hx, (IH Ha). reflexivity.
Qed.

Lemma split_last sep (a : string) :
  without sep a = true -> split sep a = [a].
Proof.
  intros Ha. induction a as [|x a IH]; [reflexivity|].
  simpl in Ha. apply andb_true_iff in Ha. destruct Ha as [Hx Ha].
  apply negb_true_iff in Hx. simpl. rewrite Hx, (IH Ha). reflexivity.
Qed.

Lemma split_join sep (ls : list string) :
  ls <> [] ->
  Forall (fun s => without sep s = true) ls ->
  split sep (join (str1 sep) ls) = ls.
Proof.
  intros Hne Hall. induction Hall as [|a ls Ha Hall IH]; [contradiction|].
  destruct ls as [|b ls].
  - simpl. now apply split_last.
  - change (join (str1 sep) (a :: b :: ls))
      with (a ++ String sep (join (str1 sep) (b :: ls))).
    rewrite split_piece by assumption. rewrite IH; [reflexivity | discriminate].
Qed.

(** *** [endswith], slices, [replace] *)

Lemma endswith_refl (t : string) : endswith t t = true.
Proof. destruct t; cbn [endswith]; now rewrite String.eqb_refl. Qed.

Lemma endswith_app (s t : string) : endswith t (s ++ t) = true.
Proof.
  induction s as [|x s IH].
  - apply endswith_refl.
  - change (String x s ++ t) with (String x (s ++ t)). cbn [endswith].
    rewrite IH. now destruct (String x (s ++ t) =? t).
Qed.

Lemma drop_last_end (s : string) c : drop_last (s ++ str1 c) = s.
Proof.
  induction s as [|x s IH]; [reflexivity|].
  simpl. rewrite IH. destruct s; reflexivity.
Qed.

Lemma prefix_nil (s : string) : String.prefix EmptyString s = true.
Proof. destruct s; reflexivity. Qed.

Lemma prefix_one a b (s : string) :
  String.prefix (str1 a) (String b s) = (b =? a)%char.
Proof.
  unfold str1. cbn [String.prefix].
  destruct (ascii_dec a b) as [<-|Hne].
  - now rewrite prefix_nil, Ascii.eqb_refl.
  - destruct (Ascii.eqb_spec b a) as [->|]; [now elim Hne | reflexivity].
Qed.

Lemma prefix_two a1 a2 b1 b2 (s : string) :
  String.prefix (String a1 (str1 a2)) (String b1 (String b2 s))
  = (b1 =? a1)%char && (b2 =? a2)%char.
Proof.
  cbn [String.prefix]. fold (str1 a2).
  destruct (ascii_dec a1 b1) as [<-|Hne].
  - rewrite Ascii.eqb_refl. apply prefix_one.
  - destruct (Ascii.eqb_spec b1 a1) as [->|]; [now elim Hne | reflexivity].
Qed.

Lemma escape_cons c s :
  escape (String c s)
  = if (c =? dquote)%char then String backslash (String dquote (escape s))
    else String c (escape s).
Proof.
  unfold escape, replace. cbn [replace_go]. rewrite prefix_one.
  destruct (c =? dquote)%char; reflexivity.
Qed.

Lemma escape_head s : String.prefix (str1 dquote) (escape s) = false.
Proof.
  destruct s as [|c s]; [reflexivity|]. rewrite escape_cons.
  destruct (c =? dquote)%char eqn:E; rewrite prefix_one; [reflexivity | exact E].
Qed.

Lemma unescape_escape s : unescape (escape s) = s.
Proof.
  induction s as [|c s IH]; [reflexivity|].
  rewrite escape_cons. destruct (Ascii.eqb_spec c dquote) as [->|Hne].
  - unfold unescape, replace in *. cbn [replace_go]. rewrite prefix_two.
    cbn. now rewrite IH.
  - unfold unescape, replace in *. cbn [replace_go].
    pose proof (escape_head s) as Hh.
    destruct (escape s) as [|y e] eqn:Ee.
    + cbn in IH. subst s. cbn [String.prefix].
      destruct (ascii_dec backslash c); reflexivity.
    + rewrite prefix_two. rewrite prefix_one in Hh. rewrite Hh, andb_false_r.
      now rewrite IH.
Qed.

(** ** Hexadecimal numbers *)

Ltac each_char c := destruct c as [[] [] [] [] [] [] [] []].

Lemma lower_hex_facts c :
  is_lower_hex c = true ->
  (c =? "_")%char = false
  /\ exists d, digit_value c = Some d /\ (d <? 16)%N = true
               /\ HexString.ascii_to_digit c = Some d.
Proof.
  each_char c; intros H; try discriminate H;
    (split; [reflexivity|]); eexists; repeat split.
Qed.

Lemma hexish_facts c :
  hexish c = true ->
  isspace c = false /\ (c =? ",")%char = false /\ c <> backslash.
Proof.
  each_char c; intros H; try discriminate H; repeat split; discriminate.
Qed.

Lemma scan_hex (s : string) :
  forall acc any,
    hex_string s = true ->
    scan_digits 16 false acc any s
    = Some (HexString.Raw.to_N s acc,
            any || negb (s =? EmptyString), EmptyString).
Proof.
  induction s as [|c s IH]; intros acc any H.
  - simpl. now rewrite orb_false_r.
  - simpl in H. apply andb_true_iff in H. destruct H as [Hc Hs].
    destruct (lower_hex_facts c Hc) as (Hus & d & Hd & Hlt & Hlib).
    cbn [scan_digits HexString.Raw.to_N]. rewrite Hus, Hd, Hlt, Hlib.
    rewrite (IH _ _ Hs). rewrite orb_true_r.
    now rewrite N.mul_comm, N.add_comm.
Qed.

Lemma int_of_hex_string (s : string) :
  hex_string s = true -> s <> EmptyString ->
  int_of_str 16 s = Some (Z.of_N (HexString.Raw.to_N s 0)).
Proof.
  intros H Hne. destruct s as [|c s]; [contradiction|].
  pose proof (scan_hex (String c s) 0%N false H) as Hscan.
  unfold int_of_str, int_of_text.
  simpl in H. apply andb_true_iff in H. destruct H as [Hc Hs].
  destruct s as [|x s].
  - revert Hscan. each_char c; try discriminate Hc; intros Hscan;
      cbn [skip_space int_space ord N_of_ascii N_of_digits];
      cbv beta iota; try (rewrite Hscan; reflexivity);
      cbn; reflexivity.
  - simpl in Hs. apply andb_true_iff in Hs. destruct Hs as [Hx Hs].
    revert Hscan. each_char c; try discriminate Hc; intros Hscan;
      try (cbn -[scan_digits]; cbn -[scan_digits] in Hscan;
           rewrite Hscan; reflexivity).
    revert Hscan. each_char x; try discriminate Hx; intros Hscan;
      cbn -[scan_digits]; cbn -[scan_digits] in Hscan;
      rewrite Hscan; reflexivity.
Qed.

Lemma int_of_neg_hex_string (s : string) :
  hex_string s = true -> s <> EmptyString ->
  int_of_str 16 (String "-" s) = Some (- Z.of_N (HexString.Raw.to_N s 0))%Z.
Proof.
  intros H Hne. destruct s as [|c s]; [contradiction|].
  pose proof (scan_hex (String c s) 0%N false H) as Hscan.
  unfold int_of_str, int_of_text.
  simpl in H. apply andb_true_iff in H. destruct H as [Hc Hs].
  destruct s as [|x s].
  - revert Hscan. each_char c; try discriminate Hc; intros Hscan;
      cbn; reflexivity.
  - simpl in Hs. apply andb_true_iff in Hs. destruct Hs as [Hx Hs].
    revert Hscan. each_char c; try discriminate Hc; intros Hscan;
      try (cbn -[scan_digits]; cbn -[scan_digits] in Hscan;
           rewrite Hscan; reflexivity).
    revert Hscan. each_char x; try discriminate Hx; intros Hscan;
      cbn -[scan_digits]; cbn -[scan_digits] in Hscan;
      rewrite Hscan; reflexivity.
Qed.

Lemma hex_string_of_pos_bounded (n : nat) :
  forall p rest,
    Pos.size_nat p <= n -> hex_string rest = true ->
    hex_string (HexString.Raw.of_pos p rest) = true.
Proof.
  induction n as [|n IH]; intros p rest Hn Hr.
  - destruct p; simpl in Hn; lia.
  - do 4 try destruct p as [p|p|];
      cbn [HexString.Raw.of_pos];
      try (apply IH; [simpl in Hn; lia | cbn; exact Hr]);
      cbn; exact Hr.
Qed.

Lemma hex_string_of_pos p rest :
  hex_string rest = true -> hex_string (HexString.Raw.of_pos p rest) = true.
Proof. apply (hex_string_of_pos_bounded (Pos.size_nat p)). lia. Qed.

Lemma of_pos_nonempty p : HexString.Raw.of_pos p EmptyString <> EmptyString.
Proof.
  intros H. pose proof (HexString.Raw.to_N_of_pos p EmptyString 0) as E.
  rewrite H in E. discriminate E.
Qed.

Lemma hex_string_zeros k : hex_string (zeros k) = true.
Proof. induction k; [reflexivity | exact IHk]. Qed.

Lemma to_N_zeros k (s : string) :
  HexString.Raw.to_N (zeros k ++ s) 0 = HexString.Raw.to_N s 0.
Proof. induction k; [reflexivity | exact IHk]. Qed.

Lemma hex_string_hex_of_N n : hex_string (hex_of_N n) = true.
Proof.
  destruct n; [reflexivity|]. now apply hex_string_of_pos.
Qed.

Lemma hex_of_N_nonempty n : hex_of_N n <> EmptyString.
Proof. destruct n; [discriminate | apply of_pos_nonempty]. Qed.

Lemma to_N_hex_of_N n : HexString.Raw.to_N (hex_of_N n) 0 = n.
Proof.
  destruct n; [reflexivity|]. apply (HexString.Raw.to_N_of_pos p EmptyString 0).
Qed.

Lemma padded_nonempty k (d : string) :
  d <> EmptyString -> zeros k ++ d <> EmptyString.
Proof. destruct k; simpl; [auto | discriminate]. Qed.

Lemma hex_string_padded k n : hex_string (zeros k ++ hex_of_N n) = true.
Proof.
  unfold hex_string. rewrite forallb_str_app.
  fold (hex_string (zeros k)). fold (hex_string (hex_of_N n)).
  now rewrite hex_string_zeros, hex_string_hex_of_N.
Qed.

(** A formatted number reads back as itself. *)
Lemma int_of_format_x w z : int_of_str 16 (format_x w z) = Some z.
Proof.
  destruct z as [|p|p]; unfold format_x.
  - rewrite int_of_hex_string.
    + now rewrite to_N_zeros, to_N_hex_of_N.
    + apply hex_string_padded.
    + apply padded_nonempty, hex_of_N_nonempty.
  - rewrite int_of_hex_string.
    + now rewrite to_N_zeros, to_N_hex_of_N.
    + apply hex_string_padded.
    + apply padded_nonempty, hex_of_N_nonempty.
  - rewrite int_of_neg_hex_string.
    + now rewrite to_N_zeros, to_N_hex_of_N.
    + apply hex_string_padded.
    + apply padded_nonempty, hex_of_N_nonempty.
Qed.

Lemma hex_is_hexish s : hex_string s = true -> forallb_str hexish s = true.
Proof.
  apply forallb_str_impl. intros c H. unfold hexish. now rewrite H.
Qed.

Lemma format_x_hexish w z : forallb_str hexish (format_x w z) = true.
Proof.
  destruct z as [|p|p]; unfold format_x;
    try (apply hex_is_hexish, hex_string_padded).
  cbn [forallb_str]. rewrite (hex_is_hexish _ (hex_string_padded _ _)).
  reflexivity.
Qed.

Lemma format_x_nonempty w z : format_x w z <> EmptyString.
Proof.
  destruct z as [|p|p]; unfold format_x;
    try (apply padded_nonempty, hex_of_N_nonempty); discriminate.
Qed.

Lemma hexish_no_space s : forallb_str hexish s = true -> no_space s = true.
Proof.
  apply forallb_str_impl. intros c H.
  destruct (hexish_facts c H) as [H1 _]. now rewrite H1.
Qed.

Lemma hexish_without_comma s :
  forallb_str hexish s = true -> without "," s = true.
Proof.
  apply forallb_str_impl. intros c H.
  destruct (hexish_facts c H) as (_ & H2 & _). now rewrite H2.
Qed.

Lemma lstrip_no_space s : no_space s = true -> lstrip s = s.
Proof.
  destruct s as [|c s]; [reflexivity|]. simpl. intros H.
  apply andb_true_iff in H. destruct H as [H _].
  apply negb_true_iff in H. now rewrite H.
Qed.

Lemma strip_no_space s : no_space s = true -> strip s = s.
Proof.
  intros H. unfold strip. rewrite (lstrip_no_space s H).
  now apply rstrip_no_space.
Qed.

(** The loop over the pairs reads back a list of formatted numbers. *)
Lemma parse_hex_pairs_format (zs : list Z) :
  parse_hex_pairs (map (format_x 2) zs) = inr zs.
Proof.
  induction zs as [|z zs IH]; [reflexivity|].
  cbn [map parse_hex_pairs].
  pose proof (format_x_hexish 2 z) as Hh.
  rewrite (strip_no_space _ (hexish_no_space _ Hh)).
  destruct (String.eqb_spec (format_x 2 z) EmptyString) as [E|_].
  { now elim (format_x_nonempty 2 z). }
  destruct (String.eqb_spec (format_x 2 z) (str1 backslash)) as [E|_].
  { exfalso. rewrite E in Hh. discriminate Hh. }
  cbn [negb andb]. rewrite int_of_format_x, IH. reflexivity.
Qed.

Lemma split_join_format (zs : list Z) :
  zs <> [] ->
  split "," (join "," (map (format_x 2) zs)) = map (format_x 2) zs.
Proof.
  intros Hne. apply (split_join ","%char).
  - destruct zs; [contradiction | discriminate].
  - apply Forall_forall. intros s Hin. apply in_map_iff in Hin.
    destruct Hin as (z & <- & _).
    apply hexish_without_comma, format_x_hexish.
Qed.

Lemma parse_hex_data (zs : list Z) :
  parse_hex_pairs (split "," (join "," (map (format_x 2) zs))) = inr zs.
Proof.
  destruct zs as [|z zs]; [reflexivity|].
  rewrite split_join_format by discriminate. apply parse_hex_pairs_format.
Qed.

Lemma join_hexish (zs : list Z) :
  forallb_str (fun c => hexish c || (c =? ",")%char)
    (join "," (map (format_x 2) zs)) = true.
Proof.
  induction zs as [|z zs IH]; [reflexivity|].
  assert (Hz : forallb_str (fun c => hexish c || (c =? ",")%char)
                 (format_x 2 z) = true).
  { apply (forallb_str_impl hexish); [|apply format_x_hexish].
    intros c H. now rewrite H. }
  destruct zs as [|z' zs]; [exact Hz|].
  change (join "," (map (format_x 2) (z :: z' :: zs)))
    with (format_x 2 z ++ String "," (join "," (map (format_x 2) (z' :: zs)))).
  rewrite forallb_str_app, Hz. cbn [forallb_str]. rewrite IH. reflexivity.
Qed.

Lemma join_no_space (zs : list Z) :
  no_space (join "," (map (format_x 2) zs)) = true.
Proof.
  apply (forallb_str_impl (fun c => hexish c || (c =? ",")%char));
    [|apply join_hexish].
  intros c H. apply orb_true_iff in H. destruct H as [H|H].
  - destruct (hexish_facts c H) as [H1 _]. now rewrite H1.
  - apply Ascii.eqb_eq in H. subst c. reflexivity.
Qed.

(** ** Right-hand sides *)

Lemma strip_id c (s : string) :
  isspace c = false -> rstrip (String c s) = String c s ->
  strip (String c s) = String c s.
Proof. intros Hc Hr. unfold strip. cbn [lstrip]. now rewrite Hc. Qed.

Lemma rstrip_app_no_space (s t : string) :
  rstrip s = s -> no_space t = true -> rstrip (s ++ t) = s ++ t.
Proof.
  intros Hs Ht. destruct t as [|c t].
  - now rewrite str_app_nil_r.
  - apply rstrip_fix_app; [now apply rstrip_no_space | discriminate].
Qed.

Lemma parse_value_sz s :
  _parse_value (q ++ escape s ++ q) = val "REG_SZ" (PStr s).
Proof.
  unfold _parse_value, q.
  assert (E : strip (str1 dquote ++ escape s ++ str1 dquote)
              = String dquote (escape s ++ str1 dquote)).
  { apply strip_id; [reflexivity|].
    change (String dquote (escape s ++ str1 dquote))
      with ((String dquote (escape s)) ++ str1 dquote).
    now apply rstrip_end. }
  rewrite E. unfold startswith. rewrite prefix_one, Ascii.eqb_refl.
  change (String dquote (escape s ++ str1 dquote))
    with ((String dquote (escape s)) ++ str1 dquote) at 1.
  rewrite endswith_app. cbn [andb].
  unfold slice_1_m1. cbn [drop]. rewrite drop_last_end.
  fold (unescape (escape s)). now rewrite unescape_escape.
Qed.

Lemma strip_tagged (tag t : string) c :
  isspace c = false -> rstrip (String c tag) = String c tag ->
  no_space t = true ->
  strip (String c tag ++ t) = String c tag ++ t.
Proof.
  intros Hc Htag Ht. apply (strip_id c (tag ++ t) Hc).
  change (String c (tag ++ t)) with (String c tag ++ t).
  now apply rstrip_app_no_space.
Qed.

Lemma parse_value_dword z :
  _parse_value ("dword:" ++ format_x 8 z) = val "REG_DWORD" (PInt z).
Proof.
  unfold _parse_value.
  rewrite (strip_tagged "word:" (format_x 8 z) "d");
    [|reflexivity|reflexivity|apply hexish_no_space, format_x_hexish].
  cbn -[format_x int_of_str]. now rewrite prefix_nil, int_of_format_x.
Qed.

Lemma parse_value_qword z :
  _parse_value ("qword:" ++ format_x 16 z) = val "REG_QWORD" (PInt z).
Proof.
  unfold _parse_value.
  rewrite (strip_tagged "word:" (format_x 16 z) "q");
    [|reflexivity|reflexivity|apply hexish_no_space, format_x_hexish].
  cbn -[format_x int_of_str]. now rewrite prefix_nil, int_of_format_x.
Qed.

Lemma parse_value_hex zs :
  _parse_value ("hex:" ++ join "," (map (format_x 2) zs))
  = val "REG_BINARY" (ints zs).
Proof.
  unfold _parse_value.
  rewrite (strip_tagged "ex:" _ "h");
    [|reflexivity|reflexivity|apply join_no_space].
  cbn -[format_x join split parse_hex_pairs].
  rewrite ?prefix_nil. cbn -[format_x join split parse_hex_pairs].
  now rewrite parse_hex_data.
Qed.

Lemma parse_value_hex2 zs :
  _parse_value ("hex(2):" ++ join "," (map (format_x 2) zs))
  = val "REG_EXPAND_SZ" (ints zs).
Proof.
  unfold _parse_value.
  rewrite (strip_tagged "ex(2):" _ "h");
    [|reflexivity|reflexivity|apply join_no_space].
  cbn -[format_x join split parse_hex_pairs].
  rewrite ?prefix_nil. cbn -[format_x join split parse_hex_pairs].
  now rewrite parse_hex_data.
Qed.

Lemma parse_value_hex7 zs :
  _parse_value ("hex(7):" ++ join "," (map (format_x 2) zs))
  = val "REG_MULTI_SZ" (ints zs).
Proof.
  unfold _parse_value.
  rewrite (strip_tagged "ex(7):" _ "h");
    [|reflexivity|reflexivity|apply join_no_space].
  cbn -[format_x join split parse_hex_pairs].
  rewrite ?prefix_nil. cbn -[format_x join split parse_hex_pairs].
  now rewrite parse_hex_data.
Qed.

(** ** Lines *)

Lemma key_pattern_brackets key_path :
  key_path <> EmptyString -> without "]" key_path = true ->
  key_pattern ("[" ++ key_path ++ "]") = Some key_path.
Proof.
  intros Hne Hk. cbn [append key_pattern].
  rewrite (span_stop _ key_path "]" EmptyString Hk eq_refl).
  destruct key_path; [contradiction | reflexivity].
Qed.

Lemma parse_line_key st key_path :
  key_path <> EmptyString -> without "]" key_path = true ->
  dict_mem (keys (result st)) key_path = false ->
  parse_line st ("[" ++ key_path ++ "]")
  = Next (mk_pstate
            (set_keys (result st)
               (dict_set (keys (result st)) key_path (mk_key [] None)))
            (Some key_path) (S (line_number st))).
Proof.
  intros Hne Hk Hm. unfold parse_line.
  assert (E : strip ("[" ++ key_path ++ "]") = "[" ++ key_path ++ "]").
  { apply (strip_id "["); [reflexivity|].
    change (String "[" (key_path ++ "]")) with (String "[" key_path ++ str1 "]").
    now apply rstrip_end. }
  rewrite E, (key_pattern_brackets key_path Hne Hk), Hm. reflexivity.
Qed.

Lemma dot_plus_end_all v :
  v <> EmptyString -> without newline v = true -> dot_plus_end v = Some v.
Proof.
  intros Hne Hv. unfold dot_plus_end. rewrite (span_all _ v Hv).
  destruct v; [contradiction | reflexivity].
Qed.

Lemma value_pattern_line value_name v :
  without dquote value_name = true ->
  v <> EmptyString -> without newline v = true ->
  value_pattern (q ++ value_name ++ q ++ "=" ++ v) = Some (value_name, v).
Proof.
  intros Hn Hne Hv. unfold q. cbn [str1 append value_pattern].
  rewrite Ascii.eqb_refl.
  rewrite (span_stop _ value_name dquote (String "=" v) Hn);
    [|now rewrite Ascii.eqb_refl].
  now rewrite (dot_plus_end_all v Hne Hv).
Qed.

Lemma parse_line_value st k kd value_name v :
  current_key st = Some k -> k <> EmptyString ->
  dict_get (keys (result st)) k = Some kd ->
  without dquote value_name = true ->
  v <> EmptyString -> without newline v = true -> rstrip v = v ->
  parse_line st (q ++ value_name ++ q ++ "=" ++ v)
  = Next (store_value st k kd value_name (value_of v)).
Proof.
  intros Hck Hk Hget Hn Hne Hv Hr. unfold parse_line.
  assert (E : strip (q ++ value_name ++ q ++ "=" ++ v)
              = q ++ value_name ++ q ++ "=" ++ v).
  { apply (strip_id dquote); [reflexivity|].
    change (String dquote (value_name ++ q ++ "=" ++ v))
      with (q ++ value_name ++ q ++ "=" ++ v).
    rewrite <- !str_app_assoc. now apply rstrip_fix_app. }
  rewrite E, (value_pattern_line value_name v Hn Hne Hv), Hck, Hget.
  apply String.eqb_neq in Hk. rewrite Hk.
  reflexivity.
Qed.

Lemma parse_line_blank st raw :
  strip raw = EmptyString ->
  parse_line st raw
  = Next (mk_pstate (result st) (current_key st) (S (line_number st))).
Proof. intros E. unfold parse_line. now rewrite E. Qed.

(** The four lines written for one key with one value. *)
Lemma steps_single key_path value_name v :
  key_ok key_path = true -> without dquote value_name = true ->
  v <> EmptyString -> without newline v = true -> rstrip v = v ->
  steps initial
    [header; EmptyString; "[" ++ key_path ++ "]";
     q ++ value_name ++ q ++ "=" ++ v]
  = Next (mk_pstate (reparsed key_path value_name (value_of v))
            (Some key_path) 4).
Proof.
  intros Hkey Hn Hne Hv Hr. unfold key_ok in Hkey.
  apply andb_true_iff in Hkey. destruct Hkey as [Hkey Hlb].
  apply andb_true_iff in Hkey. destruct Hkey as [Hk0 Hk].
  apply negb_true_iff, String.eqb_neq in Hk0.
  cbn [steps].
  change (parse_line initial header)
    with (Next (mk_pstate (mk_parsed (Some header) [] [] []) None 1)).
  cbv iota.
  change (parse_line (mk_pstate (mk_parsed (Some header) [] [] []) None 1)
            EmptyString)
    with (Next (mk_pstate (mk_parsed (Some header) [] [] []) None 2)).
  cbv iota.
  rewrite (parse_line_key
             (mk_pstate (mk_parsed (Some header) [] [] []) None 2)
             key_path Hk0 Hk eq_refl).
  rewrite (parse_line_value _ key_path (mk_key [] None) value_name v);
    auto.
  - unfold store_value, reparsed, set_keys. cbn. now rewrite String.eqb_refl.
  - cbn. now rewrite String.eqb_refl.
Qed.

(** ** Documents of one key with one value *)

Lemma generate_single key_path value_name v rhs :
  _format_value v = Some rhs -> v_action v = None ->
  _generate_content (single key_path value_name v) None None EmptyString
  = Some (text_of key_path value_name rhs).
Proof.
  intros Hf Ha. unfold _generate_content, single.
  cbn [keys key_lines default_value values value_lines].
  rewrite Ha, Hf. reflexivity.
Qed.

Lemma no_linebreak_app (a b : string) :
  no_linebreak (a ++ b) = no_linebreak a && no_linebreak b.
Proof. apply forallb_str_app. Qed.

Lemma no_linebreak_key_line key_path :
  no_linebreak key_path = true -> no_linebreak ("[" ++ key_path ++ "]") = true.
Proof.
  intros H. change ("[" ++ key_path ++ "]") with (String "[" (key_path ++ "]")).
  cbn [no_linebreak forallb_str]. fold (no_linebreak (key_path ++ "]")).
  rewrite no_linebreak_app, H. reflexivity.
Qed.

Lemma no_linebreak_value_line value_name rhs :
  no_linebreak value_name = true -> no_linebreak rhs = true ->
  no_linebreak (q ++ value_name ++ q ++ "=" ++ rhs) = true.
Proof.
  intros Hn Hr. rewrite !no_linebreak_app, Hn, Hr. reflexivity.
Qed.

Lemma splitlines_newline (rest : string) :
  splitlines (String newline rest) = EmptyString :: splitlines rest.
Proof. reflexivity. Qed.

Lemma splitlines_text key_path value_name rhs :
  no_linebreak key_path = true -> no_linebreak value_name = true ->
  no_linebreak rhs = true ->
  splitlines (text_of key_path value_name rhs)
  = [header; EmptyString; "[" ++ key_path ++ "]";
     q ++ value_name ++ q ++ "=" ++ rhs].
Proof.
  intros Hk Hn Hr. unfold text_of.
  rewrite (splitlines_line header _ eq_refl).
  rewrite splitlines_newline.
  rewrite (splitlines_line _ _ (no_linebreak_key_line key_path Hk)).
  rewrite (splitlines_line _ _ (no_linebreak_value_line value_name rhs Hn Hr)).
  reflexivity.
Qed.

(** The same when the right-hand side is followed by a line feed and two
    blanks, as the creator writes it for 9 to 16 bytes. *)
Lemma splitlines_text_blank key_path value_name rhs :
  no_linebreak key_path = true -> no_linebreak value_name = true ->
  no_linebreak rhs = true ->
  splitlines (text_of key_path value_name (rhs ++ String newline "  "))
  = [header; EmptyString; "[" ++ key_path ++ "]";
     q ++ value_name ++ q ++ "=" ++ rhs; "  "].
Proof.
  intros Hk Hn Hr. unfold text_of.
  rewrite (splitlines_line header _ eq_refl).
  rewrite splitlines_newline.
  rewrite (splitlines_line _ _ (no_linebreak_key_line key_path Hk)).
  replace ((q ++ value_name ++ q ++ "=" ++ rhs ++ String newline "  ")
           ++ String newline EmptyString)
    with ((q ++ value_name ++ q ++ "=" ++ rhs)
          ++ String newline ("  " ++ String newline EmptyString))
    by (now rewrite !str_app_assoc).
  rewrite (splitlines_line _ _ (no_linebreak_value_line value_name rhs Hn Hr)).
  reflexivity.
Qed.

Lemma name_ok_parts value_name :
  name_ok value_name = true ->
  without dquote value_name = true /\ no_linebreak value_name = true.
Proof. intros H. now apply andb_true_iff in H. Qed.

Lemma key_ok_no_linebreak key_path :
  key_ok key_path = true -> no_linebreak key_path = true.
Proof. intros H. apply andb_true_iff in H. tauto. Qed.

Lemma parse_text key_path value_name rhs :
  key_ok key_path = true -> name_ok value_name = true ->
  rhs <> EmptyString -> no_linebreak rhs = true -> rstrip rhs = rhs ->
  parse_content (text_of key_path value_name rhs)
  = reparsed key_path value_name (value_of rhs).
Proof.
  intros Hk Hn Hne Hlb Hr. destruct (name_ok_parts _ Hn) as [Hq Hnl].
  unfold parse_content, parse_lines.
  rewrite splitlines_text; auto using key_ok_no_linebreak.
  rewrite steps_single; auto using no_linebreak_without_newline.
Qed.

Lemma parse_text_blank key_path value_name rhs :
  key_ok key_path = true -> name_ok value_name = true ->
  rhs <> EmptyString -> no_linebreak rhs = true -> rstrip rhs = rhs ->
  parse_content (text_of key_path value_name (rhs ++ String newline "  "))
  = reparsed key_path value_name (value_of rhs).
Proof.
  intros Hk Hn Hne Hlb Hr. destruct (name_ok_parts _ Hn) as [Hq Hnl].
  unfold parse_content, parse_lines.
  rewrite splitlines_text_blank; auto using key_ok_no_linebreak.
  change [header; EmptyString; "[" ++ key_path ++ "]";
          q ++ value_name ++ q ++ "=" ++ rhs; "  "]
    with (List.app [header; EmptyString; "[" ++ key_path ++ "]";
                    q ++ value_name ++ q ++ "=" ++ rhs] ["  "]).
  assert (Happ : forall l1 l2 st st1,
             steps st l1 = Next st1 -> steps st (List.app l1 l2) = steps st1 l2).
  { induction l1 as [|x l1 IH]; simpl; intros l2 st st1 H.
    - now injection H as <-.
    - destruct (parse_line st x); [now apply IH | discriminate]. }
  rewrite (Happ _ _ _ _ (steps_single key_path value_name rhs Hk Hq Hne
                           (no_linebreak_without_newline _ Hlb) Hr)).
  reflexivity.
Qed.

Lemma roundtrip_text key_path value_name v rhs :
  _format_value v = Some rhs -> v_action v = None ->
  key_ok key_path = true -> name_ok value_name = true ->
  rhs <> EmptyString -> no_linebreak rhs = true -> rstrip rhs = rhs ->
  roundtrip (single key_path value_name v)
  = Some (reparsed key_path value_name (value_of rhs)).
Proof.
  intros Hf Ha Hk Hn Hne Hlb Hr. unfold roundtrip.
  rewrite (generate_single key_path value_name v rhs Hf Ha).
  now rewrite parse_text.
Qed.

Lemma roundtrip_text_blank key_path value_name v rhs :
  _format_value v = Some (rhs ++ String newline "  ") -> v_action v = None ->
  key_ok key_path = true -> name_ok value_name = true ->
  rhs <> EmptyString -> no_linebreak rhs = true -> rstrip rhs = rhs ->
  roundtrip (single key_path value_name v)
  = Some (reparsed key_path value_name (value_of rhs)).
Proof.
  intros Hf Ha Hk Hn Hne Hlb Hr. unfold roundtrip.
  rewrite (generate_single key_path value_name v _ Hf Ha).
  now rewrite parse_text_blank.
Qed.

Lemma escape_no_linebreak s :
  no_linebreak s = true -> no_linebreak (escape s) = true.
Proof.
  induction s as [|c s IH]; [reflexivity|]. intros H.
  simpl in H. apply andb_true_iff in H. destruct H as [Hc Hs].
  rewrite escape_cons. destruct (c =? dquote)%char.
  - cbn [no_linebreak forallb_str]. fold (no_linebreak (escape s)).
    now rewrite (IH Hs).
  - cbn [no_linebreak forallb_str]. fold (no_linebreak (escape s)).
    now rewrite Hc, (IH Hs).
Qed.

(** A tag that starts with a letter, followed by numbers and commas. *)
Lemma tagged_rhs_ok (tag t : string) c :
  isspace c = false -> rstrip (String c tag) = String c tag ->
  no_space (String c tag) = true -> no_space t = true ->
  String c tag ++ t <> EmptyString
  /\ no_linebreak (String c tag ++ t) = true
  /\ rstrip (String c tag ++ t) = String c tag ++ t.
Proof.
  intros Hc Htag Hs Ht. split; [discriminate|]. split.
  - apply no_space_no_linebreak. unfold no_space in *.
    now rewrite forallb_str_app, Hs, Ht.
  - now apply rstrip_app_no_space.
Qed.

Lemma hex_values_of_ints zs :
  hex_values_of (map PInt zs) = Some (map (format_x 2) zs).
Proof.
  induction zs as [|z zs IH]; [reflexivity|].
  cbn [map hex_values_of]. now rewrite IH.
Qed.

Lemma chunk_lines_one (hv : list string) :
  hv <> [] -> List.length hv <= 16 ->
  chunk_lines (List.length hv) hv = [join "," hv].
Proof.
  intros Hne Hlen. destruct hv as [|h hv]; [contradiction|].
  cbn [List.length chunk_lines].
  rewrite (skipn_all2 (h :: hv)) by exact Hlen.
  rewrite (firstn_all2 (h :: hv)) by exact Hlen. reflexivity.
Qed.

Lemma format_binary_short zs :
  List.length zs <= 8 ->
  _format_value (val "REG_BINARY" (ints zs))
  = Some ("hex:" ++ join "," (map (format_x 2) zs)).
Proof.
  intros Hlen. unfold _format_value, val, ints, type_or_default, get_data.
  cbn [v_type v_data String.eqb Ascii.eqb Bool.eqb].
  rewrite hex_values_of_ints, length_map.
  apply Nat.leb_le in Hlen. now rewrite Hlen.
Qed.

Lemma format_binary_line zs :
  8 < List.length zs <= 16 ->
  _format_value (val "REG_BINARY" (ints zs))
  = Some (("hex:" ++ join "," (map (format_x 2) zs)) ++ String newline "  ").
Proof.
  intros [Hlo Hhi]. unfold _format_value, val, ints, type_or_default, get_data.
  cbn [v_type v_data String.eqb Ascii.eqb Bool.eqb].
  rewrite hex_values_of_ints, length_map.
  apply Nat.leb_gt in Hlo. rewrite Hlo.
  rewrite <- (length_map (format_x 2) zs).
  assert (Hc : chunk_lines (List.length (map (format_x 2) zs))
                 (map (format_x 2) zs)
               = [join "," (map (format_x 2) zs)]).
  { apply chunk_lines_one.
    - destruct zs; [simpl in Hlo; discriminate | discriminate].
    - now rewrite length_map. }
  rewrite Hc. cbn [hd tl join String.concat str1].
  f_equal; now rewrite !str_app_assoc.
Qed.

(** For a document of one key with one value, written without a line
    boundary in key path and value name, parsing the text of the creator
    gives back the value for a string without line boundary, a DWORD, a
    QWORD and a binary value of at most 16 bytes; for an expandable string
    and a multi-string it gives the same type with the bytes of the UTF-16
    text as payload. *)
Lemma roundtrip_single_value (key_path value_name : string) :
  key_ok key_path = true -> name_ok value_name = true ->
  (forall s, no_linebreak s = true ->
     roundtrip (single key_path value_name (val "REG_SZ" (PStr s)))
     = Some (reparsed key_path value_name (val "REG_SZ" (PStr s))))
  /\ (forall z,
        roundtrip (single key_path value_name (val "REG_DWORD" (PInt z)))
        = Some (reparsed key_path value_name (val "REG_DWORD" (PInt z))))
  /\ (forall z,
        roundtrip (single key_path value_name (val "REG_QWORD" (PInt z)))
        = Some (reparsed key_path value_name (val "REG_QWORD" (PInt z))))
  /\ (forall zs, List.length zs <= 16 ->
        roundtrip (single key_path value_name (val "REG_BINARY" (ints zs)))
        = Some (reparsed key_path value_name (val "REG_BINARY" (ints zs))))
  /\ (forall s,
        roundtrip (single key_path value_name (val "REG_EXPAND_SZ" (PStr s)))
        = Some (reparsed key_path value_name
                  (val "REG_EXPAND_SZ"
                     (ints (List.app (utf16_units s) [0; 0]%Z)))))
  /\ (forall ss,
        roundtrip (single key_path value_name
                     (val "REG_MULTI_SZ" (PList (map PStr ss))))
        = Some (reparsed key_path value_name
                  (val "REG_MULTI_SZ"
                     (ints (multi_sz_bytes (map PStr ss)))))).
Proof.
  intros Hk Hn. repeat apply conj.
  - intros s Hs.
    rewrite (roundtrip_text key_path value_name _ (q ++ escape s ++ q));
      auto.
    + unfold value_of. cbn [q str1 append String.eqb Ascii.eqb Bool.eqb dquote].
      fold dquote. fold (str1 dquote). fold q.
      change (String dquote (escape s ++ q)) with (q ++ escape s ++ q).
      now rewrite parse_value_sz.
    + discriminate.
    + rewrite !no_linebreak_app, (escape_no_linebreak s Hs). reflexivity.
    + rewrite <- str_app_assoc. now apply rstrip_end.
  - intros z.
    destruct (tagged_rhs_ok "word:" (format_x 8 z) "d" eq_refl eq_refl eq_refl
                (hexish_no_space _ (format_x_hexish 8 z))) as (H1 & H2 & H3).
    rewrite (roundtrip_text key_path value_name _ ("dword:" ++ format_x 8 z));
      auto.
    unfold value_of. cbn [append String.eqb Ascii.eqb Bool.eqb].
    change (String "d" (String "w" (String "o" (String "r" (String "d"
              (String ":" (format_x 8 z)))))))
      with ("dword:" ++ format_x 8 z).
    now rewrite parse_value_dword.
  - intros z.
    destruct (tagged_rhs_ok "word:" (format_x 16 z) "q" eq_refl eq_refl eq_refl
                (hexish_no_space _ (format_x_hexish 16 z))) as (H1 & H2 & H3).
    rewrite (roundtrip_text key_path value_name _ ("qword:" ++ format_x 16 z));
      auto.
    unfold value_of. cbn [append String.eqb Ascii.eqb Bool.eqb].
    change (String "q" (String "w" (String "o" (String "r" (String "d"
              (String ":" (format_x 16 z)))))))
      with ("qword:" ++ format_x 16 z).
    now rewrite parse_value_qword.
  - intros zs Hlen.
    destruct (tagged_rhs_ok "ex:" (join "," (map (format_x 2) zs)) "h"
                eq_refl eq_refl eq_refl (join_no_space zs)) as (H1 & H2 & H3).
    assert (Hv : value_of ("hex:" ++ join "," (map (format_x 2) zs))
                 = val "REG_BINARY" (ints zs)).
    { rewrite <- parse_value_hex. reflexivity. }
    destruct (Nat.le_gt_cases (List.length zs) 8) as [Hs|Hl].
    + rewrite (roundtrip_text key_path value_name _
                 ("hex:" ++ join "," (map (format_x 2) zs)));
        auto using format_binary_short.
      now rewrite Hv.
    + rewrite (roundtrip_text_blank key_path value_name _
                 ("hex:" ++ join "," (map (format_x 2) zs)));
        auto using format_binary_line.
      now rewrite Hv.
  - intros s.
    set (zs := List.app (utf16_units s) [0; 0]%Z).
    destruct (tagged_rhs_ok "ex(2):" (join "," (map (format_x 2) zs)) "h"
                eq_refl eq_refl eq_refl (join_no_space zs)) as (H1 & H2 & H3).
    rewrite (roundtrip_text key_path value_name _
               ("hex(2):" ++ join "," (map (format_x 2) zs))); auto.
    rewrite <- parse_value_hex2. reflexivity.
  - intros ss.
    set (zs := multi_sz_bytes (map PStr ss)).
    destruct (tagged_rhs_ok "ex(7):" (join "," (map (format_x 2) zs)) "h"
                eq_refl eq_refl eq_refl (join_no_space zs)) as (H1 & H2 & H3).
    rewrite (roundtrip_text key_path value_name _
               ("hex(7):" ++ join "," (map (format_x 2) zs))); auto.
    rewrite <- parse_value_hex7. reflexivity.
Qed.

(** [parse(serialize(document))] of the multi-string [["a", "b"]] carries
    ten integers, not the two strings. *)
Lemma multi_sz_roundtrip_differs :
  roundtrip doc_multi_sz
  = Some (reparsed test_key "Paths"
            (val "REG_MULTI_SZ" (ints [97; 0; 0; 0; 98; 0; 0; 0; 0; 0]%Z)))
  /\ roundtrip doc_multi_sz
     <> Some (reparsed test_key "Paths"
                (val "REG_MULTI_SZ" (PList [PStr "a"; PStr "b"]))).
Proof. split; [vm_compute; reflexivity | vm_compute; discriminate]. Qed.

Lemma roundtrip_single_value_witness :
  roundtrip (single test_key "Paths" (val "REG_SZ" (PStr "C:\Temp")))
  = Some (reparsed test_key "Paths" (val "REG_SZ" (PStr "C:\Temp")))
  /\ roundtrip (single test_key "Paths" (val "REG_BINARY" (ints [1; 2]%Z)))
     = Some (reparsed test_key "Paths" (val "REG_BINARY" (ints [1; 2]%Z)))
  /\ roundtrip doc_multi_sz
     = Some (reparsed test_key "Paths"
               (val "REG_MULTI_SZ" (ints [97; 0; 0; 0; 98; 0; 0; 0; 0; 0]%Z))).
Proof.
  destruct (roundtrip_single_value test_key "Paths" eq_refl eq_refl)
    as (Hsz & _ & _ & Hbin & _ & Hmulti).
  split; [|split].
  - apply Hsz. reflexivity.
  - apply Hbin. simpl. repeat constructor.
  - apply (Hmulti ["a"; "b"]).
Defined.

(** ** Numbers that are no hexadecimal number *)








(** ** Line numbers in error entries *)













(** ** Malformed lines *)

Lemma steps_app l1 :
  forall l2 st st1,
    steps st l1 = Next st1 -> steps st (List.app l1 l2) = steps st1 l2.
Proof.
  induction l1 as [|x l1 IH]; simpl; intros l2 st st1 H.
  - now injection H as <-.
  - destruct (parse_line st x); [now apply IH | discriminate].
Qed.









Example parse_garbage :
  parse_content doc_garbage
  = mk_parsed None
      [(test_key, mk_key [("Flag", val "REG_DWORD" (PInt 1))] None)] []
      ["Zeile 2: Unbekanntes Format: garbage line"].
Proof. vm_compute. reflexivity. Qed.

(* ===================================================================== *)
(** * Further properties                                                  *)
(* ===================================================================== *)

(** ** Key paths *)

Lemma find_root_known roots key_path :
  existsb (fun root_name => startswith root_name key_path) (dict_keys roots)
  = true ->
  exists root_name h,
    In (root_name, h) roots
    /\ find_root roots key_path
       = (Some h,
          lstrip_char backslash (drop (String.length root_name) key_path)).
Proof.
  induction roots as [|[root_name h] roots IH]; simpl; intros H.
  - discriminate.
  - destruct (startswith root_name key_path) eqn:E.
    + exists root_name, h. split; [now left | reflexivity].
    + destruct (IH H) as (n' & h' & Hin & Hf).
      exists n', h'. split; [now right | exact Hf].
Qed.

Lemma root_handles_nonzero root_name h :
  In (root_name, h) root_keys -> h <> 0%Z.
Proof.
  unfold root_keys. simpl.
  intros [H|[H|[H|[H|[H|[]]]]]]; injection H as _ <-; discriminate.
Qed.

Lemma validate_is_known_root key_path :
  validate_key_path key_path = known_root key_path.
Proof.
  unfold validate_key_path, known_root.
  destruct (String.eqb_spec key_path EmptyString) as [->|_]; reflexivity.
Qed.

Lemma lstrip_char_same c (s : string) :
  lstrip_char c (String c s) = lstrip_char c s.
Proof. simpl. now rewrite Ascii.eqb_refl. Qed.

(** X1: the creator accepts a key path exactly when the checker can
    resolve it to a root handle; and for each of the five roots, a path
    made of the root name, a backslash and a sub-key resolves to the handle
    of that root and the sub-key without leading backslashes. *)
Theorem valid_paths_resolve (key_path : string) :
  (validate_key_path key_path = true <->
   exists root sub_key,
     _parse_key_path key_path = (Some root, sub_key) /\ root <> 0%Z)
  /\ (forall sub_key,
        _parse_key_path ("HKEY_CLASSES_ROOT" ++ bs ++ sub_key)
        = (Some HKEY_CLASSES_ROOT, lstrip_char backslash sub_key)
        /\ _parse_key_path ("HKEY_CURRENT_USER" ++ bs ++ sub_key)
           = (Some HKEY_CURRENT_USER, lstrip_char backslash sub_key)
        /\ _parse_key_path ("HKEY_LOCAL_MACHINE" ++ bs ++ sub_key)
           = (Some HKEY_LOCAL_MACHINE, lstrip_char backslash sub_key)
        /\ _parse_key_path ("HKEY_USERS" ++ bs ++ sub_key)
           = (Some HKEY_USERS, lstrip_char backslash sub_key)
        /\ _parse_key_path ("HKEY_CURRENT_CONFIG" ++ bs ++ sub_key)
           = (Some HKEY_CURRENT_CONFIG, lstrip_char backslash sub_key)).
Proof.
  split.
  - rewrite validate_is_known_root. unfold _parse_key_path. split.
    + intros H. destruct (find_root_known root_keys key_path H)
        as (root_name & h & Hin & Hf).
      exists h, (lstrip_char backslash
                   (drop (String.length root_name) key_path)).
      split; [exact Hf | now apply (root_handles_nonzero root_name)].
    + intros (root & sub_key & Hf & _).
      destruct (known_root key_path) eqn:E; [reflexivity|].
      rewrite (find_root_unknown root_keys key_path E) in Hf. discriminate.
  - intros sub_key. unfold _parse_key_path, root_keys, bs.
    repeat apply conj;
      cbn -[lstrip_char]; rewrite ?prefix_nil; cbn -[lstrip_char];
      now rewrite lstrip_char_same.
Qed.

(** ** Keys marked for deletion *)

Lemma key_exists_present reg key_path log :
  fst (_key_exists reg key_path log) = key_present reg key_path.
Proof.
  unfold _key_exists, key_present.
  destruct (_parse_key_path key_path) as [root_key sub_key].
  destruct (no_root root_key); [reflexivity|].
  unfold bind, call, ret.
  now destruct (OpenKey reg _ sub_key).
Qed.

Lemma check_deleted_entry reg ds k :
  In k ds ->
  forall acc log,
    dict_get (fst (check_deleted reg ds acc log)) k
    = Some (deletion_entry (key_present reg k)).
Proof.
  induction ds as [|d ds IH]; intros Hin acc log; [contradiction|].
  rewrite check_deleted_step.
  pose proof (key_exists_present reg d log) as He.
  destruct (_key_exists reg d log) as [key_exists log']. simpl in He.
  destruct (in_dec string_dec k ds) as [Hi|Hi].
  - now apply IH.
  - destruct Hin as [->|Hin]; [|contradiction].
    rewrite check_deleted_other by assumption.
    rewrite dict_get_set_eq, He. reflexivity.
Qed.

Lemma overall_check_parsed reg doc log :
  overall_status (fst (check_parsed reg doc log))
  = _calculate_overall_status (summary (fst (check_parsed reg doc log))).
Proof.
  unfold check_parsed, bind, ret.
  destruct (check_keys reg (keys doc) (summary0, []) log) as [r log1].
  destruct (check_deleted reg (deleted_keys doc) (snd r) log1) as [ks log2].
  reflexivity.
Qed.

(** X2: the keys that a document marks for deletion do not enter the
    summary or the overall status; each of them has a report entry with
    [expected_deleted = true], no values, and the status
    [should_not_exist] when the registry has the key and
    [correctly_deleted] when it has not, or the root is unknown. *)
Theorem deleted_keys_reported (reg : live_registry) (v : option string)
    (ks : dict key_data) (ds es : list string) (log : list event) :
  let with_deleted := fst (check_parsed reg (mk_parsed v ks ds es) log) in
  let without := fst (check_parsed reg (mk_parsed v ks [] es) log) in
  summary with_deleted = summary without
  /\ overall_status with_deleted = overall_status without
  /\ (forall k, In k ds ->
        dict_get (sr_keys with_deleted) k
        = Some (deletion_entry (key_present reg k))).
Proof.
  cbv zeta. split; [|split].
  - now rewrite !summary_check_parsed.
  - now rewrite !overall_check_parsed, !summary_check_parsed.
  - intros k Hin. rewrite sr_keys_check_parsed. cbv zeta.
    now apply check_deleted_entry.
Qed.

Lemma deleted_keys_reported_witness :
  dict_get
    (sr_keys (fst (check_parsed reg_all_present
                     (mk_parsed None [] [obsolete_key] []) [])))
    obsolete_key
  = Some (deletion_entry true).
Proof.
  destruct (deleted_keys_reported reg_all_present None [] [obsolete_key] [] [])
    as (_ & _ & H).
  apply (H obsolete_key). simpl. left. reflexivity.
Defined.

(** ** Comparison of declared and live values *)

Lemma py_eqb_ints (a : list Z) :
  forall b, py_eqb (PList (map PInt a)) (PList (map PInt b)) = true <-> a = b.
Proof.
  induction a as [|x a IH]; intros [|y b]; simpl; split; intros H;
    try reflexivity; try discriminate.
  - apply andb_true_iff in H. destruct H as [Hx Ha].
    apply Z.eqb_eq in Hx. subst y. f_equal. now apply IH.
  - injection H as -> ->. rewrite Z.eqb_refl. simpl.
    now apply (IH b).
Qed.

Lemma list_of_bytes_ints b : list_of_bytes b = ints (byte_values b).
Proof.
  unfold list_of_bytes, ints, byte_values. now rewrite map_map.
Qed.

Lemma py_eqb_ints_strs (zs : list Z) (ss : list string) :
  py_eqb (PList (map PInt zs)) (PList (map PStr ss)) = true
  <-> zs = [] /\ ss = [].
Proof.
  destruct zs as [|z zs], ss as [|s ss]; simpl; split; intros H;
    try discriminate; try (destruct H; discriminate); auto.
Qed.

Lemma check_value_status_spec reg root sub_key value_name expected log :
  _check_value_status reg root sub_key value_name expected log
  = (classify reg root sub_key value_name expected,
     List.app log [read_event root sub_key value_name]).
Proof.
  unfold classify, _check_value_status, bind, call, ret.
  destruct value_name as [name|]; cbn [read_event].
  - destruct (QueryValueEx reg root sub_key name) as [[d t]| |e];
      repeat match goal with
             | |- context [if ?b then _ else _] => destruct b
             end; reflexivity.
  - destruct (QueryValue reg root sub_key) as [s| |e];
      repeat match goal with
             | |- context [if ?b then _ else _] => destruct b
             end; reflexivity.
Qed.

(** X4: the comparison of a declared value with a live one is by number
    for DWORD and QWORD, by exact text for strings, and byte by byte for
    binary data read as a bytes object; a value is classified [match] when
    the comparison holds and [different] when it does not. *)
Theorem comparison_exact :
  (forall z z',
      _compare_values (val "REG_DWORD" (PInt z)) (live (PInt z') 4) = (z =? z')%Z
      /\ _compare_values (val "REG_QWORD" (PInt z)) (live (PInt z') 11)
         = (z =? z')%Z)
  /\ (forall s s',
        _compare_values (val "REG_SZ" (PStr s)) (live (PStr s') 1)
        = (s =? s')%string)
  /\ (forall zs b,
        _compare_values (val "REG_BINARY" (ints zs)) (live (PBytes b) 3) = true
        <-> zs = byte_values b)
  /\ (forall reg root sub_key value_name expected d t,
        QueryValueEx reg root sub_key value_name = Found (d, t) ->
        is_delete expected = false ->
        vs_status (classify reg root sub_key (Some value_name) expected)
        = if _compare_values expected (live d t) then Match else Different).
Proof.
  split; [|split; [|split]].
  - intros z z'. split; reflexivity.
  - intros s s'. reflexivity.
  - intros zs b. unfold _compare_values, val, live. cbn [v_type get_data v_data].
    change (reg_type_name 3) with "REG_BINARY".
    cbn [option_string_eqb String.eqb Ascii.eqb Bool.eqb negb orb].
    unfold ints at 1. cbv iota beta.
    rewrite list_of_bytes_ints. apply py_eqb_ints.
  - intros reg root sub_key value_name expected d t Hq Hd.
    unfold classify, _check_value_status, bind, call, ret. rewrite Hq, Hd.
    fold (live d t). now destruct (_compare_values expected (live d t)).
Qed.

Lemma comparison_exact_witness :
  vs_status (classify reg_flag_1 HKEY_CURRENT_USER "Software\Test"
               (Some "Flag") (val "REG_DWORD" (PInt 1)))
  = Match.
Proof.
  destruct comparison_exact as (Hnum & _ & _ & Hst).
  rewrite (Hst reg_flag_1 HKEY_CURRENT_USER "Software\Test" "Flag"
             (val "REG_DWORD" (PInt 1)) (PInt 1) 4%Z eq_refl eq_refl).
  destruct (Hnum 1%Z 1%Z) as [Hd _]. rewrite Hd. reflexivity.
Defined.

(** ** Values written in the [hex(N)] forms *)

Lemma parse_value_hexb zs :
  _parse_value ("hex(b):" ++ hex_list zs) = val "REG_QWORD" (ints zs).
Proof.
  unfold _parse_value, hex_list.
  rewrite (strip_tagged "ex(b):" _ "h");
    [|reflexivity|reflexivity|apply join_no_space].
  cbn -[format_x join split parse_hex_pairs].
  rewrite ?prefix_nil. cbn -[format_x join split parse_hex_pairs].
  now rewrite parse_hex_data.
Qed.

Lemma parse_value_hex4 zs :
  _parse_value ("hex(4):" ++ hex_list zs) = val "REG_DWORD" (ints zs).
Proof.
  unfold _parse_value, hex_list.
  rewrite (strip_tagged "ex(4):" _ "h");
    [|reflexivity|reflexivity|apply join_no_space].
  cbn -[format_x join split parse_hex_pairs].
  rewrite ?prefix_nil. cbn -[format_x join split parse_hex_pairs].
  now rewrite parse_hex_data.
Qed.

Lemma compare_number_list zs a :
  _compare_values (val "REG_QWORD" (ints zs)) a = false
  /\ _compare_values (val "REG_DWORD" (ints zs)) a = false.
Proof.
  unfold _compare_values, val, ints. cbn [v_type get_data v_data].
  split.
  - destruct (option_string_eqb (Some "REG_QWORD") (v_type a)); reflexivity.
  - destruct (option_string_eqb (Some "REG_DWORD") (v_type a)); reflexivity.
Qed.

Lemma str_length_app (a b : string) :
  String.length (a ++ b) = String.length a + String.length b.
Proof. induction a as [|x a IH]; simpl; [reflexivity | now rewrite IH]. Qed.

Lemma str_of_Z_length z : 1 <= String.length (str_of_Z z).
Proof.
  unfold str_of_Z, NilZero.string_of_int, NilZero.string_of_uint.
  destruct (Z.to_int z) as [d|d]; destruct d; simpl; lia.
Qed.

Lemma join_length sep (ls : list string) :
  Forall (fun s => 1 <= String.length s) ls ->
  List.length ls <= String.length (join sep ls).
Proof.
  intros H. induction H as [|s ls Hs Hall IH]; [simpl; lia|].
  destruct ls as [|t ls]; [simpl; lia|].
  change (join sep (s :: t :: ls)) with (s ++ sep ++ join sep (t :: ls)).
  rewrite !str_length_app. simpl List.length in *. lia.
Qed.

Lemma py_str_ints_length zs :
  2 + List.length zs <= String.length (py_str (ints zs)).
Proof.
  unfold ints, py_str. cbn [py_repr]. rewrite map_map.
  cbn [append String.length]. rewrite str_length_app. cbn [String.length].
  pose proof (join_length ", " (map (fun x => py_repr (PInt x)) zs)) as H.
  rewrite length_map in H.
  assert (Hall : Forall (fun s => 1 <= String.length s)
                   (map (fun x => py_repr (PInt x)) zs)).
  { apply Forall_forall. intros s Hin. apply in_map_iff in Hin.
    destruct Hin as (z & <- & _). apply str_of_Z_length. }
  specialize (H Hall). lia.
Qed.

Lemma utf16_units_length s :
  List.length (utf16_units s) = 2 * String.length s.
Proof. induction s as [|c s IH]; simpl; [reflexivity | rewrite IH; lia]. Qed.

Lemma multi_sz_bytes_nonempty l : multi_sz_bytes l <> [].
Proof.
  destruct l as [|x l]; [discriminate|]. simpl.
  destruct (utf16_units (py_str x)); discriminate.
Qed.

(** X5: a value that the file gives in one of the typed [hex(N)] forms is
    stored as the list of its bytes and never compares equal to what the
    registry returns for that type: a QWORD [hex(b)] or DWORD [hex(4)]
    matches no live value at all, a multi-string [hex(7)] matches a live
    list of strings only when both are empty, and the expandable string
    and the multi-string that the creator writes do not match the very
    values they were written from. *)
Theorem hex_forms_never_match :
  (forall zs a,
      _compare_values (_parse_value ("hex(b):" ++ hex_list zs)) a = false
      /\ _compare_values (_parse_value ("hex(4):" ++ hex_list zs)) a = false)
  /\ (forall zs ss,
        _compare_values (_parse_value ("hex(7):" ++ hex_list zs))
          (live (PList (map PStr ss)) 7) = true
        <-> zs = [] /\ ss = [])
  /\ (forall s,
        let rhs := "hex(2):" ++ hex_list (List.app (utf16_units s) [0; 0]%Z) in
        _format_value (val "REG_EXPAND_SZ" (PStr s)) = Some rhs
        /\ _compare_values (_parse_value rhs) (live (PStr s) 2) = false)
  /\ (forall ss,
        let rhs := "hex(7):" ++ hex_list (multi_sz_bytes (map PStr ss)) in
        _format_value (val "REG_MULTI_SZ" (PList (map PStr ss))) = Some rhs
        /\ _compare_values (_parse_value rhs) (live (PList (map PStr ss)) 7)
           = false).
Proof.
  split; [|split; [|split]].
  - intros zs a. rewrite parse_value_hexb, parse_value_hex4.
    apply compare_number_list.
  - intros zs ss. unfold hex_list. rewrite parse_value_hex7.
    unfold _compare_values, val, live, ints. cbn [v_type get_data v_data].
    change (reg_type_name 7) with "REG_MULTI_SZ".
    cbn [option_string_eqb String.eqb Ascii.eqb Bool.eqb negb orb].
    cbv iota beta. apply py_eqb_ints_strs.
  - intros s. cbv zeta. split; [reflexivity|].
    unfold hex_list. rewrite parse_value_hex2.
    unfold _compare_values, val, live. cbn [v_type get_data v_data].
    change (reg_type_name 2) with "REG_EXPAND_SZ".
    cbn [option_string_eqb String.eqb Ascii.eqb Bool.eqb negb orb].
    cbv iota beta. apply String.eqb_neq. intros E.
    pose proof (py_str_ints_length (List.app (utf16_units s) [0; 0]%Z)) as Hl.
    rewrite E in Hl. cbn [py_str] in Hl.
    rewrite length_app, utf16_units_length in Hl. simpl in Hl. lia.
  - intros ss. cbv zeta. split; [reflexivity|].
    unfold hex_list. rewrite parse_value_hex7.
    unfold _compare_values, val, live, ints. cbn [v_type get_data v_data].
    change (reg_type_name 7) with "REG_MULTI_SZ".
    cbn [option_string_eqb String.eqb Ascii.eqb Bool.eqb negb orb].
    cbv iota beta.
    destruct (py_eqb (PList (map PInt (multi_sz_bytes (map PStr ss))))
                (PList (map PStr ss))) eqn:E; [|reflexivity].
    apply py_eqb_ints_strs in E. destruct E as [E _].
    now elim (multi_sz_bytes_nonempty (map PStr ss)).
Qed.

(** ** Keys that are found *)

Lemma check_named_spec reg root sub_key vs :
  forall acc log,
    check_named reg root sub_key vs acc log
    = (classify_named reg root sub_key vs acc,
       List.app log (map (EvQueryValueEx root sub_key) (dict_keys vs))).
Proof.
  induction vs as [|[value_name expected] vs IH]; intros acc log.
  - simpl. unfold ret. now rewrite List.app_nil_r.
  - cbn [check_named]. unfold bind.
    rewrite check_value_status_spec, IH.
    unfold classify_named. cbn [fold_left fst snd dict_keys map read_event].
    now rewrite <- List.app_assoc.
Qed.

Lemma classify_named_get reg root sub_key vs :
  forall acc name,
    (forall v, NoDup (dict_keys vs) -> In (name, v) vs ->
               dict_get (classify_named reg root sub_key vs acc) name
               = Some (classify reg root sub_key (Some name) v))
    /\ (~ In name (dict_keys vs) ->
        dict_get (classify_named reg root sub_key vs acc) name
        = dict_get acc name).
Proof.
  induction vs as [|[n0 v0] vs IH]; intros acc name.
  - split; [intros v _ [] | reflexivity].
  - unfold classify_named. cbn [fold_left fst snd].
    fold (classify_named reg root sub_key vs
            (dict_set acc n0 (classify reg root sub_key (Some n0) v0))).
    destruct (IH (dict_set acc n0 (classify reg root sub_key (Some n0) v0))
                name) as [IH1 IH2].
    split.
    + intros v Hnd [Heq|Hin]; inversion Hnd as [|? ? Hni Hnd']; subst.
      * injection Heq as -> ->. rewrite IH2 by assumption.
        apply dict_get_set_eq.
      * now apply IH1.
    + intros Hni. simpl in Hni. rewrite IH2 by tauto.
      apply dict_get_set_neq. tauto.
Qed.

(** X6: when the key is opened, the checker reports it as existing
    without errors, reads the default value (if one is declared) and then
    every named value once, in the order of the document, and makes no
    other call; the entry of each named value is the classification of
    that value, and so is the entry [@default] of the default value unless
    a named value has that name. *)
Theorem key_found_values (reg : live_registry) (key_path : string)
    (kd : key_data) (log : list event) (root : Z) (sub_key : string) :
  _parse_key_path key_path = (Some root, sub_key) ->
  root <> 0%Z ->
  OpenKey reg root sub_key = Found tt ->
  NoDup (dict_keys (values kd)) ->
  let r := _check_key_status reg key_path kd log in
  ks_exists (fst r) = true
  /\ ks_errors (fst r) = Some []
  /\ snd r = List.app log (EvOpenKey root sub_key :: reads_of root sub_key kd)
  /\ (forall name v, In (name, v) (values kd) ->
        dict_get (ks_values (fst r)) name
        = Some (classify reg root sub_key (Some name) v))
  /\ (forall dv, declared_default kd = Some dv ->
        ~ In "@default" (dict_keys (values kd)) ->
        dict_get (ks_values (fst r)) "@default"
        = Some (classify reg root sub_key None dv)).
Proof.
  intros Hpath Hroot Hopen Hnd. cbv zeta.
  unfold _check_key_status. rewrite Hpath.
  unfold no_root. apply Z.eqb_neq in Hroot. rewrite Hroot.
  unfold bind, call, ret. rewrite Hopen. unfold reads_of.
  destruct (declared_default kd) as [dv|].
  - rewrite check_value_status_spec, check_named_spec.
    cbn [fst snd ks_exists ks_values ks_errors read_event].
    split; [reflexivity|]. split; [reflexivity|]. split.
    { rewrite <- !List.app_assoc. reflexivity. }
    split.
    + intros name v Hin. now apply classify_named_get.
    + intros dv' Hdv Hni. injection Hdv as <-.
      destruct (classify_named_get reg root sub_key (values kd)
                  (dict_set [] "@default" (classify reg root sub_key None dv))
                  "@default") as [_ H2].
      rewrite (H2 Hni). reflexivity.
  - rewrite check_named_spec.
    cbn [fst snd ks_exists ks_values ks_errors].
    split; [reflexivity|]. split; [reflexivity|]. split.
    { rewrite <- !List.app_assoc. reflexivity. }
    split.
    + intros name v Hin. now apply classify_named_get.
    + intros dv' Hdv. discriminate.
Qed.

Lemma key_found_values_witness :
  snd (_check_key_status reg_flag_1 test_key kd_flag [])
  = [EvOpenKey HKEY_CURRENT_USER "Software\Test";
     EvQueryValue HKEY_CURRENT_USER "Software\Test";
     EvQueryValueEx HKEY_CURRENT_USER "Software\Test" "Flag"]
  /\ dict_get (ks_values (fst (_check_key_status reg_flag_1 test_key kd_flag [])))
       "Flag"
     = Some (classify reg_flag_1 HKEY_CURRENT_USER "Software\Test"
               (Some "Flag") (val "REG_DWORD" (PInt 1))).
Proof.
  assert (Hroot : HKEY_CURRENT_USER <> 0%Z) by discriminate.
  assert (Hnd : NoDup (dict_keys (values kd_flag))).
  { simpl. constructor; [intros [] | constructor]. }
  destruct (key_found_values reg_flag_1 test_key kd_flag []
              HKEY_CURRENT_USER "Software\Test" eq_refl Hroot eq_refl Hnd)
    as (_ & _ & Hlog & Hval & _).
  split; [exact Hlog|]. apply Hval. simpl. left. reflexivity.
Defined.

(** ** What the parser stores *)

Lemma parse_value_shape s : parsed_shape (_parse_value s) = true.
Proof.
  unfold _parse_value.
  repeat match goal with
         | |- context [if ?b then _ else _] => destruct b
         | |- context [match ?x with _ => _ end] => destruct x
         end; reflexivity.
Qed.

Section DictForall.
Context {V : Type} (p : V -> bool).

Lemma forallb_dict_set (d : dict V) k v :
  forallb p (dict_values d) = true -> p v = true ->
  forallb p (dict_values (dict_set d k v)) = true.
Proof.
  intros Hd Hv. induction d as [|[k' v'] d IH]; simpl.
  - now rewrite Hv.
  - simpl in Hd. apply andb_true_iff in Hd. destruct Hd as [H1 H2].
    destruct (k' =? k)%string; simpl.
    + now rewrite Hv, H2.
    + now rewrite H1, IH.
Qed.

Lemma forallb_dict_get (d : dict V) k v :
  forallb p (dict_values d) = true -> dict_get d k = Some v -> p v = true.
Proof.
  induction d as [|[k' v'] d IH]; simpl; intros Hd Hg; [discriminate|].
  apply andb_true_iff in Hd. destruct Hd as [H1 H2].
  destruct (k' =? k)%string.
  - now injection Hg as <-.
  - now apply IH.
Qed.
End DictForall.

Lemma parse_line_shape st raw st' :
  parse_line st raw = Next st' ->
  forallb key_parsed_shape (dict_values (keys (result st))) = true ->
  forallb key_parsed_shape (dict_values (keys (result st'))) = true.
Proof.
  unfold parse_line.
  destruct ((strip raw =? EmptyString) || startswith ";" (strip raw)).
  { intros H; injection H as <-. auto. }
  destruct (startswith "Windows Registry Editor" (strip raw)).
  { intros H; injection H as <-. auto. }
  destruct (key_pattern (strip raw)) as [k|].
  { destruct (dict_mem (keys (result st)) k);
      intros H; injection H as <-; auto.
    intros Hs. cbn. now apply forallb_dict_set. }
  destruct (delete_key_pattern (strip raw)) as [d|].
  { intros H; injection H as <-. auto. }
  destruct (current_key st) as [k|].
  2:{ intros H; injection H as <-. auto. }
  destruct (k =? EmptyString).
  { intros H; injection H as <-. auto. }
  destruct (default_value_pattern (strip raw)) as [rhs|].
  { destruct (dict_get (keys (result st)) k) as [kd|] eqn:Hg; [|discriminate].
    intros H; injection H as <-. intros Hs. cbn.
    apply forallb_dict_set; [assumption|].
    pose proof (forallb_dict_get _ _ _ _ Hs Hg) as Hkd.
    unfold key_parsed_shape in Hkd |- *.
    apply andb_true_iff in Hkd. destruct Hkd as [Hv _].
    apply andb_true_iff. split; [exact Hv | apply parse_value_shape]. }
  destruct (value_pattern (strip raw)) as [[value_name value_raw]|].
  { destruct (dict_get (keys (result st)) k) as [kd|] eqn:Hg; [|discriminate].
    intros H; injection H as <-. intros Hs. cbn.
    apply forallb_dict_set; [assumption|].
    pose proof (forallb_dict_get _ _ _ _ Hs Hg) as Hkd.
    unfold key_parsed_shape in Hkd |- *.
    apply andb_true_iff in Hkd. destruct Hkd as [Hv Hd].
    apply andb_true_iff. split; [|exact Hd].
    cbn [values]. apply forallb_dict_set; [assumption|].
    destruct (value_raw =? "-"); [reflexivity | apply parse_value_shape]. }
  intros H; injection H as <-. auto.
Qed.

Lemma steps_shape lines :
  forall st st', steps st lines = Next st' ->
  forallb key_parsed_shape (dict_values (keys (result st))) = true ->
  forallb key_parsed_shape (dict_values (keys (result st'))) = true.
Proof.
  induction lines as [|raw lines IH]; simpl; intros st st' H Hs.
  - injection H as <-. exact Hs.
  - destruct (parse_line st raw) as [st1|st1 e] eqn:H1; [|discriminate].
    apply (IH st1 st' H). now apply (parse_line_shape st raw).
Qed.

Lemma parsed_shape_everywhere content :
  forallb key_parsed_shape (dict_values (keys (parse_content content))) = true.
Proof.
  unfold parse_content, parse_lines.
  destruct (steps_next (splitlines content) initial initial_key_open)
    as (st' & H & _).
  rewrite H. now apply (steps_shape _ _ _ H).
Qed.

Lemma parsed_shape_not_delete v : parsed_shape v = true -> is_delete v = false.
Proof.
  unfold parsed_shape, is_delete. intros H.
  apply andb_true_iff in H. destruct H as [_ H].
  now destruct (v_action v).
Qed.

Lemma classify_plain reg root sub_key value_name expected :
  is_delete expected = false ->
  plain_status (classify reg root sub_key value_name expected) = true.
Proof.
  intros Hd. unfold classify, _check_value_status, bind, call, ret.
  rewrite Hd.
  destruct value_name as [name|].
  - destruct (QueryValueEx reg root sub_key name) as [[d t]| |e];
      try reflexivity.
    now destruct (_compare_values expected _).
  - destruct (QueryValue reg root sub_key) as [s| |e]; try reflexivity.
    now destruct (_compare_values expected _).
Qed.

Lemma classify_named_plain reg root sub_key vs :
  forall acc,
    forallb parsed_shape (dict_values vs) = true ->
    forallb plain_status (dict_values acc) = true ->
    forallb plain_status
      (dict_values (classify_named reg root sub_key vs acc)) = true.
Proof.
  induction vs as [|[n v] vs IH]; intros acc Hvs Hacc; [exact Hacc|].
  simpl in Hvs. apply andb_true_iff in Hvs. destruct Hvs as [Hv Hvs].
  unfold classify_named. cbn [fold_left fst snd].
  apply IH; [assumption|]. apply forallb_dict_set; [assumption|].
  now apply classify_plain, parsed_shape_not_delete.
Qed.

Lemma missing_named_plain vs :
  forall acc,
    forallb plain_status (dict_values acc) = true ->
    forallb plain_status (dict_values (missing_named vs acc)) = true.
Proof.
  induction vs as [|[n v] vs IH]; intros acc Hacc; [exact Hacc|].
  simpl. apply IH. now apply forallb_dict_set.
Qed.

Lemma check_key_status_plain reg key_path kd log :
  key_parsed_shape kd = true ->
  plain_entries (fst (_check_key_status reg key_path kd log)) = true.
Proof.
  intros Hkd. unfold key_parsed_shape in Hkd.
  apply andb_true_iff in Hkd. destruct Hkd as [Hv Hd].
  unfold _check_key_status.
  destruct (_parse_key_path key_path) as [root_key sub_key].
  destruct (no_root root_key); [reflexivity|].
  unfold bind, call, ret.
  destruct (OpenKey reg _ sub_key) as [u| |e]; [| |reflexivity].
  - assert (Hdd : forall dv, declared_default kd = Some dv ->
                             parsed_shape dv = true).
    { unfold declared_default. intros dv.
      destruct (default_value kd) as [dv0|]; [|discriminate].
      destruct (nonempty_value dv0); [|discriminate].
      now intros [= <-]. }
    destruct (declared_default kd) as [dv|].
    + rewrite check_value_status_spec, check_named_spec.
      unfold plain_entries. cbn [fst ks_values].
      apply classify_named_plain; [assumption|]. cbn.
      rewrite classify_plain; [reflexivity|].
      now apply parsed_shape_not_delete, Hdd.
    + rewrite check_named_spec. unfold plain_entries. cbn [fst ks_values].
      now apply classify_named_plain.
  - unfold plain_entries. cbn [fst ks_values].
    apply missing_named_plain. now destruct (declared_default kd).
Qed.

Lemma check_keys_plain reg ks :
  forall acc log,
    forallb key_parsed_shape (dict_values ks) = true ->
    forallb plain_entries (dict_values (snd acc)) = true ->
    forallb plain_entries
      (dict_values (snd (fst (check_keys reg ks acc log)))) = true.
Proof.
  induction ks as [|[key_path kd] ks IH]; intros acc log Hks Hacc;
    [exact Hacc|].
  simpl in Hks. apply andb_true_iff in Hks. destruct Hks as [Hkd Hks].
  rewrite check_keys_step.
  pose proof (check_key_status_plain reg key_path kd log Hkd) as Hp.
  destruct (_check_key_status reg key_path kd log) as [key_status log'].
  apply IH; [assumption|]. simpl. now apply forallb_dict_set.
Qed.

Lemma check_deleted_plain reg ds :
  forall acc log,
    forallb plain_entries (dict_values acc) = true ->
    forallb plain_entries
      (dict_values (fst (check_deleted reg ds acc log))) = true.
Proof.
  induction ds as [|d ds IH]; intros acc log Hacc; [exact Hacc|].
  rewrite check_deleted_step.
  destruct (_key_exists reg d log) as [key_exists log'].
  apply IH. now apply forallb_dict_set.
Qed.

(** X8: every value that the parser stores, default or named, carries the
    keys ['type'] and ['data'] and no key ['action']; as the checker
    recognises a deletion by that key alone, no value entry of a report
    on a file ever has the status [should_not_exist] or
    [correctly_deleted]. *)
Theorem parsed_values_never_deletions (reg : live_registry)
    (content : string) (log : list event) :
  forallb key_parsed_shape (dict_values (keys (parse_content content))) = true
  /\ forallb plain_entries
       (dict_values (sr_keys (fst (check_file_status reg content log))))
     = true.
Proof.
  split; [apply parsed_shape_everywhere|].
  unfold check_file_status. rewrite sr_keys_check_parsed. cbv zeta.
  apply check_deleted_plain. apply check_keys_plain.
  - apply parsed_shape_everywhere.
  - reflexivity.
Qed.

(** ** The header and the error list of a parsed file *)

Lemma key_pattern_nonempty line k :
  key_pattern line = Some k -> k <> EmptyString.
Proof.
  unfold key_pattern. destruct line as [|c r]; [discriminate|].
  destruct (ascii_dec c "[") as [->|Hc].
  - destruct (span _ r) as [body tl].
    destruct body; [discriminate|].
    destruct tl as [|c' e]; [discriminate|].
    destruct (ascii_dec c' "]") as [->|Hc'].
    + destruct (at_end e); [|discriminate]. now intros [= <-].
    + intros H. exfalso. revert H.
      each_char c'; try discriminate. now elim Hc'.
  - intros H. exfalso. revert H.
    each_char c; try discriminate. now elim Hc.
Qed.

(** What one pass of the loop does to the header, to the open key and to
    the error list. *)
Lemma parse_line_report st raw st' b :
  key_state st b ->
  parse_line st raw = Next st' ->
  version (result st')
  = (if is_header (strip raw) then Some (strip raw)
     else version (result st))
  /\ line_number st' = S (line_number st)
  /\ key_state st' (opens_key (strip raw) || b)
  /\ errors (result st')
     = List.app (errors (result st))
         (if opens_key (strip raw) then []
          else if reported b (strip raw)
               then [error_at (S (line_number st)) (strip raw)]
               else []).
Proof.
  unfold key_state, parse_line, is_header, opens_key, reported, passed_over.
  intros Hb.
  destruct ((strip raw =? EmptyString) || startswith ";" (strip raw)).
  { intros [= <-]. cbn. now rewrite List.app_nil_r. }
  destruct (startswith "Windows Registry Editor" (strip raw)).
  { intros [= <-]. cbn. now rewrite List.app_nil_r. }
  destruct (key_pattern (strip raw)) as [k|] eqn:Ek.
  { pose proof (key_pattern_nonempty _ _ Ek) as Hk.
    destruct (dict_mem (keys (result st)) k);
      intros [= <-]; cbn; now rewrite List.app_nil_r. }
  destruct (delete_key_pattern (strip raw)) as [d|] eqn:Ed.
  { apply delete_key_pattern_shadowed in Ed. congruence. }
  destruct (current_key st) as [k|] eqn:Eck.
  2:{ subst b. intros [= <-]. cbn. auto. }
  destruct Hb as [Hk ->].
  destruct (k =? EmptyString) eqn:Ee.
  { apply String.eqb_eq in Ee. contradiction. }
  destruct (default_value_pattern (strip raw)) as [rhs|].
  { destruct (dict_get (keys (result st)) k); [|discriminate].
    intros [= <-]. cbn. rewrite List.app_nil_r. auto. }
  destruct (value_pattern (strip raw)) as [[value_name value_raw]|].
  { destruct (dict_get (keys (result st)) k); [|discriminate].
    intros [= <-]. cbn. rewrite List.app_nil_r. auto. }
  intros [= <-]. cbn. auto.
Qed.

Lemma steps_report lines :
  forall st st' b,
    key_state st b ->
    steps st lines = Next st' ->
    version (result st')
    = fold_left
        (fun acc raw => if is_header (strip raw) then Some (strip raw)
                        else acc)
        lines (version (result st))
    /\ errors (result st')
       = List.app (errors (result st)) (errors_of (line_number st) b lines).
Proof.
  induction lines as [|raw lines IH]; simpl; intros st st' b Hb H.
  - injection H as <-. now rewrite List.app_nil_r.
  - destruct (parse_line st raw) as [st1|st1 e] eqn:H1; [|discriminate].
    destruct (parse_line_report st raw st1 b Hb H1) as (Hv & Hn & Hk & He).
    destruct (IH st1 st' _ Hk H) as [Hv' He'].
    rewrite Hv', He', Hv, He, Hn. split; [reflexivity|].
    rewrite <- List.app_assoc.
    destruct (opens_key (strip raw)); [reflexivity|].
    now destruct (reported b (strip raw)).
Qed.

Lemma last_header_after pre :
  forall acc raw post,
    is_header (strip raw) = true ->
    forallb (fun l => negb (is_header (strip l))) post = true ->
    fold_left
      (fun acc raw => if is_header (strip raw) then Some (strip raw)
                      else acc)
      (List.app pre (raw :: post)) acc
    = Some (strip raw).
Proof.
  intros acc raw post Hh Hpost. rewrite fold_left_app. simpl. rewrite Hh.
  clear Hh. induction post as [|l post IH]; [reflexivity|].
  simpl in Hpost |- *. apply andb_true_iff in Hpost. destruct Hpost as [Hl Hp].
  apply negb_true_iff in Hl. rewrite Hl. now apply IH.
Qed.

(** X9: the version of a parsed file is its last header line, stripped:
    of several lines that start with [Windows Registry Editor] a later
    one replaces an earlier one, wherever in the file they stand; a file
    without such a line has no version. *)
Theorem version_is_last_header (content : string) :
  version (parse_content content) = last_header (splitlines content)
  /\ (forall pre raw post,
        is_header (strip raw) = true ->
        forallb (fun l => negb (is_header (strip l))) post = true ->
        last_header (List.app pre (raw :: post)) = Some (strip raw))
  /\ (forall lines,
        forallb (fun l => negb (is_header (strip l))) lines = true ->
        last_header lines = None).
Proof.
  split; [|split].
  - unfold parse_content, parse_lines.
    destruct (steps_next (splitlines content) initial initial_key_open)
      as (st' & H & _).
    rewrite H.
    now destruct (steps_report _ initial st' false eq_refl H) as [Hv _].
  - intros pre raw post. apply last_header_after.
  - intros lines. unfold last_header.
    induction lines as [|l lines IH]; [reflexivity|].
    simpl. intros Hl. apply andb_true_iff in Hl. destruct Hl as [Hl Hp].
    apply negb_true_iff in Hl. rewrite Hl. now apply IH.
Qed.

(** X10: the error list of a parsed file has exactly one entry, with the
    number and the stripped text of the line, for every line that is
    neither blank, a comment, a header nor a key line and that either
    stands before the first key line or is no line of a default or named
    value, in the order of the lines; it has no other entry, so the loop
    never reports a [Parsing-Fehler]. *)
Theorem errors_characterised (content : string) :
  errors (parse_content content) = errors_of 0 false (splitlines content).
Proof.
  unfold parse_content, parse_lines.
  destruct (steps_next (splitlines content) initial initial_key_open)
    as (st' & H & _).
  rewrite H.
  now destruct (steps_report _ initial st' false eq_refl H) as [_ He].
Qed.

(** ** Numbers of any width *)

Lemma hex_digit_facts c :
  is_hex_digit c = true ->
  (c =? "_")%char = false /\ isspace c = false
  /\ exists d, digit_value c = Some d /\ (d <? 16)%N = true
               /\ HexString.ascii_to_digit c = Some d.
Proof.
  each_char c; intros H; try discriminate H;
    (split; [reflexivity|]); (split; [reflexivity|]);
    eexists; repeat split.
Qed.

Lemma scan_hex_digits (s : string) :
  forall acc any,
    hex_digits s = true ->
    scan_digits 16 false acc any s
    = Some (HexString.Raw.to_N s acc,
            any || negb (s =? EmptyString), EmptyString).
Proof.
  induction s as [|c s IH]; intros acc any H.
  - simpl. now rewrite orb_false_r.
  - simpl in H. apply andb_true_iff in H. destruct H as [Hc Hs].
    destruct (hex_digit_facts c Hc) as (Hus & _ & d & Hd & Hlt & Hlib).
    cbn [scan_digits HexString.Raw.to_N]. rewrite Hus, Hd, Hlt, Hlib.
    rewrite (IH _ _ Hs). rewrite orb_true_r.
    now rewrite N.mul_comm, N.add_comm.
Qed.

Lemma int_of_hex_digits (s : string) :
  hex_digits s = true -> s <> EmptyString ->
  int_of_str 16 s = Some (hex_number s).
Proof.
  intros H Hne. destruct s as [|c s]; [contradiction|].
  pose proof (scan_hex_digits (String c s) 0%N false H) as Hscan.
  unfold hex_number, int_of_str, int_of_text.
  simpl in H. apply andb_true_iff in H. destruct H as [Hc Hs].
  destruct s as [|x s].
  - revert Hscan. each_char c; try discriminate Hc; intros Hscan;
      cbn [skip_space int_space ord N_of_ascii N_of_digits];
      cbv beta iota; try (rewrite Hscan; reflexivity);
      cbn; reflexivity.
  - simpl in Hs. apply andb_true_iff in Hs. destruct Hs as [Hx Hs].
    revert Hscan. each_char c; try discriminate Hc; intros Hscan;
      try (cbn -[scan_digits]; cbn -[scan_digits] in Hscan;
           rewrite Hscan; reflexivity).
    revert Hscan. each_char x; try discriminate Hx; intros Hscan;
      cbn -[scan_digits]; cbn -[scan_digits] in Hscan;
      rewrite Hscan; reflexivity.
Qed.

Lemma hex_digits_no_space s : hex_digits s = true -> no_space s = true.
Proof.
  apply forallb_str_impl. intros c H.
  destruct (hex_digit_facts c H) as (_ & H1 & _). now rewrite H1.
Qed.

Lemma to_N_bounds (s : string) :
  hex_digits s = true ->
  forall acc,
    (acc * 16 ^ N.of_nat (String.length s) <= HexString.Raw.to_N s acc
     /\ HexString.Raw.to_N s acc
        < (acc + 1) * 16 ^ N.of_nat (String.length s))%N.
Proof.
  induction s as [|c s IH]; intros H acc.
  - simpl. lia.
  - simpl in H. apply andb_true_iff in H. destruct H as [Hc Hs].
    destruct (hex_digit_facts c Hc) as (_ & _ & d & _ & Hlt & Hlib).
    apply N.ltb_lt in Hlt.
    cbn [HexString.Raw.to_N String.length]. rewrite Hlib.
    rewrite Nat2N.inj_succ, N.pow_succ_r'.
    specialize (IH Hs).
    assert (Hp : (0 < 16 ^ N.of_nat (String.length s))%N)
      by (apply N.neq_0_lt_0, N.pow_nonzero; discriminate).
    match goal with
    | |- context [HexString.Raw.to_N s ?a] => destruct (IH a) as [Hlo Hhi]
    end.
    split; nia.
Qed.

Lemma leading_digit_bound c (s : string) :
  is_hex_digit c = true -> (c =? "0")%char = false ->
  hex_digits s = true ->
  (16 ^ N.of_nat (String.length s) <= HexString.Raw.to_N (String c s) 0)%N.
Proof.
  intros Hc H0 Hs. cbn [HexString.Raw.to_N].
  assert (Hd : exists d, HexString.ascii_to_digit c = Some d /\ (1 <= d)%N).
  { revert Hc H0. each_char c; intros Hc H0;
      try discriminate Hc; try discriminate H0;
      eexists; (split; [reflexivity | cbv; discriminate]). }
  destruct Hd as (d & -> & Hd).
  match goal with
  | |- context [HexString.Raw.to_N s ?a] =>
      destruct (to_N_bounds s Hs a) as [Hlo _];
      assert (Ha : (1 <= a)%N) by lia
  end.
  assert (Hp : (0 < 16 ^ N.of_nat (String.length s))%N)
    by (apply N.neq_0_lt_0, N.pow_nonzero; discriminate).
  nia.
Qed.

(** X11: after [dword:] and after [qword:] the parser reads a string of
    hexadecimal digits of any length, in either case, as the number it
    denotes, without an error entry: a string of n digits gives a number
    below 16^n, and one whose first digit is not zero a number of at
    least 16^(n-1), so nine digits after [dword:] give a REG_DWORD of
    2^32 or more. *)
Theorem number_width_unchecked (h : string) :
  hex_digits h = true -> h <> EmptyString ->
  _parse_value ("dword:" ++ h) = val "REG_DWORD" (PInt (hex_number h))
  /\ _parse_value ("qword:" ++ h) = val "REG_QWORD" (PInt (hex_number h))
  /\ (0 <= hex_number h < 16 ^ Z.of_nat (String.length h))%Z
  /\ (startswith "0" h = false ->
      16 ^ (Z.of_nat (String.length h) - 1) <= hex_number h)%Z.
Proof.
  intros Hh Hne. split; [|split; [|split]].
  - unfold _parse_value.
    rewrite (strip_tagged "word:" h "d");
      [|reflexivity|reflexivity|now apply hex_digits_no_space].
    cbn -[int_of_str]. now rewrite prefix_nil, int_of_hex_digits.
  - unfold _parse_value.
    rewrite (strip_tagged "word:" h "q");
      [|reflexivity|reflexivity|now apply hex_digits_no_space].
    cbn -[int_of_str]. now rewrite prefix_nil, int_of_hex_digits.
  - unfold hex_number. destruct (to_N_bounds h Hh 0%N) as [_ Hhi].
    split; [lia|].
    rewrite N.mul_1_l in Hhi. apply N2Z.inj_lt in Hhi.
    rewrite N2Z.inj_pow, nat_N_Z in Hhi. exact Hhi.
  - intros H0. destruct h as [|c s]; [contradiction|].
    simpl in Hh. apply andb_true_iff in Hh. destruct Hh as [Hc Hs].
    change (startswith "0" (String c s)) with
      (String.prefix (str1 "0") (String c s)) in H0.
    rewrite prefix_one in H0.
    pose proof (leading_digit_bound c s Hc H0 Hs) as Hlo.
    unfold hex_number. apply N2Z.inj_le in Hlo.
    rewrite N2Z.inj_pow, nat_N_Z in Hlo.
    cbn [String.length]. rewrite Nat2Z.inj_succ.
    replace (Z.succ (Z.of_nat (String.length s)) - 1)%Z
      with (Z.of_nat (String.length s)) by lia.
    exact Hlo.
Qed.

Lemma number_width_unchecked_witness :
  _parse_value "dword:1FFFFffff" = val "REG_DWORD" (PInt 8589934591)
  /\ (16 ^ 8 <= hex_number "1FFFFffff")%Z.
Proof.
  destruct (number_width_unchecked "1FFFFffff" eq_refl ltac:(discriminate))
    as (H1 & _ & _ & H4).
  split; [exact H1 | exact (H4 eq_refl)].
Defined.

(** ** The summary of a parsed file *)

Lemma sum_dict_set (d : dict Z) k v :
  sum_Z (dict_values (dict_set d k v))
  = (sum_Z (dict_values d)
     - match dict_get d k with Some n => n | None => 0 end + v)%Z.
Proof.
  induction d as [|[k' v'] d IH]; simpl; [lia|].
  destruct (k' =? k)%string; simpl; [lia|]. rewrite IH. lia.
Qed.

Lemma sum_count_type vt ty :
  sum_Z (dict_values (count_type vt ty)) = (sum_Z (dict_values vt) + 1)%Z.
Proof. unfold count_type. rewrite sum_dict_set. lia. Qed.

Lemma count_type_positive vt ty :
  (forall t n, dict_get vt t = Some n -> (1 <= n)%Z) ->
  forall t n, dict_get (count_type vt ty) t = Some n -> (1 <= n)%Z.
Proof.
  intros H t n. unfold count_type.
  destruct (String.eqb_spec ty t) as [<-|Hne].
  - rewrite dict_get_set_eq. intros [= <-].
    destruct (dict_get vt ty) as [m|] eqn:E; [|lia].
    specialize (H _ _ E). lia.
  - rewrite dict_get_set_neq by congruence. apply H.
Qed.

Lemma count_types_spec vs :
  forall vt,
    forallb parsed_shape vs = true ->
    exists vt',
      count_types vs vt = Some vt'
      /\ sum_Z (dict_values vt')
         = (sum_Z (dict_values vt) + Z.of_nat (List.length vs))%Z
      /\ ((forall t n, dict_get vt t = Some n -> (1 <= n)%Z) ->
          forall t n, dict_get vt' t = Some n -> (1 <= n)%Z).
Proof.
  induction vs as [|v vs IH]; intros vt Hs.
  - exists vt. simpl. repeat split; auto; lia.
  - simpl in Hs. apply andb_true_iff in Hs. destruct Hs as [Hv Hs].
    unfold parsed_shape in Hv.
    cbn [count_types]. destruct (v_type v) as [ty|]; [|discriminate].
    destruct (IH (count_type vt ty) Hs) as (vt' & -> & Hsum & Hpos).
    exists vt'. split; [reflexivity|]. split.
    + rewrite Hsum, sum_count_type. cbn [List.length]. lia.
    + intros H. apply Hpos. now apply count_type_positive.
Qed.

Lemma summary_key_spec s key_path kd :
  key_parsed_shape kd = true ->
  exists s',
    summary_key s key_path kd = Some s'
    /\ s_total_keys s' = s_total_keys s
    /\ s_deleted_keys s' = s_deleted_keys s
    /\ s_errors s' = s_errors s
    /\ s_total_values s' = (s_total_values s + values_of_key kd)%Z
    /\ sum_Z (dict_values (s_value_types s'))
       = (sum_Z (dict_values (s_value_types s)) + values_of_key kd)%Z
    /\ ((forall t n, dict_get (s_value_types s) t = Some n -> (1 <= n)%Z) ->
        forall t n, dict_get (s_value_types s') t = Some n -> (1 <= n)%Z)
    /\ s_root_keys s'
       = ListSet.set_add string_dec (root_of key_path) (s_root_keys s).
Proof.
  intros Hkd. unfold key_parsed_shape in Hkd.
  apply andb_true_iff in Hkd. destruct Hkd as [Hv Hd].
  unfold summary_key, values_of_key.
  destruct (count_types_spec (dict_values (values kd)) (s_value_types s) Hv)
    as (vt & -> & Hsum & Hpos).
  assert (Hlen : List.length (dict_values (values kd))
                 = List.length (values kd)) by apply length_map.
  rewrite Hlen in Hsum.
  unfold has_default.
  assert (Hdone : forall vt' d,
    sum_Z (dict_values vt')
    = (sum_Z (dict_values (s_value_types s))
       + (Z.of_nat (List.length (values kd)) + d))%Z ->
    ((forall t n, dict_get (s_value_types s) t = Some n -> (1 <= n)%Z) ->
     forall t n, dict_get vt' t = Some n -> (1 <= n)%Z) ->
    exists s',
      Some (mk_summary (s_total_keys s) (s_deleted_keys s)
              (s_total_values s + Z.of_nat (List.length (values kd)) + d)
              vt' (s_errors s)
              (ListSet.set_add string_dec
                 (hd EmptyString (split backslash key_path))
                 (s_root_keys s))) = Some s'
      /\ s_total_keys s' = s_total_keys s
      /\ s_deleted_keys s' = s_deleted_keys s
      /\ s_errors s' = s_errors s
      /\ s_total_values s'
         = (s_total_values s + (Z.of_nat (List.length (values kd)) + d))%Z
      /\ sum_Z (dict_values (s_value_types s'))
         = (sum_Z (dict_values (s_value_types s))
            + (Z.of_nat (List.length (values kd)) + d))%Z
      /\ ((forall t n, dict_get (s_value_types s) t = Some n -> (1 <= n)%Z) ->
          forall t n, dict_get (s_value_types s') t = Some n -> (1 <= n)%Z)
      /\ s_root_keys s'
         = ListSet.set_add string_dec (root_of key_path) (s_root_keys s)).
  { intros vt' d H1 H2. eexists. split; [reflexivity|].
    cbn [s_total_keys s_deleted_keys s_errors s_total_values s_value_types
         s_root_keys].
    split; [reflexivity|]. split; [reflexivity|]. split; [reflexivity|].
    split; [lia|]. split; [exact H1|]. split; [exact H2 | reflexivity]. }
  destruct (default_value kd) as [dv|].
  - destruct (nonempty_value dv).
    + unfold parsed_shape in Hd.
      destruct (v_type dv) as [ty|]; [|discriminate].
      apply Hdone.
      * rewrite sum_count_type, Hsum. lia.
      * intros H. now apply count_type_positive, Hpos.
    + apply Hdone; [rewrite Hsum; lia | exact Hpos].
  - apply Hdone; [rewrite Hsum; lia | exact Hpos].
Qed.

Lemma summary_keys_spec ks :
  forall s,
    forallb key_parsed_shape (dict_values ks) = true ->
    exists s',
      summary_keys (map (fun e => (fst e, key_dict_of (snd e))) ks) s = Some s'
      /\ s_total_keys s' = s_total_keys s
      /\ s_deleted_keys s' = s_deleted_keys s
      /\ s_errors s' = s_errors s
      /\ s_total_values s'
         = (s_total_values s + sum_Z (map values_of_key (dict_values ks)))%Z
      /\ sum_Z (dict_values (s_value_types s'))
         = (sum_Z (dict_values (s_value_types s))
            + sum_Z (map values_of_key (dict_values ks)))%Z
      /\ ((forall t n, dict_get (s_value_types s) t = Some n -> (1 <= n)%Z) ->
          forall t n, dict_get (s_value_types s') t = Some n -> (1 <= n)%Z)
      /\ (forall r, In r (s_root_keys s')
                    <-> In r (s_root_keys s)
                        \/ exists k, In k (dict_keys ks) /\ r = root_of k)
      /\ (NoDup (s_root_keys s) -> NoDup (s_root_keys s')).
Proof.
  induction ks as [|[key_path kd] ks IH]; intros s Hs.
  - exists s. simpl.
    split; [reflexivity|]. split; [reflexivity|]. split; [reflexivity|].
    split; [reflexivity|]. split; [lia|]. split; [lia|].
    split; [auto|]. split; [|auto].
    intros r. split; [auto|]. intros [H|(k & [] & _)]. exact H.
  - simpl in Hs. apply andb_true_iff in Hs. destruct Hs as [Hkd Hs].
    destruct (summary_key_spec s key_path kd Hkd)
      as (s1 & E1 & Ht1 & Hd1 & He1 & Hv1 & Hsum1 & Hpos1 & Hr1).
    destruct (IH s1 Hs)
      as (s' & E' & Ht' & Hd' & He' & Hv' & Hsum' & Hpos' & Hr' & Hn').
    exists s'. cbn [summary_keys map fst snd].
    assert (Ek : summary_key_dict s key_path (key_dict_of kd) = Some s1)
      by (destruct kd; exact E1).
    rewrite Ek.
    split; [exact E'|].
    split; [congruence|]. split; [congruence|]. split; [congruence|].
    split; [rewrite Hv', Hv1; simpl; lia|].
    split; [rewrite Hsum', Hsum1; simpl; lia|].
    split; [intros H; apply Hpos', Hpos1, H|]. split.
    + intros r. rewrite Hr', Hr1, ListSet.set_add_iff. simpl. split.
      * intros [[->|H]|(k & Hk & ->)]; eauto.
      * intros [H|(k & [<-|Hk] & ->)]; eauto.
    + intros Hn. apply Hn'. rewrite Hr1. now apply ListSet.set_add_nodup.
Qed.

Lemma summary_keys_key_error ks :
  forall s,
    existsb (fun e => lacks_key (snd e)) ks = true ->
    summary_keys ks s = None.
Proof.
  induction ks as [|[key_path kd] ks IH]; intros s H; [discriminate|].
  cbn [existsb snd] in H. cbn [summary_keys].
  destruct (summary_key_dict s key_path kd) as [s'|] eqn:E; [|reflexivity].
  apply IH. apply orb_true_iff in H. destruct H as [H|H]; [|exact H].
  exfalso. unfold summary_key_dict, lacks_key in *.
  destruct (kd_values kd), (kd_default_value kd); discriminate.
Qed.

(** X12: for the dictionary that [parse_content] returns, whose values
    all carry a type, [get_summary] raises no [KeyError]; [total_values]
    counts the named values of all keys and one more for each key with a
    default value, the counts in [value_types] are positive and add up
    to [total_values], and [root_keys] holds, once each, exactly the
    first components of the key paths.  For a dictionary without
    ['keys'], ['deleted_keys'] or ['errors'], or with a key dictionary
    without ['values'] or ['default_value'], it raises [KeyError]: so it
    does for the dictionary of [create_dword_entry]. *)
Theorem summary_histogram (p : parsed) :
  forallb key_parsed_shape (dict_values (keys p)) = true ->
  (exists s,
      get_summary (document_dict_of p) = Some s
      /\ s_total_keys s = Z.of_nat (List.length (keys p))
      /\ s_deleted_keys s = Z.of_nat (List.length (deleted_keys p))
      /\ s_errors s = Z.of_nat (List.length (errors p))
      /\ s_total_values s = sum_Z (map values_of_key (dict_values (keys p)))
      /\ sum_Z (dict_values (s_value_types s)) = s_total_values s
      /\ (forall t n, dict_get (s_value_types s) t = Some n -> (1 <= n)%Z)
      /\ (forall r, In r (s_root_keys s)
                    <-> exists k, In k (dict_keys (keys p)) /\ r = root_of k)
      /\ NoDup (s_root_keys s))
  /\ (forall d,
        dd_keys d = None \/ dd_deleted_keys d = None \/ dd_errors d = None ->
        get_summary d = None)
  /\ (forall ks ds es,
        existsb (fun e => lacks_key (snd e)) ks = true ->
        get_summary (mk_document_dict (Some ks) ds es) = None)
  /\ (forall key_path value_name value_data,
        get_summary (dword_entry_dict key_path value_name value_data) = None).
Proof.
  intros Hs. split; [|split; [|split]].
  - unfold get_summary, document_dict_of.
    cbn [dd_keys dd_deleted_keys dd_errors]. rewrite length_map.
    destruct (summary_keys_spec (keys p)
                (mk_summary (Z.of_nat (List.length (keys p)))
                   (Z.of_nat (List.length (deleted_keys p))) 0 []
                   (Z.of_nat (List.length (errors p))) []) Hs)
      as (s & E & Ht & Hd & He & Hv & Hsum & Hpos & Hr & Hn).
    exists s. cbn in Ht, Hd, He, Hv, Hsum, Hpos, Hr, Hn.
    split; [exact E|]. split; [exact Ht|]. split; [exact Hd|].
    split; [exact He|]. split; [exact Hv|].
    split; [rewrite Hsum, Hv; reflexivity|].
    split; [apply Hpos; discriminate|]. split.
    + intros r. rewrite Hr. split; [intros [[]|H]; exact H | auto].
    + apply Hn. constructor.
  - intros d. unfold get_summary.
    intros [H|[H|H]]; rewrite H;
      destruct (dd_keys d), (dd_deleted_keys d), (dd_errors d);
      try reflexivity; discriminate.
  - intros ks ds es H. unfold get_summary.
    cbn [dd_keys dd_deleted_keys dd_errors].
    destruct ds, es; try reflexivity. now apply summary_keys_key_error.
  - reflexivity.
Qed.

(** ** Deletions through the creator and the parser *)

Lemma generate_delete key_path value_name v :
  v_action v = Some "delete" ->
  _generate_content (single key_path value_name v) None None EmptyString
  = Some (text_of key_path value_name "-").
Proof.
  intros Ha. unfold _generate_content, single.
  cbn [keys key_lines default_value values value_lines].
  rewrite Ha. reflexivity.
Qed.

Lemma roundtrip_delete_only d :
  key_ok d = true ->
  roundtrip (create_delete_key_entry d)
  = Some (mk_parsed (Some header) [(String "-" d, mk_key [] None)] [] []).
Proof.
  intros Hd. pose proof (key_ok_no_linebreak d Hd) as Hlb.
  unfold key_ok in Hd.
  apply andb_true_iff in Hd. destruct Hd as [Hd _].
  apply andb_true_iff in Hd. destruct Hd as [_ Hb].
  unfold roundtrip, create_delete_key_entry, _generate_content.
  cbn [keys key_lines deleted_keys deleted_lines header_lines truthy orb
       List.app].
  change (join (str1 newline)
            ["Windows Registry Editor Version 5.00"; EmptyString;
             "[-" ++ d ++ "]"; EmptyString])
    with (header
          ++ String newline
               (String newline
                  (("[" ++ String "-" d ++ "]")
                   ++ String newline EmptyString))).
  unfold parse_content, parse_lines.
  rewrite (splitlines_line header _ eq_refl).
  rewrite splitlines_newline.
  rewrite (splitlines_line ("[" ++ String "-" d ++ "]") EmptyString
             (no_linebreak_key_line (String "-" d) Hlb)).
  cbn [splitlines steps].
  change (parse_line initial header)
    with (Next (mk_pstate (mk_parsed (Some header) [] [] []) None 1)).
  cbv iota.
  change (parse_line (mk_pstate (mk_parsed (Some header) [] [] []) None 1)
            EmptyString)
    with (Next (mk_pstate (mk_parsed (Some header) [] [] []) None 2)).
  cbv iota.
  rewrite (parse_line_key
             (mk_pstate (mk_parsed (Some header) [] [] []) None 2)
             (String "-" d));
    [reflexivity | discriminate | exact Hb | reflexivity].
Qed.

(** X13: no deletion survives the way through the creator and the
    parser.  The entry of [create_delete_value_entry] is written with the
    marker and read back with the type [DELETE] and without the action
    [delete]; a value of that type is written as the text [None] in
    quotes and read back as a REG_SZ string; the entry of
    [create_delete_key_entry] is written with its marker and read back as
    an ordinary key whose name starts with a minus sign, while the list
    of deleted keys comes back empty. *)
Theorem deletions_not_round_tripped (key_path value_name d : string) :
  key_ok key_path = true -> name_ok value_name = true -> key_ok d = true ->
  roundtrip (create_delete_value_entry key_path value_name)
  = Some (reparsed key_path value_name delete_value)
  /\ roundtrip (single key_path value_name delete_value)
     = Some (reparsed key_path value_name (val "REG_SZ" (PStr "None")))
  /\ roundtrip (create_delete_key_entry d)
     = Some (mk_parsed (Some header) [(String "-" d, mk_key [] None)] [] []).
Proof.
  intros Hk Hn Hd. split; [|split].
  - unfold roundtrip.
    change (create_delete_value_entry key_path value_name)
      with (single key_path value_name
              (mk_value None None None (Some "delete"))).
    rewrite (generate_delete key_path value_name
               (mk_value None None None (Some "delete")) eq_refl).
    rewrite parse_text; auto. discriminate.
  - rewrite (roundtrip_text key_path value_name delete_value
               (q ++ "None" ++ q)); auto. discriminate.
  - now apply roundtrip_delete_only.
Qed.

Lemma deletions_not_round_tripped_witness :
  roundtrip (create_delete_value_entry test_key "Flag")
  = Some (reparsed test_key "Flag" delete_value)
  /\ roundtrip (create_delete_key_entry test_key)
     = Some (mk_parsed (Some header)
               [(String "-" test_key, mk_key [] None)] [] []).
Proof.
  destruct (deletions_not_round_tripped test_key "Flag" test_key
              eq_refl eq_refl eq_refl) as (H1 & _ & H3).
  split; [exact H1 | exact H3].
Defined.

Lemma summary_histogram_witness :
  exists s,
    get_summary (document_dict_of (parse_content doc_flag)) = Some s
    /\ sum_Z (dict_values (s_value_types s)) = s_total_values s.
Proof.
  assert (H : forallb key_parsed_shape
                (dict_values (keys (parse_content doc_flag))) = true)
    by (vm_compute; reflexivity).
  destruct (summary_histogram (parse_content doc_flag) H)
    as ((s & E & _ & _ & _ & _ & Hs & _) & _).
  exists s. split; [exact E | exact Hs].
Defined.

(** ** Whole documents through the creator and the parser *)

Lemma join_cons sep a (ls : list string) :
  ls <> [] -> join sep (a :: ls) = a ++ sep ++ join sep ls.
Proof. destruct ls; [contradiction | reflexivity]. Qed.

Lemma join_app sep (l1 l2 : list string) :
  l1 <> [] -> l2 <> [] ->
  join sep (List.app l1 l2) = join sep l1 ++ sep ++ join sep l2.
Proof.
  intros H1 H2. induction l1 as [|a l1 IH]; [contradiction|].
  destruct l1 as [|b l1].
  - simpl List.app. now rewrite join_cons.
  - change (List.app (a :: b :: l1) l2) with (a :: List.app (b :: l1) l2).
    rewrite join_cons by discriminate.
    rewrite IH by discriminate.
    rewrite (join_cons sep a (b :: l1)) by discriminate.
    now rewrite !str_app_assoc.
Qed.

Lemma split_nonempty sep s : split sep s <> [].
Proof.
  destruct s as [|c s]; [discriminate|]. simpl.
  destruct (c =? sep)%char; [discriminate|].
  destruct (split sep s); discriminate.
Qed.

Lemma join_split sep s : join (str1 sep) (split sep s) = s.
Proof.
  induction s as [|c s IH]; [reflexivity|]. simpl.
  destruct (Ascii.eqb_spec c sep) as [->|Hne].
  - rewrite join_cons by apply split_nonempty. now rewrite IH.
  - destruct (split sep s) as [|h t] eqn:E; [now elim (split_nonempty sep s)|].
    rewrite <- IH. destruct t; reflexivity.
Qed.

Lemma physical_nonempty ls : ls <> [] -> physical ls <> [].
Proof.
  destruct ls as [|a ls]; [contradiction|]. intros _. unfold physical. simpl.
  pose proof (split_nonempty newline a).
  destruct (split newline a); [contradiction | discriminate].
Qed.

Lemma physical_app l1 l2 :
  physical (List.app l1 l2) = List.app (physical l1) (physical l2).
Proof. apply flat_map_app. Qed.

(** Joining pieces by line feeds gives the text of their lines. *)
Lemma join_physical ls : join nl ls = join nl (physical ls).
Proof.
  induction ls as [|a ls IH]; [reflexivity|].
  change (physical (a :: ls)) with (List.app (split newline a) (physical ls)).
  destruct ls as [|b ls].
  - simpl physical. rewrite List.app_nil_r. symmetry. apply join_split.
  - rewrite join_cons by discriminate.
    rewrite join_app;
      [|apply split_nonempty | apply physical_nonempty; discriminate].
    rewrite <- IH. unfold nl at 3. now rewrite join_split.
Qed.

Lemma splitlines_join (L : list string) :
  Forall (fun l => no_linebreak l = true) L ->
  splitlines (join nl (List.app L [EmptyString])) = L.
Proof.
  induction 1 as [|a L Ha HL IH]; [reflexivity|].
  change (List.app (a :: L) [EmptyString])
    with (a :: List.app L [EmptyString]).
  rewrite join_cons by (destruct L; discriminate).
  change (a ++ nl ++ join nl (List.app L [EmptyString]))
    with (a ++ String newline (join nl (List.app L [EmptyString]))).
  rewrite (splitlines_line _ _ Ha). now rewrite IH.
Qed.

(** A final blank line leaves the parsed document as it is. *)
Lemma parse_lines_blank_end st (L : list string) :
  parse_lines st (List.app L [EmptyString]) = parse_lines st L.
Proof.
  unfold parse_lines. revert st.
  induction L as [|a L IH]; intros st.
  - reflexivity.
  - simpl. destruct (parse_line st a) as [st1|st1 e]; [apply IH | reflexivity].
Qed.

Lemma parse_joined (ls : list string) :
  ls <> [] -> last ls "x" = EmptyString ->
  Forall (fun l => no_linebreak l = true) (physical ls) ->
  parse_content (join nl ls) = parse_lines initial (physical ls).
Proof.
  intros Hne Hlast Hall.
  assert (Hp : physical ls
               = List.app (physical (removelast ls)) [EmptyString]).
  { rewrite (app_removelast_last "x" Hne) at 1. rewrite Hlast.
    now rewrite physical_app. }
  rewrite join_physical, Hp. unfold parse_content.
  rewrite Hp in Hall. apply Forall_app in Hall. destruct Hall as [Hall _].
  rewrite (splitlines_join _ Hall). symmetry. apply parse_lines_blank_end.
Qed.

Lemma distinct_NoDup l : distinct l = true -> NoDup l.
Proof.
  induction l as [|x l IH]; intros H; [constructor|].
  simpl in H. apply andb_true_iff in H. destruct H as [Hx Hl].
  constructor; [|now apply IH].
  intros Hin. apply negb_true_iff in Hx.
  assert (E : existsb (String.eqb x) l = true)
    by (apply existsb_exists; exists x; split; [exact Hin | apply String.eqb_refl]).
  congruence.
Qed.

Section DictEnd.
Context {V : Type}.

Lemma dict_get_notin (d : dict V) k :
  ~ In k (dict_keys d) -> dict_get d k = None.
Proof.
  induction d as [|[k' v] d IH]; intros Hn; [reflexivity|]. simpl.
  destruct (String.eqb_spec k' k) as [->|Hne].
  - elim Hn. now left.
  - apply IH. intros Hin. apply Hn. now right.
Qed.

Lemma dict_set_fresh (d : dict V) k v :
  dict_get d k = None -> dict_set d k v = List.app d [(k, v)].
Proof.
  induction d as [|[k' v'] d IH]; intros Hg; [reflexivity|]. simpl in Hg |- *.
  destruct (k' =? k)%string; [discriminate|]. now rewrite IH.
Qed.

Lemma dict_get_end (d : dict V) k v :
  dict_get d k = None -> dict_get (List.app d [(k, v)]) k = Some v.
Proof.
  intros Hg. rewrite <- dict_set_fresh by exact Hg. apply dict_get_set_eq.
Qed.

Lemma dict_set_end (d : dict V) k v w :
  dict_get d k = None ->
  dict_set (List.app d [(k, v)]) k w = List.app d [(k, w)].
Proof.
  induction d as [|[k' v'] d IH]; intros Hg; simpl in Hg |- *.
  - now rewrite String.eqb_refl.
  - destruct (k' =? k)%string; [discriminate|]. now rewrite IH.
Qed.
End DictEnd.

Lemma all_ints l : forallb is_int l = true -> exists zs, l = map PInt zs.
Proof.
  induction l as [|d l IH]; intros H; [now exists []|].
  simpl in H. apply andb_true_iff in H. destruct H as [Hd Hl].
  destruct (IH Hl) as (zs & ->). destruct d; try discriminate.
  now exists (z :: zs).
Qed.

(** How a plain value is written, and that its line reads back as the
    value. *)
Lemma plain_value_written v :
  plain_value v = true ->
  exists r two,
    _format_value v = Some (r ++ tail_of two)
    /\ v_action v = None
    /\ r <> EmptyString /\ r <> "-"
    /\ no_linebreak r = true /\ rstrip r = r
    /\ _parse_value r = v.
Proof.
  destruct v as [[ty|] [d|] [e|] [a|]]; try discriminate.
  unfold plain_value.
  destruct (String.eqb_spec ty "REG_SZ") as [->|_].
  { destruct d as [|s|z|b|l]; try discriminate. intros Hs.
    exists (q ++ escape s ++ q), false. unfold tail_of.
    rewrite str_app_nil_r.
    split; [reflexivity|]. split; [reflexivity|].
    split; [discriminate|]. split.
    { unfold q. destruct (escape s); discriminate. }
    split; [|split].
    - rewrite !no_linebreak_app, (escape_no_linebreak s Hs). reflexivity.
    - rewrite <- str_app_assoc. now apply rstrip_end.
    - apply parse_value_sz. }
  destruct (String.eqb_spec ty "REG_DWORD") as [->|_].
  { destruct d as [|s|z|b|l]; try discriminate. intros _.
    destruct (tagged_rhs_ok "word:" (format_x 8 z) "d" eq_refl eq_refl eq_refl
                (hexish_no_space _ (format_x_hexish 8 z))) as (H1 & H2 & H3).
    exists ("dword:" ++ format_x 8 z), false. unfold tail_of.
    rewrite str_app_nil_r.
    split; [reflexivity|]. split; [reflexivity|].
    split; [exact H1|]. split; [discriminate|].
    split; [exact H2|]. split; [exact H3|]. apply parse_value_dword. }
  destruct (String.eqb_spec ty "REG_QWORD") as [->|_].
  { destruct d as [|s|z|b|l]; try discriminate. intros _.
    destruct (tagged_rhs_ok "word:" (format_x 16 z) "q" eq_refl eq_refl eq_refl
                (hexish_no_space _ (format_x_hexish 16 z))) as (H1 & H2 & H3).
    exists ("qword:" ++ format_x 16 z), false. unfold tail_of.
    rewrite str_app_nil_r.
    split; [reflexivity|]. split; [reflexivity|].
    split; [exact H1|]. split; [discriminate|].
    split; [exact H2|]. split; [exact H3|]. apply parse_value_qword. }
  cbn [orb].
  destruct (String.eqb_spec ty "REG_BINARY") as [->|_]; [|discriminate].
  destruct d as [|s|z|b|l]; try discriminate. intros H.
  apply andb_true_iff in H. destruct H as [Hl Hlen].
  apply Nat.leb_le in Hlen.
  destruct (all_ints l Hl) as (zs & ->). rewrite length_map in Hlen.
  destruct (tagged_rhs_ok "ex:" (join "," (map (format_x 2) zs)) "h"
              eq_refl eq_refl eq_refl (join_no_space zs)) as (H1 & H2 & H3).
  exists ("hex:" ++ join "," (map (format_x 2) zs)),
         (negb (List.length zs <=? 8)%nat).
  split.
  { change (mk_value (Some "REG_BINARY") (Some (PList (map PInt zs))) None None)
      with (val "REG_BINARY" (ints zs)).
    destruct (Nat.leb_spec (List.length zs) 8) as [Hs|Hb]; unfold tail_of, negb.
    - rewrite str_app_nil_r. now apply format_binary_short.
    - apply format_binary_line. lia. }
  split; [reflexivity|]. split; [exact H1|]. split; [discriminate|].
  split; [exact H2|]. split; [exact H3|]. apply parse_value_hex.
Qed.

Lemma parse_line_default st k kd r :
  current_key st = Some k -> k <> EmptyString ->
  dict_get (keys (result st)) k = Some kd ->
  r <> EmptyString -> without newline r = true -> rstrip r = r ->
  parse_line st ("@=" ++ r)
  = Next (mk_pstate
            (set_keys (result st)
               (dict_set (keys (result st)) k
                  (mk_key (values kd) (Some (_parse_value r)))))
            (Some k) (S (line_number st))).
Proof.
  intros Hck Hk Hget Hne Hv Hr. unfold parse_line.
  assert (E : strip ("@=" ++ r) = "@=" ++ r).
  { apply (strip_id "@"); [reflexivity|].
    now apply (rstrip_fix_app "@=" r). }
  rewrite E, Hck. apply String.eqb_neq in Hk. rewrite Hk.
  cbn [append default_value_pattern].
  rewrite (dot_plus_end_all r Hne Hv), Hget.
  reflexivity.
Qed.

Lemma physical_value pfx r two :
  without newline pfx = true -> without newline r = true ->
  split newline (pfx ++ r ++ tail_of two) = (pfx ++ r) :: tail_lines two.
Proof.
  intros Hp Hr.
  assert (H : without newline (pfx ++ r) = true)
    by (unfold without in *; now rewrite forallb_str_app, Hp, Hr).
  destruct two; unfold tail_of, tail_lines.
  - rewrite <- str_app_assoc. now rewrite split_piece.
  - rewrite str_app_nil_r. now apply split_last.
Qed.

Lemma set_keys_keys r : set_keys r (keys r) = r.
Proof. now destruct r. Qed.

Lemma set_keys_twice r a b : set_keys (set_keys r a) b = set_keys r b.
Proof. reflexivity. Qed.

Lemma steps_tail st two :
  exists st',
    steps st (tail_lines two) = Next st'
    /\ current_key st' = current_key st /\ result st' = result st.
Proof.
  destruct two; cbn [tail_lines steps].
  - rewrite (parse_line_blank st "  " eq_refl). eexists. now repeat split.
  - exists st. now repeat split.
Qed.

Lemma steps_value st k done pre dflt n v r two :
  current_key st = Some k -> k <> EmptyString ->
  keys (result st) = List.app done [(k, mk_key pre dflt)] ->
  dict_get done k = None -> dict_get pre n = None ->
  without dquote n = true ->
  r <> EmptyString -> r <> "-" -> no_linebreak r = true -> rstrip r = r ->
  _parse_value r = v ->
  exists st',
    steps st ((q ++ n ++ q ++ "=" ++ r) :: tail_lines two) = Next st'
    /\ current_key st' = Some k
    /\ result st'
       = set_keys (result st)
           (List.app done [(k, mk_key (List.app pre [(n, v)]) dflt)]).
Proof.
  intros Hck Hk Hkeys Hdone Hpre Hn Hne Hm Hlb Hr Hv.
  cbn [steps].
  rewrite (parse_line_value st k (mk_key pre dflt) n r Hck Hk);
    auto using no_linebreak_without_newline.
  2:{ rewrite Hkeys. now apply dict_get_end. }
  destruct (steps_tail (store_value st k (mk_key pre dflt) n (value_of r)) two)
    as (st' & -> & Hc' & Hr').
  exists st'. split; [reflexivity|]. split; [exact Hc'|].
  rewrite Hr'. unfold store_value, value_of. cbn [result values default_value].
  apply String.eqb_neq in Hm. rewrite Hm, Hv, Hkeys.
  rewrite dict_set_end by exact Hdone.
  now rewrite dict_set_fresh by exact Hpre.
Qed.

Lemma steps_default st k done r two dv :
  current_key st = Some k -> k <> EmptyString ->
  keys (result st) = List.app done [(k, mk_key [] None)] ->
  dict_get done k = None ->
  r <> EmptyString -> no_linebreak r = true -> rstrip r = r ->
  _parse_value r = dv ->
  exists st',
    steps st (("@=" ++ r) :: tail_lines two) = Next st'
    /\ current_key st' = Some k
    /\ result st'
       = set_keys (result st) (List.app done [(k, mk_key [] (Some dv))]).
Proof.
  intros Hck Hk Hkeys Hdone Hne Hlb Hr Hv.
  cbn [steps].
  rewrite (parse_line_default st k (mk_key [] None) r Hck Hk);
    auto using no_linebreak_without_newline.
  2:{ rewrite Hkeys. now apply dict_get_end. }
  match goal with
  | |- context [steps ?s (tail_lines two)] =>
      destruct (steps_tail s two) as (st' & -> & Hc' & Hr')
  end.
  exists st'. split; [reflexivity|]. split; [exact Hc'|].
  rewrite Hr'. cbn [result values]. rewrite Hv, Hkeys.
  now rewrite dict_set_end by exact Hdone.
Qed.

Lemma value_line_shape n r two :
  str1 dquote ++ n ++ str1 dquote ++ "=" ++ r ++ tail_of two
  = (q ++ n ++ q ++ "=") ++ r ++ tail_of two.
Proof. unfold q. now rewrite !str_app_assoc. Qed.

Lemma value_prefix_no_newline n :
  no_linebreak n = true -> without newline (q ++ n ++ q ++ "=") = true.
Proof.
  intros Hn. apply no_linebreak_without_newline.
  rewrite !no_linebreak_app, Hn. reflexivity.
Qed.

Lemma tail_lines_no_linebreak two :
  Forall (fun l => no_linebreak l = true) (tail_lines two).
Proof. destruct two; repeat constructor. Qed.

(** The lines written for the named values of a key are read back into
    the values, in their order. *)
Lemma value_lines_plain vs :
  forall st k done pre dflt,
    current_key st = Some k -> k <> EmptyString ->
    keys (result st) = List.app done [(k, mk_key pre dflt)] ->
    dict_get done k = None ->
    NoDup (dict_keys (List.app pre vs)) ->
    forallb (fun nv => name_ok (fst nv) && plain_value (snd nv)) vs = true ->
    exists vl st',
      value_lines vs = Some vl
      /\ Forall (fun l => no_linebreak l = true) (physical vl)
      /\ steps st (physical vl) = Next st'
      /\ current_key st' = Some k
      /\ result st'
         = set_keys (result st)
             (List.app done [(k, mk_key (List.app pre vs) dflt)]).
Proof.
  induction vs as [|[n v] vs IH];
    intros st k done pre dflt Hck Hk Hkeys Hdone Hnd Hall.
  - exists [], st. rewrite List.app_nil_r, <- Hkeys, set_keys_keys.
    split; [reflexivity|]. split; [constructor|].
    split; [reflexivity|]. split; [exact Hck | reflexivity].
  - simpl in Hall. apply andb_true_iff in Hall. destruct Hall as [Hnv Hall].
    apply andb_true_iff in Hnv. destruct Hnv as [Hn Hv].
    destruct (name_ok_parts _ Hn) as [Hq Hnl].
    destruct (plain_value_written v Hv)
      as (r & two & Hf & Ha & Hne & Hm & Hlb & Hr & Hp).
    assert (Hfresh : dict_get pre n = None).
    { apply dict_get_notin. intros Hin.
      unfold dict_keys in Hnd. rewrite map_app in Hnd. simpl in Hnd.
      apply NoDup_remove_2 in Hnd. apply Hnd, in_or_app. now left. }
    destruct (steps_value st k done pre dflt n v r two
                Hck Hk Hkeys Hdone Hfresh Hq Hne Hm Hlb Hr Hp)
      as (st1 & Hs1 & Hc1 & Hr1).
    assert (Hkeys1 : keys (result st1)
                     = List.app done
                         [(k, mk_key (List.app pre [(n, v)]) dflt)])
      by now rewrite Hr1.
    assert (Hnd1 : NoDup (dict_keys (List.app (List.app pre [(n, v)]) vs)))
      by now rewrite <- List.app_assoc.
    destruct (IH st1 k done (List.app pre [(n, v)]) dflt
                Hc1 Hk Hkeys1 Hdone Hnd1 Hall)
      as (vl & st' & Evl & Hfa & Hs' & Hc' & Hr').
    exists ((str1 dquote ++ n ++ str1 dquote ++ "=" ++ r ++ tail_of two) :: vl),
           st'.
    assert (Hphys : physical
                      ((str1 dquote ++ n ++ str1 dquote ++ "=" ++ r
                        ++ tail_of two) :: vl)
                    = List.app ((q ++ n ++ q ++ "=" ++ r) :: tail_lines two)
                        (physical vl)).
    { unfold physical at 1. cbn [flat_map]. fold (physical vl).
      rewrite value_line_shape, physical_value;
        auto using value_prefix_no_newline, no_linebreak_without_newline.
      now rewrite !str_app_assoc. }
    split.
    { cbn [value_lines]. rewrite Ha, Hf, Evl. reflexivity. }
    rewrite Hphys. split.
    { apply Forall_app. split; [|exact Hfa].
      constructor; [now apply no_linebreak_value_line|].
      apply tail_lines_no_linebreak. }
    split; [now rewrite (steps_app _ _ _ _ Hs1)|].
    split; [exact Hc'|].
    rewrite Hr', Hr1, set_keys_twice. now rewrite <- List.app_assoc.
Qed.

Lemma last_skip (a : string) (l1 l2 : list string) d :
  last (a :: List.app l1 (EmptyString :: l2)) d = last (EmptyString :: l2) d.
Proof.
  change (a :: List.app l1 (EmptyString :: l2))
    with (List.app (a :: l1) (EmptyString :: l2)).
  generalize (a :: l1). intros l.
  induction l as [|x l IH]; [reflexivity|].
  change (List.app (x :: l) (EmptyString :: l2))
    with (x :: List.app l (EmptyString :: l2)).
  rewrite <- IH. destruct l; reflexivity.
Qed.

(** The lines written for the keys of a document are read back into the
    keys, in their order. *)
Lemma key_lines_plain ks :
  forall st done,
    keys (result st) = done ->
    NoDup (dict_keys (List.app done ks)) ->
    forallb (fun kk => key_ok (fst kk) && plain_key (snd kk)) ks = true ->
    exists kl st',
      key_lines ks = Some kl
      /\ last (EmptyString :: kl) "x" = EmptyString
      /\ Forall (fun l => no_linebreak l = true) (physical kl)
      /\ steps st (physical kl) = Next st'
      /\ result st' = set_keys (result st) (List.app done ks).
Proof.
  induction ks as [|[k kd] ks IH]; intros st done Hkeys Hnd Hall.
  - exists [], st. rewrite List.app_nil_r, <- Hkeys, set_keys_keys.
    split; [reflexivity|]. split; [reflexivity|]. split; [constructor|].
    split; reflexivity.
  - simpl in Hall. apply andb_true_iff in Hall. destruct Hall as [Hkk Hall].
    apply andb_true_iff in Hkk. destruct Hkk as [Hkey Hkd].
    pose proof (key_ok_no_linebreak k Hkey) as Hklb.
    unfold key_ok in Hkey.
    apply andb_true_iff in Hkey. destruct Hkey as [Hkey _].
    apply andb_true_iff in Hkey. destruct Hkey as [Hk0 Hkb].
    apply negb_true_iff, String.eqb_neq in Hk0.
    unfold plain_key in Hkd.
    apply andb_true_iff in Hkd. destruct Hkd as [Hkd Hdv].
    apply andb_true_iff in Hkd. destruct Hkd as [Hdist Hvs].
    apply distinct_NoDup in Hdist.
    assert (Hfresh : dict_get done k = None).
    { apply dict_get_notin. intros Hin.
      unfold dict_keys in Hnd. rewrite map_app in Hnd. simpl in Hnd.
      apply NoDup_remove_2 in Hnd. apply Hnd, in_or_app. now left. }
    (* the key line *)
    assert (H1 : parse_line st ("[" ++ k ++ "]")
                 = Next (mk_pstate
                           (set_keys (result st)
                              (List.app done [(k, mk_key [] None)]))
                           (Some k) (S (line_number st)))).
    { rewrite (parse_line_key st k Hk0 Hkb).
      - now rewrite Hkeys, dict_set_fresh.
      - unfold dict_mem. now rewrite Hkeys, Hfresh. }
    set (st1 := mk_pstate
                  (set_keys (result st) (List.app done [(k, mk_key [] None)]))
                  (Some k) (S (line_number st))) in H1.
    (* the line of the default value *)
    assert (H2 : exists dl st2,
               match default_value kd with
               | Some dv =>
                   match _format_value dv with
                   | Some value_str => Some ["@=" ++ value_str]
                   | None => None
                   end
               | None => Some []
               end = Some dl
               /\ Forall (fun l => no_linebreak l = true) (physical dl)
               /\ steps st1 (physical dl) = Next st2
               /\ current_key st2 = Some k
               /\ result st2
                  = set_keys (result st)
                      (List.app done [(k, mk_key [] (default_value kd))])).
    { destruct (default_value kd) as [dv|].
      - destruct (plain_value_written dv Hdv)
          as (r & two & Hf & _ & Hne & _ & Hlb & Hr & Hp).
        destruct (steps_default st1 k done r two dv eq_refl Hk0 eq_refl
                    Hfresh Hne Hlb Hr Hp) as (st2 & Hs2 & Hc2 & Hr2).
        exists ["@=" ++ r ++ tail_of two], st2.
        assert (Hphys : physical ["@=" ++ r ++ tail_of two]
                        = ("@=" ++ r) :: tail_lines two).
        { unfold physical. cbn [flat_map]. rewrite List.app_nil_r.
          apply (physical_value "@=" r two eq_refl).
          now apply no_linebreak_without_newline. }
        rewrite Hf, Hphys. split; [reflexivity|]. split.
        { constructor; [|apply tail_lines_no_linebreak].
          change ("@=" ++ r) with (String "@" (String "=" r)).
          cbn [no_linebreak forallb_str]. exact Hlb. }
        split; [exact Hs2|]. split; [exact Hc2|]. exact Hr2.
      - exists [], st1. split; [reflexivity|]. split; [constructor|].
        split; [reflexivity|]. split; reflexivity. }
    destruct H2 as (dl & st2 & Edl & Hfa2 & Hs2 & Hc2 & Hr2).
    (* the lines of the named values *)
    assert (Hkeys2 : keys (result st2)
                     = List.app done [(k, mk_key [] (default_value kd))])
      by now rewrite Hr2.
    destruct (value_lines_plain (values kd) st2 k done [] (default_value kd)
                Hc2 Hk0 Hkeys2 Hfresh Hdist Hvs)
      as (vl & st3 & Evl & Hfa3 & Hs3 & Hc3 & Hr3).
    cbn [List.app] in Hr3.
    replace (mk_key (values kd) (default_value kd)) with kd in Hr3
      by now destruct kd.
    (* the blank line *)
    pose proof (parse_line_blank st3 EmptyString eq_refl) as H4.
    set (st4 := mk_pstate (result st3) (current_key st3)
                  (S (line_number st3))) in H4.
    (* the other keys *)
    assert (Hkeys4 : keys (result st4) = List.app done [(k, kd)])
      by (cbn [st4 result]; now rewrite Hr3).
    assert (Hnd4 : NoDup (dict_keys (List.app (List.app done [(k, kd)]) ks)))
      by now rewrite <- List.app_assoc.
    destruct (IH st4 _ Hkeys4 Hnd4 Hall)
      as (kl & st' & Ekl & Hlast & Hfa5 & Hs5 & Hr5).
    exists (("[" ++ k ++ "]")
              :: List.app dl (List.app vl (EmptyString :: kl))), st'.
    assert (Hphys : physical
                      (("[" ++ k ++ "]")
                         :: List.app dl (List.app vl (EmptyString :: kl)))
                    = List.app [("[" ++ k ++ "]")]
                        (List.app (physical dl)
                           (List.app (physical vl)
                              (List.app [EmptyString] (physical kl))))).
    { change (("[" ++ k ++ "]")
                :: List.app dl (List.app vl (EmptyString :: kl)))
        with (List.app [("[" ++ k ++ "]")]
                (List.app dl (List.app vl
                   (List.app [EmptyString] kl)))).
      rewrite !physical_app. f_equal.
      unfold physical. cbn [flat_map]. rewrite List.app_nil_r.
      apply split_last, no_linebreak_without_newline.
      now apply no_linebreak_key_line. }
    split.
    { cbn [key_lines]. rewrite Edl, Evl, Ekl. reflexivity. }
    split.
    { transitivity (last (EmptyString :: kl) "x"); [|exact Hlast].
      rewrite List.app_assoc.
      exact (last_skip EmptyString (("[" ++ k ++ "]") :: List.app dl vl)
               kl "x"). }
    rewrite Hphys. split.
    { apply Forall_app; split;
        [constructor; [now apply no_linebreak_key_line | constructor]|].
      apply Forall_app; split; [exact Hfa2|].
      apply Forall_app; split; [exact Hfa3|].
      apply Forall_app; split; [|exact Hfa5].
      constructor; [reflexivity | constructor]. }
    split.
    { assert (S1 : steps st [("[" ++ k ++ "]")] = Next st1)
        by (cbn [steps]; now rewrite H1).
      assert (S4 : steps st3 [EmptyString] = Next st4)
        by (cbn [steps]; now rewrite H4).
      rewrite (steps_app _ _ _ _ S1), (steps_app _ _ _ _ Hs2),
        (steps_app _ _ _ _ Hs3), (steps_app _ _ _ _ S4).
      exact Hs5. }
    rewrite Hr5. cbn [st4 result]. rewrite Hr3, Hr2, !set_keys_twice.
    now rewrite <- List.app_assoc.
Qed.

Lemma strip_comment x : exists y, strip (String ";" x) = String ";" y.
Proof.
  unfold strip. change (lstrip (String ";" x)) with (String ";" x).
  cbn [rstrip]. destruct (rstrip x) as [|c r]; eexists; reflexivity.
Qed.

Lemma startswith_semicolon c x :
  startswith ";" (String c x) = (c =? ";")%char.
Proof. exact (prefix_one ";" c x). Qed.

Lemma parse_line_comment st x :
  parse_line st (String ";" x)
  = Next (mk_pstate (result st) (current_key st) (S (line_number st))).
Proof.
  unfold parse_line. destruct (strip_comment x) as [y ->].
  rewrite startswith_semicolon. reflexivity.
Qed.

Lemma quiet_parts l :
  quiet l = true ->
  no_linebreak l = true /\ (l = EmptyString \/ exists x, l = String ";" x).
Proof.
  unfold quiet. intros H. apply andb_true_iff in H. destruct H as [Hl H].
  split; [exact Hl|]. apply orb_true_iff in H. destruct H as [H|H].
  - left. now apply String.eqb_eq.
  - right. destruct l as [|c x]; [discriminate|].
    rewrite startswith_semicolon in H.
    apply Ascii.eqb_eq in H. subst c. now exists x.
Qed.

Lemma quiet_comment x : no_linebreak x = true -> quiet ("; " ++ x) = true.
Proof.
  intros H. unfold quiet.
  change ("; " ++ x) with (String ";" (String " " x)).
  rewrite startswith_semicolon. cbn [no_linebreak forallb_str].
  fold (no_linebreak x). rewrite H. reflexivity.
Qed.

Lemma quiet_physical ls : forallb quiet ls = true -> physical ls = ls.
Proof.
  induction ls as [|l ls IH]; intros H; [reflexivity|].
  simpl in H. apply andb_true_iff in H. destruct H as [Hl Hls].
  destruct (quiet_parts l Hl) as [Hlb _].
  unfold physical. cbn [flat_map]. fold (physical ls).
  rewrite (split_last newline l (no_linebreak_without_newline l Hlb)).
  now rewrite (IH Hls).
Qed.

Lemma quiet_no_linebreak ls :
  forallb quiet ls = true -> Forall (fun l => no_linebreak l = true) ls.
Proof.
  intros H. apply Forall_forall. intros l Hin.
  rewrite forallb_forall in H. now destruct (quiet_parts l (H l Hin)).
Qed.

Lemma quiet_steps ls :
  forall st,
    forallb quiet ls = true ->
    exists st',
      steps st ls = Next st'
      /\ result st' = result st /\ current_key st' = current_key st.
Proof.
  induction ls as [|l ls IH]; intros st H.
  - exists st. now repeat split.
  - simpl in H. apply andb_true_iff in H. destruct H as [Hl Hls].
    assert (E : parse_line st l
                = Next (mk_pstate (result st) (current_key st)
                          (S (line_number st)))).
    { destruct (quiet_parts l Hl) as [_ [->|(x & ->)]].
      - now apply parse_line_blank.
      - apply parse_line_comment. }
    cbn [steps]. rewrite E.
    destruct (IH (mk_pstate (result st) (current_key st)
                    (S (line_number st))) Hls) as (st' & Hs & Hr & Hc).
    exists st'. now repeat split.
Qed.

Lemma last_app_nonempty (l1 l2 : list string) d :
  l2 <> [] -> last (List.app l1 l2) d = last l2 d.
Proof.
  intros H. induction l1 as [|x l1 IH]; [reflexivity|].
  cbn [List.app]. rewrite <- IH.
  destruct (List.app l1 l2) eqn:E; [|reflexivity].
  apply app_eq_nil in E. destruct E as [_ E]. contradiction.
Qed.

Lemma last_blank_app (a b : list string) :
  last (EmptyString :: a) "x" = EmptyString ->
  last (EmptyString :: b) "x" = EmptyString ->
  last (EmptyString :: List.app a b) "x" = EmptyString.
Proof.
  intros Ha Hb. destruct b as [|y b].
  - now rewrite List.app_nil_r.
  - change (EmptyString :: List.app a (y :: b))
      with (List.app (EmptyString :: a) (y :: b)).
    rewrite last_app_nonempty by discriminate. exact Hb.
Qed.

(** The comment block of the creator is made of lines that the parser
    passes over, and ends with a blank line. *)
Lemma header_lines_quiet title description now :
  comment_ok title description now = true ->
  forallb quiet (header_lines title description now) = true
  /\ last (EmptyString :: header_lines title description now) "x"
     = EmptyString.
Proof.
  intros H. unfold comment_ok in H.
  apply andb_true_iff in H. destruct H as [H Hnow].
  apply andb_true_iff in H. destruct H as [Ht Hd].
  unfold header_lines.
  destruct (truthy title || truthy description); [|now split].
  split.
  - rewrite !forallb_app.
    apply andb_true_iff; split; [reflexivity|].
    apply andb_true_iff; split.
    { destruct title as [t|]; [|reflexivity].
      destruct (t =? EmptyString); [reflexivity|].
      cbn [forallb]. now rewrite (quiet_comment t Ht). }
    apply andb_true_iff; split.
    { destruct description as [d|]; [|reflexivity].
      destruct (d =? EmptyString); [reflexivity|].
      cbn [forallb]. apply andb_true_iff. split; [reflexivity|].
      induction (split newline d) as [|l ls IH]; [reflexivity|].
      simpl in Hd. apply andb_true_iff in Hd. destruct Hd as [Hl Hls].
      cbn [map forallb]. now rewrite (quiet_comment l Hl), (IH Hls). }
    cbn [forallb].
    change ("; Erstellt am: " ++ now) with ("; " ++ "Erstellt am: " ++ now).
    rewrite quiet_comment; [reflexivity|].
    now rewrite no_linebreak_app, Hnow.
  - rewrite !List.app_assoc.
    match goal with
    | |- last (EmptyString :: List.app ?a ?b) _ = _ =>
        change (EmptyString :: List.app a b)
          with (List.app (EmptyString :: a) b)
    end.
    now rewrite last_app_nonempty by discriminate.
Qed.

(** A plain document is read back from the text written for it. *)
Lemma plain_document_reads_back (doc : parsed) :
  plain_document doc = true -> reads_back doc.
Proof.
  intros H title description now Hc. unfold plain_document in H.
  apply andb_true_iff in H. destruct H as [H Hdel].
  apply andb_true_iff in H. destruct H as [Hdist Hall].
  apply distinct_NoDup in Hdist.
  destruct (deleted_keys doc) as [|d ds] eqn:Ed; [clear Hdel|discriminate].
  destruct (header_lines_quiet title description now Hc) as [Hq Hqlast].
  set (hl := header_lines title description now) in *.
  set (st2 := mk_pstate (mk_parsed (Some header) [] [] []) None 2).
  destruct (quiet_steps hl st2 Hq) as (st3 & Hs3 & Hr3 & Hc3).
  assert (Hkeys3 : keys (result st3) = []) by now rewrite Hr3.
  destruct (key_lines_plain (keys doc) st3 [] Hkeys3 Hdist Hall)
    as (kl & st' & Ekl & Hlast & Hfa & Hs & Hr).
  unfold _generate_content. rewrite Ekl, Ed. fold hl.
  cbn [deleted_lines]. rewrite List.app_nil_r.
  eexists. split; [reflexivity|].
  fold header. fold nl.
  rewrite (parse_joined (header :: EmptyString :: List.app hl kl));
    [|discriminate| |].
  2:{ change (last (header :: EmptyString :: List.app hl kl) "x")
        with (last (EmptyString :: List.app hl kl) "x").
      now apply last_blank_app. }
  2:{ change (physical (header :: EmptyString :: List.app hl kl))
        with (header :: EmptyString :: physical (List.app hl kl)).
      rewrite physical_app, (quiet_physical hl Hq).
      constructor; [reflexivity|]. constructor; [reflexivity|].
      apply Forall_app. split; [now apply quiet_no_linebreak | exact Hfa]. }
  change (physical (header :: EmptyString :: List.app hl kl))
    with (header :: EmptyString :: physical (List.app hl kl)).
  rewrite physical_app, (quiet_physical hl Hq).
  unfold parse_lines. cbn [steps].
  change (parse_line initial header)
    with (Next (mk_pstate (mk_parsed (Some header) [] [] []) None 1)).
  cbv iota.
  change (parse_line (mk_pstate (mk_parsed (Some header) [] [] []) None 1)
            EmptyString)
    with (Next st2).
  cbv iota. rewrite (steps_app _ _ _ _ Hs3), Hs, Hr, Hr3. reflexivity.
Qed.

(** X14: a document of any number of keys, each with any number of named
    values and with or without a default value, is read back from the
    text of the creator with the same keys and values in the same order,
    with the version line of the creator, without deleted keys and
    without errors, whatever title, description and date stand in the
    comment block, as long as these hold no stray line boundary; this
    for values that are strings without line boundary, DWORDs, QWORDs or
    binary data of at most 16 bytes, under key paths and value names that
    can stand on a line, in a document that deletes no key.  A key
    without default value is read back with the default value [None]. *)
Theorem document_round_trip (doc : parsed) (title description : option string)
    (now : string) :
  plain_document doc = true ->
  comment_ok title description now = true ->
  exists text,
    _generate_content doc title description now = Some text
    /\ parse_content text = mk_parsed (Some header) (keys doc) [] [].
Proof.
  intros H Hc. exact (plain_document_reads_back doc H title description now Hc).
Qed.

Lemma document_round_trip_witness :
  exists doc text,
    get_template_data "dark_theme" = Some doc
    /\ _generate_content doc (Some "Dark theme")
         (Some ("Apps and system" ++ nl ++ "use the dark theme"))
         "03.11.2026 12:00:00" = Some text
    /\ parse_content text = mk_parsed (Some header) (keys doc) [] [].
Proof.
  eexists.
  destruct (document_round_trip
              (mk_parsed None
                 [("HKEY_CURRENT_USER\SOFTWARE\Microsoft\Windows\CurrentVersion\Themes\Personalize",
                   mk_key
                     [("AppsUseLightTheme", val "REG_DWORD" (PInt 0));
                      ("SystemUsesLightTheme", val "REG_DWORD" (PInt 0))]
                     None)] [] [])
              (Some "Dark theme")
              (Some ("Apps and system" ++ nl ++ "use the dark theme"))
              "03.11.2026 12:00:00" eq_refl eq_refl)
    as (text & Ht & Hp).
  exists text. split; [reflexivity|]. split; [exact Ht | exact Hp].
Defined.

(** X15: what the creator builds itself is read back from the text
    written for it: the entry of [create_simple_string_entry] for a
    string without line boundary, the entry of [create_dword_entry] for
    any number, and every template of [get_template_data], whose key
    paths all pass [validate_key_path]. *)
Theorem built_documents_read_back :
  (forall key_path value_name value_data,
      key_ok key_path = true -> name_ok value_name = true ->
      no_linebreak value_data = true ->
      reads_back (create_simple_string_entry key_path value_name value_data))
  /\ (forall key_path value_name value_data,
        key_ok key_path = true -> name_ok value_name = true ->
        reads_back (create_dword_entry key_path value_name value_data))
  /\ (forall template_name doc,
        get_template_data template_name = Some doc ->
        reads_back doc
        /\ forallb validate_key_path (dict_keys (keys doc)) = true).
Proof.
  split; [|split].
  - intros key_path value_name value_data Hk Hn Hs.
    apply plain_document_reads_back.
    unfold plain_document, create_simple_string_entry, plain_key, plain_value.
    cbn. now rewrite Hk, Hn, Hs.
  - intros key_path value_name value_data Hk Hn.
    apply plain_document_reads_back.
    unfold plain_document, create_dword_entry, plain_key, plain_value.
    cbn. now rewrite Hk, Hn.
  - intros template_name doc. unfold get_template_data, templates.
    cbn [dict_get].
    repeat match goal with
           | |- context [if ?b then _ else _] => destruct b
           end;
      try discriminate; intros [= <-];
      (split; [apply plain_document_reads_back|]); vm_compute; reflexivity.
Qed.

Lemma built_documents_read_back_witness :
  reads_back (create_dword_entry test_key "Flag" 1)
  /\ exists doc, get_template_data "disable_cortana" = Some doc
                 /\ reads_back doc.
Proof.
  destruct built_documents_read_back as (_ & Hd & Ht).
  split; [exact (Hd test_key "Flag" 1%Z eq_refl eq_refl)|].
  eexists. split; [reflexivity|].
  exact (proj1 (Ht "disable_cortana" _ eq_refl)).
Defined.

(** ** Validation *)

Lemma danger_warnings_minus d : danger_warnings [String "-" d] = [].
Proof. reflexivity. Qed.

(** X16: the text that the creator writes for a plain document, with any
    comment block, is valid for [validate_file], without errors; its only
    warnings are the one for a document without keys and one for each
    key path that starts with a dangerous key. *)
Theorem written_documents_validate (doc : parsed)
    (title description : option string) (now : string) :
  plain_document doc = true ->
  comment_ok title description now = true ->
  exists text,
    _generate_content doc title description now = Some text
    /\ validate_file (Content text)
       = mk_validation true []
           (List.app (entries_warning doc)
              (danger_warnings (dict_keys (keys doc)))).
Proof.
  intros H Hc.
  destruct (plain_document_reads_back doc H title description now Hc)
    as (text & Ht & Hp).
  exists text. split; [exact Ht|].
  unfold validate_file. rewrite Hp.
  unfold plain_document in H.
  apply andb_true_iff in H. destruct H as [_ Hdel].
  unfold version_warning, entries_warning.
  cbn [version keys deleted_keys errors truthy header String.eqb negb
       List.app].
  destruct (deleted_keys doc); [reflexivity | discriminate].
Qed.

Lemma written_documents_validate_witness :
  exists text,
    _generate_content (create_dword_entry test_key "Flag" 1) None None
      EmptyString = Some text
    /\ validate_file (Content text) = mk_validation true [] [].
Proof.
  exact (written_documents_validate (create_dword_entry test_key "Flag" 1)
           None None EmptyString eq_refl eq_refl).
Defined.

(** X17: [validate_file] has no warning for a file that deletes a key,
    whatever the key: the text written for the entry of
    [create_delete_key_entry] is valid, without errors and without
    warnings, also when the key is one of the dangerous keys, as the key
    path is read with the minus sign of the marker in front. *)
Theorem deletion_not_warned (d : string) :
  key_ok d = true ->
  exists text,
    _generate_content (create_delete_key_entry d) None None EmptyString
    = Some text
    /\ validate_file (Content text) = mk_validation true [] [].
Proof.
  intros Hd. pose proof (roundtrip_delete_only d Hd) as H.
  unfold roundtrip in H.
  destruct (_generate_content (create_delete_key_entry d) None None
              EmptyString) as [text|]; [|discriminate].
  injection H as H. exists text. split; [reflexivity|].
  unfold validate_file. rewrite H.
  unfold version_warning, entries_warning.
  cbn [version keys deleted_keys errors truthy header String.eqb negb
       List.app dict_keys map fst].
  now rewrite danger_warnings_minus.
Qed.

Lemma deletion_not_warned_witness :
  exists text,
    _generate_content
      (create_delete_key_entry
         "HKEY_LOCAL_MACHINE\SYSTEM\CurrentControlSet")
      None None EmptyString = Some text
    /\ validate_file (Content text) = mk_validation true [] [].
Proof.
  exact (deletion_not_warned "HKEY_LOCAL_MACHINE\SYSTEM\CurrentControlSet"
           eq_refl).
Defined.

(** ** What the counters of a report count *)

Lemma sum_Z_app (l1 l2 : list Z) :
  sum_Z (List.app l1 l2) = (sum_Z l1 + sum_Z l2)%Z.
Proof. induction l1 as [|x l1 IH]; simpl; [reflexivity | rewrite IH; lia]. Qed.

Lemma tally_app f (l1 l2 : list value_status) :
  tally f (List.app l1 l2) = (tally f l1 + tally f l2)%Z.
Proof. unfold tally. now rewrite map_app, sum_Z_app. Qed.

Lemma tally_cons f v (l : list value_status) :
  tally f (v :: l) = (f (vs_status v) + tally f l)%Z.
Proof. reflexivity. Qed.

Lemma fold_count_value_entries (l : list value_status) :
  forall a b c d e f g,
    fold_left count_value l (summary_of a b c d e f g)
    = summary_of a b c (d + Z.of_nat (List.length l))
        (e + tally is_match l) (f + tally is_different l)
        (g + tally is_other l).
Proof.
  induction l as [|vs l IH]; intros a b c d e f g.
  - unfold tally. simpl. now rewrite !Z.add_0_r.
  - cbn [fold_left]. rewrite count_value_law, IH.
    rewrite !(tally_cons _ vs l). cbn [List.length].
    rewrite Nat2Z.inj_succ. f_equal; lia.
Qed.

Lemma value_entries_end es ks :
  value_entries (List.app es [ks])
  = List.app (value_entries es) (dict_values (ks_values ks)).
Proof.
  unfold value_entries. rewrite flat_map_app. simpl.
  now rewrite List.app_nil_r.
Qed.

Lemma keys_found_end b es ks :
  keys_found b (List.app es [ks])
  = (keys_found b es + if Bool.eqb (ks_exists ks) b then 1 else 0)%Z.
Proof.
  unfold keys_found. rewrite map_app, sum_Z_app. simpl. lia.
Qed.

Lemma bump_keys a b c d e f g (found : bool) :
  (if found
   then bump (bump (summary_of a b c d e f g) "total_keys") "active_keys"
   else bump (bump (summary_of a b c d e f g) "total_keys") "missing_keys")
  = summary_of (a + 1) (b + if found then 1 else 0)
      (c + if found then 0 else 1) d e f g.
Proof. destruct found; cbn; now rewrite !Z.add_0_r. Qed.

(** Counting a key entry is counting it with the entries before it. *)
Lemma count_key_entries es ks :
  count_key (summary_of_entries es) ks = summary_of_entries (List.app es [ks]).
Proof.
  unfold count_key, summary_of_entries.
  rewrite value_entries_end, !tally_app, !length_app, !keys_found_end.
  cbn [List.length]. rewrite !Nat2Z.inj_add.
  rewrite bump_keys.
  destruct (ks_exists ks); rewrite fold_count_value_entries;
    cbn [Bool.eqb]; f_equal; lia.
Qed.

Lemma in_dict_keys_set {V} (d : dict V) k v x :
  In x (dict_keys (dict_set d k v)) <-> x = k \/ In x (dict_keys d).
Proof.
  induction d as [|[k' v'] d IH]; simpl.
  - intuition.
  - destruct (String.eqb_spec k' k) as [->|Hne]; simpl.
    + intuition.
    + rewrite IH. intuition.
Qed.

Lemma dict_set_keys_NoDup {V} (d : dict V) k v :
  NoDup (dict_keys d) -> NoDup (dict_keys (dict_set d k v)).
Proof.
  induction d as [|[k' v'] d IH]; simpl; intros H.
  - constructor; [intros [] | constructor].
  - inversion H as [|? ? Hni Hnd]; subst.
    destruct (String.eqb_spec k' k) as [->|Hne]; simpl.
    + now constructor.
    + constructor; [|now apply IH].
      rewrite in_dict_keys_set. intros [->|Hin]; [now elim Hne | contradiction].
Qed.

Lemma parse_line_keys_NoDup st raw st' :
  parse_line st raw = Next st' ->
  NoDup (dict_keys (keys (result st))) ->
  NoDup (dict_keys (keys (result st'))).
Proof.
  unfold parse_line.
  repeat match goal with
         | |- context [if ?b then _ else _] => destruct b
         | |- context [match ?x with _ => _ end] => destruct x
         end;
    try discriminate; intros [= <-]; cbn [result keys set_keys set_version
      add_deleted add_error unknown_line]; auto using dict_set_keys_NoDup.
Qed.

Lemma parsed_keys_distinct content :
  NoDup (dict_keys (keys (parse_content content))).
Proof.
  unfold parse_content, parse_lines.
  destruct (steps_next (splitlines content) initial initial_key_open)
    as (st' & H & _).
  rewrite H.
  assert (Hgen : forall lines st st',
             steps st lines = Next st' ->
             NoDup (dict_keys (keys (result st))) ->
             NoDup (dict_keys (keys (result st')))).
  { induction lines as [|raw lines IH]; simpl; intros st0 st1 Hs Hn.
    - now injection Hs as <-.
    - destruct (parse_line st0 raw) as [st2|st2 e] eqn:H1; [|discriminate].
      apply (IH st2 st1 Hs). now apply (parse_line_keys_NoDup st0 raw). }
  apply (Hgen _ _ _ H). constructor.
Qed.

(** The first loop of the checker appends one entry for each key and
    counts it. *)
Lemma check_keys_entries reg ks :
  forall acc log,
    fst acc = summary_of_entries (dict_values (snd acc)) ->
    NoDup (dict_keys ks) ->
    (forall k, In k (dict_keys ks) -> dict_get (snd acc) k = None) ->
    let r := fst (check_keys reg ks acc log) in
    fst r = summary_of_entries (dict_values (snd r))
    /\ dict_keys (snd r) = List.app (dict_keys (snd acc)) (dict_keys ks).
Proof.
  induction ks as [|[k kd] ks IH]; intros acc log Hs Hnd Hfresh.
  - cbv zeta. simpl. now rewrite List.app_nil_r.
  - cbv zeta. rewrite check_keys_step.
    destruct (_check_key_status reg k kd log) as [key_status log'].
    inversion Hnd as [|? ? Hni Hnd']; subst.
    assert (Hk : dict_get (snd acc) k = None) by (apply Hfresh; now left).
    rewrite (dict_set_fresh (snd acc) k key_status Hk).
    destruct (IH (count_key (fst acc) key_status,
                  List.app (snd acc) [(k, key_status)]) log') as [H1 H2].
    + cbn [fst snd]. rewrite Hs, count_key_entries.
      unfold dict_values. now rewrite map_app.
    + exact Hnd'.
    + intros k' Hin. cbn [snd].
      rewrite <- (dict_set_fresh (snd acc) k key_status Hk).
      rewrite dict_get_set_neq.
      * apply Hfresh. now right.
      * intros ->. contradiction.
    + split; [exact H1|]. etransitivity; [exact H2|]. cbn [snd].
      unfold dict_keys. rewrite map_app, <- List.app_assoc. reflexivity.
Qed.

(** The summary of the report on a file counts the entries of the
    report, which are those of the keys of the file. *)
Lemma file_report_summary reg content log :
  let r := fst (check_file_status reg content log) in
  summary r = summary_of_entries (dict_values (sr_keys r))
  /\ dict_keys (sr_keys r) = dict_keys (keys (parse_content content)).
Proof.
  cbv zeta. unfold check_file_status.
  rewrite summary_check_parsed, sr_keys_check_parsed.
  rewrite deleted_keys_always_empty. cbv zeta. cbn [check_deleted ret fst].
  apply (check_keys_entries reg (keys (parse_content content))
           (summary0, []) log).
  - reflexivity.
  - apply parsed_keys_distinct.
  - reflexivity.
Qed.

(** C10: in every report the counters of the summary add up:
    [total_keys = active_keys + missing_keys] and
    [total_values = matching_values + different_values + missing_values];
    a classified value adds one to [total_values] and to one bucket, which
    is [missing_values] for every status other than match and different;
    and the summary of the report on a file is the count of the entries
    of that report: [total_keys] is the number of key entries,
    [active_keys] and [missing_keys] the numbers of those that exist and
    that do not, [total_values] the number of value entries, and
    [matching_values], [different_values] and [missing_values] the
    numbers of value entries with the status match, with the status
    different, and with any other status. *)
Theorem summary_invariant (reg : live_registry) (doc : parsed)
    (log : list event) :
  let s := summary (fst (check_parsed reg doc log)) in
  get0 s "total_keys" = (get0 s "active_keys" + get0 s "missing_keys")%Z
  /\ get0 s "total_values"
     = (get0 s "matching_values" + get0 s "different_values"
        + get0 s "missing_values")%Z
  /\ (forall a b c d e f g (vs : value_status),
        count_value (summary_of a b c d e f g) vs
        = match vs_status vs with
          | Match => summary_of a b c (d + 1) (e + 1) f g
          | Different => summary_of a b c (d + 1) e (f + 1) g
          | Missing | ShouldNotExist | CorrectlyDeleted =>
              summary_of a b c (d + 1) e f (g + 1)
          end)
  /\ (forall content log',
        let r := fst (check_file_status reg content log') in
        summary r = summary_of_entries (dict_values (sr_keys r))).
Proof.
  cbv zeta. rewrite summary_check_parsed.
  assert (Hb : balanced (fst (fst (check_keys reg (keys doc) (summary0, []) log)))).
  { apply check_keys_balanced. simpl.
    exists 0%Z, 0%Z, 0%Z, 0%Z, 0%Z, 0%Z, 0%Z. repeat split. }
  destruct Hb as (a & b & c & d & e & f & g & -> & Hk & Hv).
  split; [exact Hk|]. split; [exact Hv|]. split.
  - intros. rewrite count_value_law.
    destruct (vs_status vs); simpl; rewrite ?Z.add_0_r; reflexivity.
  - intros content log'. apply file_report_summary.
Qed.

Lemma tally_match (vs : list value_status) :
  (0 <= tally is_match vs <= Z.of_nat (List.length vs))%Z
  /\ (tally is_match vs = Z.of_nat (List.length vs)
      <-> Forall (fun v => vs_status v = Match) vs)
  /\ (tally is_match vs = 0%Z
      <-> Forall (fun v => vs_status v <> Match) vs)
  /\ ((0 < tally is_match vs)%Z
      <-> Exists (fun v => vs_status v = Match) vs)
  /\ ((tally is_match vs < Z.of_nat (List.length vs))%Z
      <-> Exists (fun v => vs_status v <> Match) vs).
Proof.
  induction vs as [|v vs (Hb & Hall & Hnone & Hsome & Hless)].
  - unfold tally. simpl. repeat split; auto; try lia;
      intros H; inversion H.
  - rewrite tally_cons. cbn [List.length]. rewrite Nat2Z.inj_succ.
    assert (Hv : (vs_status v = Match /\ is_match (vs_status v) = 1%Z)
                 \/ (vs_status v <> Match /\ is_match (vs_status v) = 0%Z))
      by (destruct (vs_status v); [left | right ..]; split;
          try reflexivity; discriminate).
    split; [destruct Hv as [[_ ->]|[_ ->]]; lia|].
    split; [|split; [|split]].
    + split.
      * intros H. destruct Hv as [[Hm E]|[_ E]]; rewrite E in H; [|lia].
        constructor; [exact Hm|]. apply Hall. lia.
      * intros H. inversion H as [|? ? Hm Hr]; subst.
        apply Hall in Hr. rewrite Hm. cbn [is_match]. lia.
    + split.
      * intros H. destruct Hv as [[_ E]|[Hm E]]; rewrite E in H; [lia|].
        constructor; [exact Hm|]. apply Hnone. lia.
      * intros H. inversion H as [|? ? Hm Hr]; subst.
        apply Hnone in Hr. destruct Hv as [[Hm' _]|[_ E]];
          [contradiction | rewrite E; lia].
    + split.
      * intros H. destruct Hv as [[Hm _]|[_ E]];
          [now constructor|]. rewrite E in H.
        apply Exists_cons_tl, Hsome. lia.
      * intros H. inversion H as [? ? Hm|? ? Hr]; subst.
        -- rewrite Hm. cbn [is_match]. lia.
        -- apply Hsome in Hr. destruct Hv as [[_ ->]|[_ ->]]; lia.
    + split.
      * intros H. destruct Hv as [[_ E]|[Hm _]];
          [|now constructor]. rewrite E in H.
        apply Exists_cons_tl, Hless. lia.
      * intros H. inversion H as [? ? Hm|? ? Hr]; subst.
        -- destruct Hv as [[Hm' _]|[_ ->]]; [contradiction | lia].
        -- apply Hless in Hr. destruct Hv as [[_ ->]|[_ ->]]; lia.
Qed.

(** X3: in the report on a file [total_keys] is the number of keys of
    the file and [total_values] the number of value entries of the
    report, and the overall status is read off these entries: it is
    [unknown] exactly when the report has no value entry, [all_active]
    exactly when it has one and every value entry has the status match,
    [all_inactive] exactly when it has one and no value entry has the
    status match, and [partial] exactly when some value entry has the
    status match and some has another status. *)
Theorem summary_counts (reg : live_registry) (content : string)
    (log : list event) :
  let r := fst (check_file_status reg content log) in
  let vs := value_entries (dict_values (sr_keys r)) in
  get0 (summary r) "total_keys"
  = Z.of_nat (List.length (keys (parse_content content)))
  /\ get0 (summary r) "total_values" = Z.of_nat (List.length vs)
  /\ (overall_status r = unknown <-> vs = [])
  /\ (overall_status r = all_active <->
      vs <> [] /\ Forall (fun v => vs_status v = Match) vs)
  /\ (overall_status r = all_inactive <->
      vs <> [] /\ Forall (fun v => vs_status v <> Match) vs)
  /\ (overall_status r = partial <->
      Exists (fun v => vs_status v = Match) vs
      /\ Exists (fun v => vs_status v <> Match) vs).
Proof.
  cbv zeta.
  destruct (file_report_summary reg content log) as [Hs Hk]. cbv zeta in Hs, Hk.
  unfold check_file_status in *. rewrite overall_check_parsed, Hs.
  set (es := dict_values
               (sr_keys (fst (check_parsed reg (parse_content content) log)))).
  assert (Hlen : List.length es
                 = List.length (keys (parse_content content))).
  { unfold es, dict_values. rewrite length_map.
    rewrite <- (length_map fst (keys (parse_content content))).
    fold (dict_keys (keys (parse_content content))). rewrite <- Hk.
    unfold dict_keys. now rewrite length_map. }
  destruct (tally_match (value_entries es))
    as (Hb & Hall & Hnone & Hsome & Hless).
  unfold _calculate_overall_status, summary_of_entries.
  change (get0 (summary_of ?a ?b ?c ?d ?e ?f ?g) "total_keys") with a.
  cbn [get0 summary_of dict_get String.eqb Ascii.eqb Bool.eqb].
  set (d := Z.of_nat (List.length (value_entries es))) in *.
  set (e := tally is_match (value_entries es)) in *.
  split; [now rewrite Hlen|]. split; [reflexivity|].
  assert (Hd : d = 0%Z <-> value_entries es = []).
  { unfold d. destruct (value_entries es); simpl; split; intros H;
      try reflexivity; try discriminate; lia. }
  destruct (Z.eqb_spec d 0) as [Hd0|Hd0];
    destruct (Z.eqb_spec e d) as [He|He];
    destruct (Z.eqb_spec e 0) as [Hz|Hz];
    (split; [|split; [|split]]); split; intros H;
    try discriminate; try reflexivity; try tauto;
    try (exfalso; lia);
    try (pose proof (proj1 H) as H1; pose proof (proj2 H) as H2; exfalso;
         first [ apply Hall in H2; lia | apply Hnone in H2; lia
               | apply Hsome in H1; apply Hless in H2; lia
               | tauto ]);
    try (split; [tauto|]; first [apply Hall; lia | apply Hnone; lia]);
    try (split; [apply Hsome; lia | apply Hless; lia]).
Qed.

(** ** Keys that cannot be opened *)

(** X7: when the attempt to open the key fails, the key is reported as
    not existing and no further call is made.  When it fails because the
    key is not found, every named value is reported missing, and so is
    the default value unless a named value is called [@default], and no
    error is recorded; when it fails for another reason, the entry has no
    values at all and records the error. *)
Theorem key_not_opened_values (reg : live_registry) (key_path : string)
    (kd : key_data) (log : list event) (root : Z) (sub_key : string) :
  _parse_key_path key_path = (Some root, sub_key) ->
  root <> 0%Z ->
  NoDup (dict_keys (values kd)) ->
  let r := _check_key_status reg key_path kd log in
  (OpenKey reg root sub_key = NotFound ->
     ks_exists (fst r) = false
     /\ ks_errors (fst r) = Some []
     /\ snd r = List.app log [EvOpenKey root sub_key]
     /\ (forall name v, In (name, v) (values kd) ->
           dict_get (ks_values (fst r)) name = Some (missing_entry v))
     /\ (forall dv, declared_default kd = Some dv ->
           ~ In "@default" (dict_keys (values kd)) ->
           dict_get (ks_values (fst r)) "@default" = Some (missing_entry dv))
     /\ (forall name, dict_mem (ks_values (fst r)) name = true ->
           In name (dict_keys (values kd))
           \/ (name = "@default" /\ declared_default kd <> None)))
  /\ (forall e, OpenKey reg root sub_key = OtherError e ->
        ks_exists (fst r) = false
        /\ ks_values (fst r) = []
        /\ ks_errors (fst r)
           = Some ["Fehler beim Pr" ++ String u_umlaut "fen des Keys: " ++ e]
        /\ snd r = List.app log [EvOpenKey root sub_key]).
Proof.
  intros Hpath Hroot Hnd. cbv zeta. split.
  - intros Hopen.
    destruct (key_not_found_values reg key_path kd log root sub_key
                Hpath Hroot Hopen Hnd) as (He & Hlog & Hval & Hdef).
    cbv zeta in He, Hlog, Hval, Hdef.
    split; [exact He|]. split.
    { unfold _check_key_status. rewrite Hpath.
      unfold no_root. apply Z.eqb_neq in Hroot. rewrite Hroot.
      unfold bind, call, ret. now rewrite Hopen. }
    split; [exact Hlog|]. split; [exact Hval|]. split; [exact Hdef|].
    intros name. unfold _check_key_status. rewrite Hpath.
    unfold no_root. apply Z.eqb_neq in Hroot. rewrite Hroot.
    unfold bind, call, ret. rewrite Hopen. cbn [fst ks_values].
    intros Hm.
    destruct (in_dec string_dec name (dict_keys (values kd))) as [Hin|Hni];
      [now left | right].
    unfold dict_mem in Hm.
    rewrite (proj2 (missing_named_get (values kd) _ name) Hni) in Hm.
    destruct (declared_default kd) as [dv|];
      cbn [dict_get dict_set] in Hm; [|discriminate].
    destruct (String.eqb_spec "@default" name) as [Heq|];
      [|discriminate]. split; [now symmetry | discriminate].
  - intros e Hopen.
    unfold _check_key_status. rewrite Hpath.
    unfold no_root. apply Z.eqb_neq in Hroot. rewrite Hroot.
    unfold bind, call, ret. rewrite Hopen. now repeat split.
Qed.

Lemma key_not_opened_values_witness :
  dict_get (ks_values (fst (_check_key_status reg_no_key test_key kd_flag [])))
    "Flag"
  = Some (missing_entry (val "REG_DWORD" (PInt 1)))
  /\ ks_values (fst (_check_key_status reg_denied test_key kd_flag [])) = [].
Proof.
  assert (Hroot : HKEY_CURRENT_USER <> 0%Z) by discriminate.
  assert (Hnd : NoDup (dict_keys (values kd_flag))).
  { simpl. constructor; [intros [] | constructor]. }
  split.
  - destruct (key_not_opened_values reg_no_key test_key kd_flag []
                HKEY_CURRENT_USER "Software\Test" eq_refl Hroot Hnd)
      as [Hnf _].
    destruct (Hnf eq_refl) as (_ & _ & _ & Hval & _).
    apply Hval. simpl. left. reflexivity.
  - destruct (key_not_opened_values reg_denied test_key kd_flag []
                HKEY_CURRENT_USER "Software\Test" eq_refl Hroot Hnd)
      as [_ Hoe].
    destruct (Hoe "denied" eq_refl) as (_ & Hv & _). exact Hv.
Defined.

(** ** Malformed lines and malformed values *)







(** ** Numbers that are no hexadecimal numbers *)


















(** ** Strings that are written as bytes *)

Lemma ints_not_strings zs ss :
  zs <> [] -> ints zs <> PList (map PStr ss).
Proof.
  intros Hne H. unfold ints in H. injection H as H.
  destruct zs as [|z zs]; [contradiction|].
  destruct ss as [|x ss]; discriminate H.
Qed.

(** C2: the creator writes a multi-string and an expandable string as
    the bytes of their UTF-16 text, in a [hex(7):] or [hex(2):] line, and
    the parser reads such a line as the list of these bytes without
    decoding them: the document read back has the type of the original
    and a list of integers as payload, never the strings of the
    original. *)
Theorem strings_reparsed_as_bytes (key_path value_name : string) :
  key_ok key_path = true -> name_ok value_name = true ->
  (forall ss,
      roundtrip (single key_path value_name
                   (val "REG_MULTI_SZ" (PList (map PStr ss))))
      = Some (reparsed key_path value_name
                (val "REG_MULTI_SZ" (ints (multi_sz_bytes (map PStr ss)))))
      /\ val "REG_MULTI_SZ" (ints (multi_sz_bytes (map PStr ss)))
         <> val "REG_MULTI_SZ" (PList (map PStr ss)))
  /\ (forall s,
        roundtrip (single key_path value_name (val "REG_EXPAND_SZ" (PStr s)))
        = Some (reparsed key_path value_name
                  (val "REG_EXPAND_SZ"
                     (ints (List.app (utf16_units s) [0; 0]%Z))))
        /\ val "REG_EXPAND_SZ" (ints (List.app (utf16_units s) [0; 0]%Z))
           <> val "REG_EXPAND_SZ" (PStr s)).
Proof.
  intros Hk Hn.
  destruct (roundtrip_single_value key_path value_name Hk Hn)
    as (_ & _ & _ & _ & Hexp & Hmulti).
  split.
  - intros ss. split; [apply Hmulti|].
    intros H. apply (ints_not_strings _ ss (multi_sz_bytes_nonempty
                                               (map PStr ss))).
    unfold val, ints in H |- *. injection H as H. now rewrite H.
  - intros s. split; [apply Hexp|]. unfold val, ints. discriminate.
Qed.

Lemma strings_reparsed_as_bytes_witness :
  roundtrip doc_multi_sz
  = Some (reparsed test_key "Paths"
            (val "REG_MULTI_SZ" (ints [97; 0; 0; 0; 98; 0; 0; 0; 0; 0]%Z)))
  /\ val "REG_MULTI_SZ" (ints [97; 0; 0; 0; 98; 0; 0; 0; 0; 0]%Z)
     <> val "REG_MULTI_SZ" (PList [PStr "a"; PStr "b"]).
Proof.
  destruct (strings_reparsed_as_bytes test_key "Paths" eq_refl eq_refl)
    as [Hmulti _].
  exact (Hmulti ["a"; "b"]).
Defined.
